(** * Circam: a circular webcam viewer (SDL2 + V4L2)

  A shallow embedding of [circam.c]: the mask generator
  [create_circular_shape] and [main] (argument parsing, device and buffer
  initialisation, the event/resize handling of the main loop, the capture
  cycle and the shutdown sequence).

  Calls into SDL, libc and the V4L2 driver are effects: every call is
  recorded in a trace, and what the outside world answers (return values
  of [ioctl], [select], [SDL_GetTicks], ...) is an input of the model. *)

From Stdlib Require Import ZArith Lia Bool.
From stdpp Require Import base list strings.

Local Open Scope Z_scope.

(** ** C integers *)

Module CInt.

(** [int] is 32 bits wide; signed arithmetic is written with its
    two's-complement wrap-around. *)
Definition INT_MAX : Z := 2147483647.
Definition INT_MIN : Z := -2147483648.

Definition wrap_int (z : Z) : Z := (z + 2 ^ 31) mod 2 ^ 32 - 2 ^ 31.

Definition int_add (a b : Z) : Z := wrap_int (a + b).
Definition int_sub (a b : Z) : Z := wrap_int (a - b).
Definition int_mul (a b : Z) : Z := wrap_int (a * b).
(** C division truncates towards zero. *)
Definition int_div (a b : Z) : Z := wrap_int (Z.quot a b).

(** [Uint32] (the type of [SDL_GetTicks]) wraps modulo 2^32. *)
Definition u32 (z : Z) : Z := z mod 2 ^ 32.
Definition u32_sub (a b : Z) : Z := u32 (a - b).

Definition in_int (z : Z) : Prop := INT_MIN <= z <= INT_MAX.

End CInt.
Import CInt.

(** ** The shape mask: [create_circular_shape] *)

Module Shape.

(** An [SDL_Surface] as the function uses it: width, height and the
    32-bit pixels, row after row. *)
Record SDL_Surface := mkSurface {
  surf_w : Z;
  surf_h : Z;
  surf_pixels : list Z
}.

(** [SDL_MapRGBA] for the format the surface is created with
    (Rmask 0xFF0000, Gmask 0xFF00, Bmask 0xFF, Amask 0xFF000000). *)
Definition SDL_MapRGBA (r g b a : Z) : Z :=
  Z.lor (Z.lor (Z.lor (Z.shiftl a 24) (Z.shiftl r 16)) (Z.shiftl g 8)) b.

(** The alpha channel of a pixel of that format. *)
Definition alpha (px : Z) : Z := Z.land (Z.shiftr px 24) 255.

(** The body of the [x] loop for one pixel. *)
Definition shape_pixel (size center radius white y dy2 : Z)
    (pixels : list Z) (x : Z) : list Z :=
  let dx := int_sub x center in
  if int_add (int_mul dx dx) dy2 <=? radius
  then <[Z.to_nat (int_add (int_mul y size) x) := white]> pixels
  else pixels.

(** The body of the [y] loop: one row. *)
Definition shape_row (size center radius white : Z)
    (pixels : list Z) (y : Z) : list Z :=
  let dy := int_sub y center in
  let dy2 := int_mul dy dy in
  fold_left (shape_pixel size center radius white y dy2) (seqZ 0 size) pixels.

(** [create_circular_shape(size)]. [surface_ok] tells whether
    [SDL_CreateRGBSurface] returned a surface; [None] is the [NULL]
    result. [SDL_FillRect] makes every pixel transparent black before the
    loops paint the disc. Where an [int] operation overflows the C
    function has no defined behaviour; the properties below are stated for
    the sizes where none does. *)
Definition create_circular_shape (surface_ok : bool) (size : Z)
    : option SDL_Surface :=
  if surface_ok then
    let cleared := replicate (Z.to_nat (size * size)) (SDL_MapRGBA 0 0 0 0) in
    let center := int_div size 2 in
    let radius := int_mul center center in
    let white := SDL_MapRGBA 255 255 255 255 in
    Some (mkSurface size size
            (fold_left (shape_row size center radius white) (seqZ 0 size) cleared))
  else None.

(** Whether the loop body at [(x, y)] writes pixel [k], with the
    arithmetic of the source. *)
Definition pixel_hit (size center radius y x : Z) (k : nat) : bool :=
  (int_add (int_mul (int_sub x center) (int_sub x center))
           (int_mul (int_sub y center) (int_sub y center)) <=? radius)
  && bool_decide (Z.to_nat (int_add (int_mul y size) x) = k).

Definition row_hits (size center radius y : Z) (k : nat) : bool :=
  existsb (λ x, pixel_hit size center radius y x k) (seqZ 0 size).

End Shape.


(** ** Effects and the state of [main] *)

(** The state in which the driver holds one buffer of the pool. *)
Inductive slot_state := Unmapped | Mapped | Queued | Dequeued.

Global Instance slot_state_eq_dec : EqDecision slot_state.
Proof. solve_decision. Defined.

(** A pointer to a surface returned by [create_circular_shape]: the call
    that made it (calls are numbered from 0) and the size it was made for.
    Its pixels are those of [Shape.create_circular_shape true (ssize r)]. *)
Record surface_ref := mkRef { sid : nat; ssize : Z }.

Global Instance surface_ref_eq_dec : EqDecision surface_ref.
Proof. solve_decision. Defined.

Record SDL_Rect := mkRect { rect_x : Z; rect_y : Z; rect_w : Z; rect_h : Z }.

(** One entry per call that leaves the program, in program order. Format
    strings are recorded as written in the source; the arguments of the
    [stderr] messages are left out. Two entries are ghost markers and not
    calls: [E_store_current_window_size] marks the assignment to
    [current_window_size], and [E_observe_pool] shows the driver-side state
    of the buffer pool at that point. The last argument of [E_ioctl_QBUF] is
    the state the driver holds that buffer in when the call is made. *)
Inductive effect :=
| E_perror (s : string)
| E_fprintf_stderr (fmt : string)
| E_printf (fmt : string) (args : list Z)
| E_SDL_Init
| E_SDL_Quit
| E_open (path : string)
| E_close
| E_ioctl_QUERYCAP
| E_ioctl_S_FMT
| E_ioctl_REQBUFS (count : Z)
| E_calloc (count : Z)
| E_free
| E_ioctl_QUERYBUF (index : Z)
| E_mmap (index : Z)
| E_munmap (index : Z)
| E_ioctl_QBUF (index : Z) (ret : Z) (held : option slot_state)
| E_ioctl_DQBUF (ret : Z) (index : Z)
| E_ioctl_STREAMON
| E_ioctl_STREAMOFF
| E_select (tv_sec tv_usec : Z) (ret : Z)
| E_SDL_CreateShapedWindow (w h flags : Z)
| E_SDL_SetWindowResizable
| E_SDL_CreateRenderer
| E_SDL_CreateTexture (w h : Z)
| E_SDL_DestroyTexture
| E_SDL_DestroyRenderer
| E_SDL_DestroyWindow
| E_SDL_SetWindowSize (w h : Z)
| E_SDL_GetWindowSize (w h : Z)
| E_SDL_FreeSurface (s : option surface_ref)
| E_create_circular_shape (size : Z) (result : option surface_ref)
| E_SDL_SetWindowShape (s : surface_ref)
| E_SDL_SetWindowPosition (x y : Z)
| E_SDL_RenderClear
| E_SDL_RenderCopy (src dst : SDL_Rect)
| E_SDL_RenderPresent
| E_SDL_UpdateTexture (index : Z) (pitch : Z)
| E_store_current_window_size (v : Z)
| E_observe_pool (pool : list slot_state).

Global Instance SDL_Rect_eq_dec : EqDecision SDL_Rect.
Proof. solve_decision. Defined.

Global Instance effect_eq_dec : EqDecision effect.
Proof. solve_decision. Defined.

(** The constants of the source. *)
Definition DEFAULT_SIZE : Z := 480.
Definition MIN_SIZE : Z := 100.
Definition MIN_WINDOW_SIZE : Z := 50.
Definition SIZE_STEP : Z := 10.
Definition RESIZE_STABILIZE_MS : Z := 100.

(** ** Geometry: the size, mask and pending-resize variables *)

Module Geometry.

(** [window_size], [current_window_size] and [shape_surface] are locals of
    [main]; [pending_resize], [pending_size] and [last_resize_time] are the
    file's globals. [surfaces_created] is ghost: it numbers the surfaces. *)
Record geometry := mkGeometry {
  window_size : Z;
  current_window_size : Z;
  shape_surface : option surface_ref;
  surfaces_created : nat;
  pending_resize : Z;
  pending_size : Z;
  last_resize_time : Z
}.

Definition set_window_size (g : geometry) (v : Z) : geometry :=
  mkGeometry v (current_window_size g) (shape_surface g) (surfaces_created g)
    (pending_resize g) (pending_size g) (last_resize_time g).

Definition set_current_window_size (g : geometry) (v : Z) : geometry :=
  mkGeometry (window_size g) v (shape_surface g) (surfaces_created g)
    (pending_resize g) (pending_size g) (last_resize_time g).

Definition set_shape_surface (g : geometry) (s : option surface_ref) (n : nat)
    : geometry :=
  mkGeometry (window_size g) (current_window_size g) s n
    (pending_resize g) (pending_size g) (last_resize_time g).

Definition set_pending (g : geometry) (flag size time : Z) : geometry :=
  mkGeometry (window_size g) (current_window_size g) (shape_surface g)
    (surfaces_created g) flag size time.

(** What the outside world answers while one event is handled. *)
Record answers := mkAnswers {
  surface_ok : bool;   (* SDL_CreateRGBSurface returns a surface *)
  ticks : Z;           (* SDL_GetTicks() *)
  mouse_x : Z;         (* SDL_GetGlobalMouseState *)
  mouse_y : Z;
  win_x : Z;           (* SDL_GetWindowPosition *)
  win_y : Z
}.

(** The call [create_circular_shape(size)] as [main] sees it: a pointer or
    [NULL], and the message the function prints when it fails. *)
Definition call_create_circular_shape (ok : bool) (n : nat) (size : Z)
    : option surface_ref * list effect :=
  if ok then (Some (mkRef n size), [E_create_circular_shape size (Some (mkRef n size))])
  else (None, [E_create_circular_shape size None;
               E_fprintf_stderr "SDL_CreateRGBSurface failed: %s\n"]).

(** The three statements every resize path runs on the mask:
<<
  SDL_FreeSurface(shape_surface);
  shape_surface = create_circular_shape(window_size);
  if (shape_surface) SDL_SetWindowShape(window, shape_surface, &mode);
>> *)
Definition replace_shape (g : geometry) (ok : bool) : geometry * list effect :=
  let old := shape_surface g in
  let '(new, t) := call_create_circular_shape ok (surfaces_created g) (window_size g) in
  let g' := set_shape_surface g new
              (if ok then S (surfaces_created g) else surfaces_created g) in
  (g', [E_SDL_FreeSurface old] ++ t ++
       match new with
       | Some s => [E_SDL_SetWindowShape s]
       | None => []
       end).

(** [if (window_size < MIN_WINDOW_SIZE) window_size = MIN_WINDOW_SIZE;] *)
Definition clamp_window_size (g : geometry) : geometry :=
  if window_size g <? MIN_WINDOW_SIZE then set_window_size g MIN_WINDOW_SIZE else g.

(** The statements after the clamp in the keyboard and wheel branches:
    resize the window, replace the mask, then
    [current_window_size = window_size]. *)
Definition resize_now (g : geometry) (ok : bool) : geometry * list effect :=
  let t1 := [E_SDL_SetWindowSize (window_size g) (window_size g)] in
  let '(g1, t2) := replace_shape g ok in
  (set_current_window_size g1 (window_size g1),
   t1 ++ t2 ++ [E_store_current_window_size (window_size g1)]).

(** [case SDL_KEYDOWN], the branch of [+] and [=]. *)
Definition key_plus (g : geometry) (a : answers) : geometry * list effect :=
  let g1 := set_window_size g (int_add (current_window_size g) SIZE_STEP) in
  resize_now (clamp_window_size g1) (surface_ok a).

(** [case SDL_KEYDOWN], the branch of [-]. *)
Definition key_minus (g : geometry) (a : answers) : geometry * list effect :=
  let g1 := set_window_size g (int_sub (current_window_size g) SIZE_STEP) in
  resize_now (clamp_window_size g1) (surface_ok a).

(** [case SDL_MOUSEWHEEL]: [window_size] keeps its value when [y] is 0. *)
Definition mouse_wheel (g : geometry) (y : Z) (a : answers)
    : geometry * list effect :=
  let g1 :=
    if 0 <? y then set_window_size g (int_add (current_window_size g) SIZE_STEP)
    else if y <? 0 then set_window_size g (int_sub (current_window_size g) SIZE_STEP)
    else g in
  resize_now (clamp_window_size g1) (surface_ok a).

(** [case SDL_WINDOWEVENT] with [SDL_WINDOWEVENT_SIZE_CHANGED]. *)
Definition window_size_changed (g : geometry) (data1 data2 : Z) (a : answers)
    : geometry :=
  let new_size := if data1 <? data2 then data1 else data2 in
  if (MIN_WINDOW_SIZE <=? new_size) && negb (new_size =? current_window_size g)
  then set_pending g 1 new_size (ticks a)
  else g.

(** What [main] is told at the stabilisation check of one iteration. *)
Record check_answers := mkCheck {
  check_ticks : Z;        (* SDL_GetTicks() *)
  actual_w : Z;           (* SDL_GetWindowSize after SDL_SetWindowSize *)
  actual_h : Z;
  check_surface_ok : bool
}.

(** The block under [// Check for stabilized resize]. *)
Definition stabilized_resize (g : geometry) (c : check_answers)
    : geometry * list effect :=
  if negb (pending_resize g =? 0)
     && (RESIZE_STABILIZE_MS <=? u32_sub (check_ticks c) (last_resize_time g))
  then
    let t1 := [E_SDL_SetWindowSize (pending_size g) (pending_size g);
               E_SDL_GetWindowSize (actual_w c) (actual_h c)] in
    let '(g2, t2) :=
      if (actual_w c =? actual_h c) && (actual_w c =? pending_size g) then
        let g1 := set_window_size g (pending_size g) in
        let g1 := set_current_window_size g1 (window_size g1) in
        let '(g2, t) := replace_shape g1 (check_surface_ok c) in
        (g2, [E_store_current_window_size (window_size g1)] ++ t)
      else
        (g, [E_printf "Resize failed: requested %dx%d, actual %dx%d\n"
               [pending_size g; pending_size g; actual_w c; actual_h c]]) in
    (set_pending g2 0 (pending_size g2) (last_resize_time g2), t1 ++ t2)
  else (g, []).

End Geometry.

(** ** The buffer pool as the driver holds it *)

Module Driver.

(** The V4L2 driver is not part of the program. Its side of the queue
    protocol is modelled here: it accepts a buffer that it does not hold
    already, and it hands back only buffers that are on its queue. What the
    hardware decides (whether a call succeeds, which buffer is ready) is an
    input. *)

Abbreviation pool := (list slot_state).

(** [VIDIOC_QBUF] on buffer [i]; [ret] is what the driver would answer for a
    buffer it can take. A buffer that is out of range or already queued is
    refused. Returns the pool and the return value of [ioctl]. *)
Definition qbuf (p : pool) (i : Z) (ret : Z) : pool * Z :=
  if ret <? 0 then (p, ret)
  else if i <? 0 then (p, -1)
  else
    match p !! Z.to_nat i with
    | Some Mapped | Some Dequeued => (<[Z.to_nat i := Queued]> p, ret)
    | _ => (p, -1)
    end.

(** [VIDIOC_DQBUF]; [ret] and [i] are the driver's proposed answer: the
    return value and [buf.index]. Only a queued buffer can be handed back. *)
Definition dqbuf (p : pool) (ret : Z) (i : Z) : pool * Z :=
  if ret <? 0 then (p, ret)
  else if i <? 0 then (p, -1)
  else
    match p !! Z.to_nat i with
    | Some Queued => (<[Z.to_nat i := Dequeued]> p, ret)
    | _ => (p, -1)
    end.

Definition count_state (st : slot_state) (p : pool) : nat :=
  length (filter (λ x, x = st) p).

End Driver.

(** ** [main] *)

Module Main.
Import Geometry Driver.

(** The drag variables (globals of the file). *)
Record drag_state := mkDrag {
  dragging : Z;
  drag_start_x : Z;
  drag_start_y : Z;
  win_start_x : Z;
  win_start_y : Z
}.

(** What stays fixed once initialisation is over. *)
Record device := mkDevice {
  pix_width : Z;        (* fmt.fmt.pix.width, as the driver returned it *)
  pix_height : Z;
  src_rect : SDL_Rect;
  req_count : Z         (* req.count, as the driver returned it *)
}.

Record state := mkState {
  geo : geometry;
  drag : drag_state;
  running : Z;
  slots : pool;         (* ghost: the driver's side of the pool *)
  dev : device
}.

Definition set_geo (s : state) (g : geometry) : state :=
  mkState g (drag s) (running s) (slots s) (dev s).
Definition set_drag (s : state) (d : drag_state) : state :=
  mkState (geo s) d (running s) (slots s) (dev s).
Definition set_running (s : state) (r : Z) : state :=
  mkState (geo s) (drag s) r (slots s) (dev s).
Definition set_slots (s : state) (p : pool) : state :=
  mkState (geo s) (drag s) (running s) p (dev s).

Inductive keysym := SDLK_ESCAPE | SDLK_PLUS | SDLK_EQUALS | SDLK_MINUS | SDLK_other.
Inductive button := SDL_BUTTON_LEFT | SDL_BUTTON_other.

(** The events [SDL_PollEvent] delivers, as far as the [switch] tells them
    apart. *)
Inductive SDL_Event :=
| SDL_QUIT
| SDL_KEYDOWN (sym : keysym)
| SDL_MOUSEBUTTONDOWN (b : button)
| SDL_MOUSEBUTTONUP (b : button)
| SDL_MOUSEMOTION
| SDL_MOUSEWHEEL (y : Z)
| SDL_WINDOWEVENT_SIZE_CHANGED (data1 data2 : Z)
| SDL_WINDOWEVENT_other
| SDL_other_event.

(** The body of [switch (event.type)]. *)
Definition handle_event (s : state) (ea : SDL_Event * answers)
    : state * list effect :=
  let '(ev, a) := ea in
  match ev with
  | SDL_QUIT => (set_running s 0, [])
  | SDL_KEYDOWN SDLK_ESCAPE => (set_running s 0, [])
  | SDL_KEYDOWN SDLK_PLUS | SDL_KEYDOWN SDLK_EQUALS =>
      let '(g, t) := key_plus (geo s) a in (set_geo s g, t)
  | SDL_KEYDOWN SDLK_MINUS =>
      let '(g, t) := key_minus (geo s) a in (set_geo s g, t)
  | SDL_KEYDOWN SDLK_other => (s, [])
  | SDL_MOUSEBUTTONDOWN SDL_BUTTON_LEFT =>
      (set_drag s (mkDrag 1 (mouse_x a) (mouse_y a) (win_x a) (win_y a)), [])
  | SDL_MOUSEBUTTONDOWN SDL_BUTTON_other => (s, [])
  | SDL_MOUSEBUTTONUP SDL_BUTTON_LEFT =>
      let d := drag s in
      (set_drag s (mkDrag 0 (drag_start_x d) (drag_start_y d)
                     (win_start_x d) (win_start_y d)), [])
  | SDL_MOUSEBUTTONUP SDL_BUTTON_other => (s, [])
  | SDL_MOUSEMOTION =>
      let d := drag s in
      if negb (dragging d =? 0) then
        let new_x := int_add (win_start_x d) (int_sub (mouse_x a) (drag_start_x d)) in
        let new_y := int_add (win_start_y d) (int_sub (mouse_y a) (drag_start_y d)) in
        (s, [E_SDL_SetWindowPosition new_x new_y])
      else (s, [])
  | SDL_MOUSEWHEEL y =>
      let '(g, t) := mouse_wheel (geo s) y a in (set_geo s g, t)
  | SDL_WINDOWEVENT_SIZE_CHANGED d1 d2 =>
      (set_geo s (window_size_changed (geo s) d1 d2 a), [])
  | SDL_WINDOWEVENT_other => (s, [])
  | SDL_other_event => (s, [])
  end.

(** [while (SDL_PollEvent(&event)) { switch ... }] over the events that are
    pending in this iteration. *)
Fixpoint poll_events (s : state) (evs : list (SDL_Event * answers))
    : state * list effect :=
  match evs with
  | [] => (s, [])
  | ea :: rest =>
      let '(s1, t1) := handle_event s ea in
      let '(s2, t2) := poll_events s1 rest in
      (s2, t1 ++ t2)
  end.

(** The inputs of one iteration of the main loop. *)
Record iteration := mkIteration {
  events : list (SDL_Event * answers);
  check : check_answers;
  select_ret : Z;        (* return value of select *)
  dqbuf_ret : Z;         (* VIDIOC_DQBUF: return value and buf.index *)
  dqbuf_index : Z;
  qbuf_ret : Z           (* return value of the VIDIOC_QBUF that follows *)
}.

(** The rendering block. *)
Definition render (s : state) : list effect :=
  let dst_rect := mkRect 0 0 (current_window_size (geo s)) (current_window_size (geo s)) in
  [E_SDL_RenderClear; E_SDL_RenderCopy (src_rect (dev s)) dst_rect; E_SDL_RenderPresent].

(** From [// Wait for buffer using select] to the end of the loop body.
    Each [continue] ends the body; so does the failed requeue, which is
    the last statement. *)
Definition capture (s : state) (it : iteration) : state * list effect :=
  let r := select_ret it in
  let t0 := [E_observe_pool (slots s); E_select 2 0 r] in
  if r <? 0 then (s, t0 ++ [E_perror "select"])
  else if r =? 0 then (s, t0 ++ [E_fprintf_stderr "select timeout\n"])
  else
    let '(p1, r1) := dqbuf (slots s) (dqbuf_ret it) (dqbuf_index it) in
    let t1 := [E_ioctl_DQBUF r1 (dqbuf_index it); E_observe_pool p1] in
    if r1 <? 0 then (set_slots s p1, t0 ++ t1 ++ [E_perror "VIDIOC_DQBUF"])
    else
      let i := dqbuf_index it in
      let t2 := [E_SDL_UpdateTexture i (wrap_int (u32 (pix_width (dev s) * 2)))] in
      let '(p2, r2) := qbuf p1 i (qbuf_ret it) in
      let t3 := [E_ioctl_QBUF i r2 (p1 !! Z.to_nat i); E_observe_pool p2] in
      (set_slots s p2,
       t0 ++ t1 ++ t2 ++ t3 ++ (if r2 <? 0 then [E_perror "VIDIOC_QBUF"] else [])).

(** One pass through the body of [while (running)]. *)
Definition loop_body (s : state) (it : iteration) : state * list effect :=
  let '(s1, t1) := poll_events s (events it) in
  let '(g2, t2) := stabilized_resize (geo s1) (check it) in
  let s2 := set_geo s1 g2 in
  let t3 := render s2 in
  let '(s3, t4) := capture s2 it in
  (s3, t1 ++ t2 ++ t3 ++ t4).

(** The statements under [// Cleanup]. *)
Definition cleanup (s : state) : list effect :=
  [E_SDL_DestroyTexture; E_SDL_FreeSurface (shape_surface (geo s));
   E_SDL_DestroyRenderer; E_SDL_DestroyWindow; E_ioctl_STREAMOFF]
  ++ map E_munmap (seqZ 0 (req_count (dev s)))
  ++ [E_free; E_close; E_SDL_Quit].

(** [while (running) { ... }] followed by the cleanup, over the iterations
    the environment provides. [inl code]: [main] returned [code];
    [inr s]: the loop is still running in state [s] when the inputs end. *)
Fixpoint main_loop (s : state) (its : list iteration) : list effect * (Z + state) :=
  if running s =? 0 then (cleanup s, inl 0)
  else
    match its with
    | [] => ([], inr s)
    | it :: rest =>
        let '(s1, t1) := loop_body s it in
        let '(t2, r) := main_loop s1 rest in
        (t1 ++ t2, r)
    end.

(** *** Start-up: arguments, device, buffers, window *)

(** A step of [main] before the loop: the calls it made, and either the
    value [main] returned ([inl]) or the value the step produced. *)
Definition M (A : Type) : Type := (list effect * (Z + A))%type.

Definition ret {A : Type} (a : A) : M A := ([], inr a).

Definition bind {A B : Type} (m : M A) (k : A -> M B) : M B :=
  match m with
  | (t, inl code) => (t, inl code)
  | (t, inr a) => let '(t', r) := k a in (t ++ t', r)
  end.

Definition call (t : list effect) : M unit := (t, inr tt).

(** [return code;] after the calls [t]. *)
Definition return_ {A : Type} (t : list effect) (code : Z) : M A := (t, inl code).

Notation "'do' x <- m ; k" := (bind m (fun x => k))
  (at level 10, x pattern, m at level 100, k at level 200).
Notation "'run' m ; k" := (bind m (fun _ => k))
  (at level 10, m at level 100, k at level 200).

Definition usage : list effect :=
  [E_fprintf_stderr "Usage: %s [-t] [-s <size>] <video_device>\n"].

Record config := mkConfig {
  cfg_window_size : Z;
  cfg_video_device : option string;   (* None is the NULL pointer *)
  cfg_always_on_top : Z
}.

Section WithAtoi.

(** libc's [atoi]. *)
Variable atoi : string -> Z.

(** [while (i < argc) { ... }] over [argv[i..]]. *)
Fixpoint parse_args (args : list string) (c : config) : M config :=
  match args with
  | [] => ret c
  | a :: rest =>
      if String.eqb a "-t" then
        parse_args rest (mkConfig (cfg_window_size c) (cfg_video_device c) 1)
      else if String.eqb a "-s" then
        match rest with
        | [] => return_ [E_fprintf_stderr "Error: -s requires a size value\n"] 1
        | v :: rest' =>
            let window_size := atoi v in
            if window_size <? MIN_SIZE then
              return_ [E_fprintf_stderr "Error: Size must be at least %d pixels\n"] 1
            else
              parse_args rest'
                (mkConfig window_size (cfg_video_device c) (cfg_always_on_top c))
        end
      else
        parse_args rest (mkConfig (cfg_window_size c) (Some a) (cfg_always_on_top c))
  end.

(** The argument handling of [main], from the [argc] test to the test of
    [video_device]. [argv] includes the program name. *)
Definition parse_command_line (argv : list string) : M (config * string) :=
  let argc := Z.of_nat (length argv) in
  if (argc <? 2) || (5 <? argc) then
    return_ (usage ++ [E_fprintf_stderr "Example: %s -t -s 256 /dev/video0\n"]) 1
  else
    do c <- parse_args (tail argv) (mkConfig DEFAULT_SIZE None 0);
    match cfg_video_device c with
    | None =>
        return_ ([E_fprintf_stderr "Error: No video device specified\n"] ++ usage) 1
    | Some d => ret (c, d)
    end.

End WithAtoi.

(** What the system answers during start-up. *)
Record init_env := mkInitEnv {
  r_SDL_Init : Z;
  r_open : Z;
  r_QUERYCAP : Z;
  capabilities : Z;            (* cap.capabilities *)
  r_S_FMT : Z;
  fmt_width : Z;               (* the format the driver returns *)
  fmt_height : Z;
  r_REQBUFS : Z;
  granted : Z;                 (* req.count on return *)
  r_QUERYBUF : Z -> Z;
  mmap_ok : Z -> bool;         (* false: MAP_FAILED *)
  r_QBUF : Z -> Z;
  r_STREAMON : Z;
  window_ok : bool;
  renderer_ok : bool;
  shape_ok : bool;
  texture_ok : bool
}.

Definition V4L2_CAP_VIDEO_CAPTURE : Z := 1.
Definition SDL_WINDOW_RESIZABLE : Z := 32.
Definition SDL_WINDOW_ALWAYS_ON_TOP : Z := 32768.

(** [// Map buffers]: the loop over [i], from buffer [i] on. *)
Fixpoint map_buffers (env : init_env) (idx : list Z) (p : pool) : M pool :=
  match idx with
  | [] => ret p
  | i :: rest =>
      run call [E_ioctl_QUERYBUF i];
      if r_QUERYBUF env i <? 0 then
        return_ [E_perror "VIDIOC_QUERYBUF"; E_free; E_close; E_SDL_Quit] 1
      else
        run call [E_mmap i];
        if mmap_ok env i then map_buffers env rest (<[Z.to_nat i := Mapped]> p)
        else return_ [E_perror "mmap"; E_free; E_close; E_SDL_Quit] 1
  end.

(** [// Queue buffers]: the loop over [i], from buffer [i] on. *)
Fixpoint queue_buffers (env : init_env) (idx : list Z) (p : pool) : M pool :=
  match idx with
  | [] => ret p
  | i :: rest =>
      let '(p1, r) := qbuf p i (r_QBUF env i) in
      run call [E_ioctl_QBUF i r (p !! Z.to_nat i)];
      if r <? 0 then return_ [E_perror "VIDIOC_QBUF"; E_free; E_close; E_SDL_Quit] 1
      else queue_buffers env rest p1
  end.

(** [main] from [// Initialize SDL] to the crop rectangle: the device is
    open and its format set. Returns [fmt.fmt.pix.width],
    [fmt.fmt.pix.height] and [src_rect]. *)
Definition open_and_negotiate (video_device : string) (env : init_env)
    : M (Z * Z * SDL_Rect) :=
  run call [E_SDL_Init];
  if r_SDL_Init env <? 0 then return_ [E_fprintf_stderr "SDL_Init failed: %s\n"] 1 else
  run call [E_open video_device];
  if r_open env <? 0 then return_ [E_perror "Cannot open device"; E_SDL_Quit] 1 else
  run call [E_ioctl_QUERYCAP];
  if r_QUERYCAP env <? 0 then
    return_ [E_perror "VIDIOC_QUERYCAP"; E_close; E_SDL_Quit] 1 else
  if Z.land (capabilities env) V4L2_CAP_VIDEO_CAPTURE =? 0 then
    return_ [E_fprintf_stderr "Device does not support video capture\n";
             E_close; E_SDL_Quit] 1 else
  run call [E_ioctl_S_FMT];
  if r_S_FMT env <? 0 then return_ [E_perror "VIDIOC_S_FMT"; E_close; E_SDL_Quit] 1 else
  let width := u32 (fmt_width env) in
  let height := u32 (fmt_height env) in
  let crop_size := wrap_int (if width <? height then width else height) in
  let src := mkRect (wrap_int (u32 (width - u32 crop_size) / 2))
                    (wrap_int (u32 (height - u32 crop_size) / 2))
                    crop_size crop_size in
  ret (width, height, src).

(** [// Request buffers] and [// Map buffers]: four buffers are requested,
    and as many as [req.count] says on return are mapped. *)
Definition request_and_map_buffers (env : init_env) : M pool :=
  run call [E_ioctl_REQBUFS 4];
  if r_REQBUFS env <? 0 then
    return_ [E_perror "VIDIOC_REQBUFS"; E_close; E_SDL_Quit] 1 else
  let count := granted env in
  run call [E_calloc count];
  map_buffers env (seqZ 0 count) (replicate (Z.to_nat count) Unmapped).

(** [// Queue buffers] and [// Start streaming]. *)
Definition queue_and_stream (env : init_env) (p : pool) : M pool :=
  do p <- queue_buffers env (seqZ 0 (granted env)) p;
  run call [E_ioctl_STREAMON];
  if r_STREAMON env <? 0 then
    return_ [E_perror "VIDIOC_STREAMON"; E_free; E_close; E_SDL_Quit] 1
  else ret p.

(** The window, the renderer, the first mask and the texture. Returns the
    mask. [SDL_CreateTexture] takes [int]s: the [__u32] dimensions are
    converted. *)
Definition create_window (c : config) (env : init_env) (width height : Z)
    : M surface_ref :=
  let window_flags :=
    if negb (cfg_always_on_top c =? 0)
    then Z.lor SDL_WINDOW_RESIZABLE SDL_WINDOW_ALWAYS_ON_TOP
    else SDL_WINDOW_RESIZABLE in
  let window_size := cfg_window_size c in
  run call [E_SDL_CreateShapedWindow window_size window_size window_flags];
  if negb (window_ok env) then
    return_ [E_fprintf_stderr "SDL_CreateShapedWindow failed: %s\n";
             E_ioctl_STREAMOFF; E_free; E_close; E_SDL_Quit] 1 else
  run call [E_SDL_SetWindowResizable; E_SDL_CreateRenderer];
  if negb (renderer_ok env) then
    return_ [E_fprintf_stderr "SDL_CreateRenderer failed: %s\n"; E_SDL_DestroyWindow;
             E_ioctl_STREAMOFF; E_free; E_close; E_SDL_Quit] 1 else
  let '(shape, t) := call_create_circular_shape (shape_ok env) 0 window_size in
  run call t;
  match shape with
  | None =>
      return_ [E_SDL_DestroyRenderer; E_SDL_DestroyWindow;
               E_ioctl_STREAMOFF; E_free; E_close; E_SDL_Quit] 1
  | Some sh =>
      run call [E_SDL_SetWindowShape sh;
                E_SDL_CreateTexture (wrap_int width) (wrap_int height)];
      if negb (texture_ok env) then
        return_ [E_fprintf_stderr "SDL_CreateTexture failed: %s\n";
                 E_SDL_FreeSurface (Some sh); E_SDL_DestroyRenderer; E_SDL_DestroyWindow;
                 E_ioctl_STREAMOFF; E_free; E_close; E_SDL_Quit] 1
      else ret sh
  end.

(** [main] from [// Initialize SDL] to [// Track current window size]. *)
Definition initialise (c : config) (video_device : string) (env : init_env)
    : M state :=
  do fmt <- open_and_negotiate video_device env;
  let '(width, height, src) := fmt in
  do p <- request_and_map_buffers env;
  do p <- queue_and_stream env p;
  do sh <- create_window c env width height;
  let window_size := cfg_window_size c in
  let current_window_size := window_size in
  ret (mkState
         (mkGeometry window_size current_window_size (Some sh) 1 0 0 0)
         (mkDrag 0 0 0 0 0)
         1 p
         (mkDevice width height src (granted env))).

(** [main]: start-up, then the loop over the iterations the environment
    provides. *)
Definition main (atoi : string -> Z) (argv : list string) (env : init_env)
    (its : list iteration) : list effect * (Z + state) :=
  do cd <- parse_command_line atoi argv;
  do s <- initialise (fst cd) (snd cd) env;
  main_loop s its.

End Main.

(** ** Vocabulary of the properties *)

Module Props.
Import Geometry Driver Main.

(** The resize-relevant calls of a trace, by kind. *)
Inductive resize_op := ResizeWindow | Discard | Generate | Apply | Commit.

Global Instance resize_op_eq_dec : EqDecision resize_op.
Proof. solve_decision. Defined.

Definition classify (e : effect) : option resize_op :=
  match e with
  | E_SDL_SetWindowSize _ _ => Some ResizeWindow
  | E_SDL_FreeSurface _ => Some Discard
  | E_create_circular_shape _ _ => Some Generate
  | E_SDL_SetWindowShape _ => Some Apply
  | E_store_current_window_size _ => Some Commit
  | _ => None
  end.

Definition resize_ops (t : list effect) : list resize_op := omap classify t.

Fixpoint index_of (op : resize_op) (ops : list resize_op) : option nat :=
  match ops with
  | [] => None
  | o :: rest => if decide (o = op) then Some 0%nat else S <$> index_of op rest
  end.

(** [a] occurs, and its first occurrence comes before the first [b]. *)
Definition before (a b : resize_op) (ops : list resize_op) : bool :=
  match index_of a ops, index_of b ops with
  | Some i, Some j => (i <? j)%nat
  | _, _ => false
  end.

(** The order the specification asks of a resize: the new mask is
    generated, then applied, then the size is committed, and the old mask
    is discarded only after the new one was applied. *)
Definition spec_resize_order (ops : list resize_op) : bool :=
  before Generate Apply ops && before Apply Commit ops && before Apply Discard ops.

(** The sizes the window was resized to, in order. *)
Definition applied_resizes (t : list effect) : list Z :=
  omap (λ e, match e with E_SDL_SetWindowSize w _ => Some w | _ => None end) t.











(** Sample inputs: a 480 pixel window with its first mask, an event whose
    mask allocation succeeds, and a pending request for 300 pixels that
    the window manager honours. *)
Definition g480 : geometry := mkGeometry 480 480 (Some (mkRef 0 480)) 1 0 0 0.
Definition g480_pending : geometry := mkGeometry 480 480 (Some (mkRef 0 480)) 1 1 300 1000.
Definition a_ok : answers := mkAnswers true 0 0 0 0 0.
Definition c_honoured : check_answers := mkCheck 1100 300 300 true.
Definition c_refused : check_answers := mkCheck 1100 300 280 true.

(** A window at the minimum size, and a loop state around a geometry. *)
Definition g50 : geometry := mkGeometry 50 50 (Some (mkRef 0 50)) 1 0 0 0.
Definition g100 : geometry := mkGeometry 100 100 (Some (mkRef 0 100)) 1 0 0 0.

Definition state_of (g : geometry) : state :=
  mkState g (mkDrag 0 0 0 0 0) 1 [Queued; Queued; Queued; Queued]
    (mkDevice 640 480 (mkRect 80 0 480 480) 4).

(** The result [r] of a handler run from [g] resizes the window to the
    size it already has, discards the mask and generates and applies a new
    one for that same size, and leaves [current_window_size] as it was. *)
Definition reapplies (g : geometry) (ok : bool) (r : geometry * list effect) : Prop :=
  current_window_size (fst r) = current_window_size g
  /\ applied_resizes (snd r) = [current_window_size g]
  /\ resize_ops (snd r)
     = [ResizeWindow; Discard; Generate] ++ (if ok then [Apply] else []) ++ [Commit]
  /\ shape_surface (fst r)
     = if ok then Some (mkRef (surfaces_created g) (current_window_size g)) else None.

(** The body of the loop, iteration after iteration, without the test of
    [running]. *)
Fixpoint run_iterations (s : state) (its : list iteration) : state * list effect :=
  match its with
  | [] => (s, [])
  | it :: rest =>
      let '(s1, t1) := loop_body s it in
      let '(s2, t2) := run_iterations s1 rest in
      (s2, t1 ++ t2)
  end.

Definition is_resize_event (ea : SDL_Event * answers) : bool :=
  match fst ea with SDL_WINDOWEVENT_SIZE_CHANGED _ _ => true | _ => false end.

(** The two events that clear [running]. *)
Definition quit_request (ea : SDL_Event * answers) : bool :=
  match fst ea with
  | SDL_QUIT | SDL_KEYDOWN SDLK_ESCAPE => true
  | _ => false
  end.

(** The candidate size a window-manager resize event reports. *)
Definition event_candidate (ea : SDL_Event * answers) : option Z :=
  match fst ea with
  | SDL_WINDOWEVENT_SIZE_CHANGED d1 d2 => Some (Z.min d1 d2)
  | _ => None
  end.

(** The candidates reported during some iterations, in order. *)
Definition reported (its : list iteration) : list Z :=
  omap event_candidate (concat (events <$> its)).

(** The test a candidate has to pass to be recorded. *)
Definition passes (current c : Z) : bool :=
  (MIN_WINDOW_SIZE <=? c) && negb (c =? current).

Definition recorded (current : Z) (cs : list Z) : list Z :=
  List.filter (passes current) cs.

(** Ticks elapsed at a stabilisation check since the latest recorded
    request. *)
Definition elapsed (g : geometry) (c : check_answers) : Z :=
  u32_sub (check_ticks c) (last_resize_time g).

(** The pending request, if there is one. *)
Definition pending (g : geometry) : option Z :=
  if pending_resize g =? 0 then None else Some (pending_size g).

(** The iterations form a burst: no stabilisation check of theirs finds a
    request that has been pending for [RESIZE_STABILIZE_MS] ticks. As in
    the test of the source, the time stamp counts only while a request is
    pending. *)
Fixpoint in_burst (s : state) (its : list iteration) : Prop :=
  match its with
  | [] => True
  | it :: rest =>
      (pending (geo (fst (poll_events s (events it)))) = None
       \/ elapsed (geo (fst (poll_events s (events it)))) (check it)
          < RESIZE_STABILIZE_MS)
      /\ in_burst (fst (loop_body s it)) rest
  end.

(** Bursts on a 200 pixel window. In [out_and_back] the user drags the
    window out to 300 pixels and back to 200 within one iteration; in
    [grow_in_steps] the reports are 250, 300 and 30 over two iterations.
    [then_quiet] are three iterations without events, with stabilisation
    checks at ticks 100, 150 and 400. *)
Definition g200 : geometry := mkGeometry 200 200 (Some (mkRef 0 200)) 1 0 0 0.

Definition at_ticks (t : Z) : answers := mkAnswers true t 0 0 0 0.

Definition out_and_back : list iteration :=
  [mkIteration [(SDL_WINDOWEVENT_SIZE_CHANGED 300 300, at_ticks 0);
                (SDL_WINDOWEVENT_SIZE_CHANGED 200 200, at_ticks 10)]
               (mkCheck 20 200 200 true) 0 0 0 0].

Definition grow_in_steps : list iteration :=
  [mkIteration [(SDL_WINDOWEVENT_SIZE_CHANGED 250 260, at_ticks 0)]
               (mkCheck 20 250 260 true) 0 0 0 0;
   mkIteration [(SDL_WINDOWEVENT_SIZE_CHANGED 310 300, at_ticks 40);
                (SDL_WINDOWEVENT_SIZE_CHANGED 30 300, at_ticks 45)]
               (mkCheck 50 310 300 true) 0 0 0 0].

Definition then_quiet : list iteration :=
  [mkIteration [] (mkCheck 100 300 300 true) 0 0 0 0;
   mkIteration [] (mkCheck 150 300 300 true) 0 0 0 0;
   mkIteration [] (mkCheck 400 300 300 true) 0 0 0 0].

(** A report of the size the window already has and a report below the
    minimum, at ticks 5000 and 9000: neither is recorded. *)
Definition unrecorded_reports : list iteration :=
  [mkIteration [(SDL_WINDOWEVENT_SIZE_CHANGED 200 200, at_ticks 5000)]
               (mkCheck 5000 200 200 true) 0 0 0 0;
   mkIteration [(SDL_WINDOWEVENT_SIZE_CHANGED 300 40, at_ticks 9000)]
               (mkCheck 9000 300 40 true) 0 0 0 0].

(** A pool of [n] buffers in which every buffer is either queued or
    dequeued. *)
Definition balanced (n : nat) (p : pool) : Prop :=
  length p = n /\ (count_state Queued p + count_state Dequeued p = n)%nat.

(** What the buffer protocol asks of one entry of the trace, for a pool
    of [n] buffers: an observed pool is balanced, and no [VIDIOC_QBUF]
    names a buffer the driver already holds queued. *)
Definition pool_protocol (n : nat) (e : effect) : Prop :=
  match e with
  | E_observe_pool p => balanced n p
  | E_ioctl_QBUF _ _ held => held <> Some Queued
  | _ => True
  end.

(** Every value stored into [current_window_size] is at least the
    minimum. *)
Definition size_floor (e : effect) : Prop :=
  match e with
  | E_store_current_window_size v => MIN_WINDOW_SIZE <= v
  | _ => True
  end.

(** Both together. *)
Definition well_behaved (n : nat) (e : effect) : Prop :=
  pool_protocol n e /\ size_floor e.

(** The invariant of the main loop. *)
Definition geometry_ok (g : geometry) : Prop :=
  MIN_WINDOW_SIZE <= current_window_size g
  /\ (pending_resize g <> 0 -> MIN_WINDOW_SIZE <= pending_size g).

Definition pool_ok (n : nat) (p : pool) : Prop :=
  length p = n /\ Forall (λ x, x = Queued \/ x = Dequeued) p.

Definition loop_invariant (n : nat) (s : state) : Prop :=
  geometry_ok (geo s) /\ pool_ok n (slots s).

(** Sample runs of [main]: a driver that grants [n] buffers and lets
    everything succeed, a driver that grants four buffers and fails to map
    buffer [i], and two iterations of the loop: one frame is captured in
    buffer 1, then the user quits while [select] times out. *)
Definition env_grants (n : Z) : init_env :=
  mkInitEnv 0 3 0 1 0 640 480 0 n (λ _, 0) (λ _, true) (λ _, 0) 0 true true true true.

Definition env_mmap_fails_at (i : Z) : init_env :=
  mkInitEnv 0 3 0 1 0 640 480 0 4 (λ _, 0) (λ j, negb (j =? i)) (λ _, 0) 0
    true true true true.

Definition argv_256 : list string := ["circam"; "-s"; "256"; "/dev/video0"].

Definition atoi_256 (v : string) : Z := 256.

Definition idle_check : check_answers := mkCheck 0 0 0 true.

Definition one_frame_then_quit : list iteration :=
  [mkIteration [] idle_check 1 0 1 0;
   mkIteration [(SDL_QUIT, a_ok)] idle_check 0 0 0 0].

(** Buffer [i] is the first one whose query or mapping fails. *)
Definition first_failure (env : init_env) (i : Z) : Prop :=
  0 <= i < granted env
  /\ (forall j, 0 <= j < i -> 0 <= r_QUERYBUF env j /\ mmap_ok env j = true)
  /\ (r_QUERYBUF env i < 0 \/ mmap_ok env i = false).

(** The allocation calls of a trace. *)
Definition allocation_calls (t : list effect) : list effect :=
  List.filter (λ e, match e with
                    | E_ioctl_REQBUFS _ | E_calloc _ | E_mmap _ | E_munmap _
                    | E_free => true
                    | _ => false
                    end) t.

(** The pools observed along a trace, in order. *)
Definition observed_pools (t : list effect) : list pool :=
  omap (λ e, match e with E_observe_pool p => Some p | _ => None end) t.

(** An iteration in which [select] fails. *)
Definition select_fails : iteration := mkIteration [] idle_check (-1) 0 0 0.

(** The state in which an iteration reaches [// Wait for buffer using
    select], and what it has called until then: the event handlers, the
    stabilised resize and the rendering. *)
Definition before_capture (s : state) (it : iteration) : state :=
  set_geo (fst (poll_events s (events it)))
    (fst (stabilized_resize (geo (fst (poll_events s (events it)))) (check it))).

Definition before_capture_trace (s : state) (it : iteration) : list effect :=
  snd (poll_events s (events it))
  ++ snd (stabilized_resize (geo (fst (poll_events s (events it)))) (check it))
  ++ render (before_capture s it).

(** An iteration in which [select] times out, one in which the dequeue
    fails, and one in which buffer 1 is handed back and its requeue
    fails. *)
Definition select_times_out : iteration := mkIteration [] idle_check 0 0 0 0.
Definition dqbuf_fails : iteration := mkIteration [] idle_check 1 (-1) 0 0.
Definition qbuf_fails : iteration := mkIteration [] idle_check 1 0 1 (-1).

End Props.

(** ** Vocabulary of the further properties *)

Module More.
Import Geometry Driver Main Props.

(** *** Command lines *)

(** The three things a command line is made of: the flag [-t], the
    option [-s] with its value, and any other word, which names the
    device. *)
Inductive item := Top | Size (v : string) | Dev (d : string).

Definition is_option (a : string) : bool := String.eqb a "-t" || String.eqb a "-s".

(** The words of [argv] an item is written with. *)
Definition words (i : item) : list string :=
  match i with
  | Top => ["-t"]
  | Size v => ["-s"; v]
  | Dev d => [d]
  end.

Definition command_words (items : list item) : list string := flat_map words items.

(** A device name is a word that is not one of the two options. *)
Definition well_formed (i : item) : bool :=
  match i with
  | Dev d => negb (is_option d)
  | _ => true
  end.

Definition size_ok (atoi : string -> Z) (i : item) : bool :=
  match i with
  | Size v => MIN_SIZE <=? atoi v
  | _ => true
  end.

(** What one accepted item does to the configuration. *)
Definition apply_item (atoi : string -> Z) (c : config) (i : item) : config :=
  match i with
  | Top => mkConfig (cfg_window_size c) (cfg_video_device c) 1
  | Size v => mkConfig (atoi v) (cfg_video_device c) (cfg_always_on_top c)
  | Dev d => mkConfig (cfg_window_size c) (Some d) (cfg_always_on_top c)
  end.

Definition is_dev (i : item) : bool :=
  match i with Dev _ => true | _ => false end.

Definition is_stderr (e : effect) : bool :=
  match e with E_fprintf_stderr _ => true | _ => false end.

Definition default_config : config := mkConfig DEFAULT_SIZE None 0.

(** libc's [atoi] for the sample command lines: white space is skipped,
    then an optional sign and the decimal digits are read. Where the
    value does not fit an [int], [atoi] has no defined result; the
    samples stay far from there. *)
Definition digit_value (a : Ascii.ascii) : option Z :=
  let n := Z.of_nat (Ascii.nat_of_ascii a) in
  if (48 <=? n) && (n <=? 57) then Some (n - 48) else None.

Definition is_space (a : Ascii.ascii) : bool :=
  let n := Z.of_nat (Ascii.nat_of_ascii a) in
  (n =? 32) || ((9 <=? n) && (n <=? 13)).

Fixpoint skip_spaces (v : string) : string :=
  match v with
  | EmptyString => v
  | String a rest => if is_space a then skip_spaces rest else v
  end.

Fixpoint atoi_digits (acc : Z) (v : string) : Z :=
  match v with
  | EmptyString => acc
  | String a rest =>
      match digit_value a with
      | Some d => atoi_digits (acc * 10 + d) rest
      | None => acc
      end
  end.

Definition atoi_decimal (v : string) : Z :=
  match skip_spaces v with
  | EmptyString => 0
  | String a rest =>
      let n := Z.of_nat (Ascii.nat_of_ascii a) in
      if n =? 45 then - atoi_digits 0 rest          (* '-' *)
      else if n =? 43 then atoi_digits 0 rest       (* '+' *)
      else atoi_digits 0 (String a rest)
  end.

(** The values of the [-s] options and the device names of a command
    line, in order, and whether [-t] occurs. *)
Definition sizes (items : list item) : list string :=
  omap (λ i, match i with Size v => Some v | _ => None end) items.

Definition devices (items : list item) : list string :=
  omap (λ i, match i with Dev d => Some d | _ => None end) items.

Definition has_top (items : list item) : bool :=
  existsb (λ i, match i with Top => true | _ => false end) items.

(** The configuration an accepted command line stands for: the last size
    and the last device win. *)
Definition configured (atoi : string -> Z) (items : list item) (c : config) : config :=
  mkConfig
    (match last (sizes items) with Some v => atoi v | None => cfg_window_size c end)
    (match last (devices items) with Some d => Some d | None => cfg_video_device c end)
    (if has_top items then 1 else cfg_always_on_top c).

(** *** Events *)

(** The three events of a drag. *)
Definition is_mouse_event (ea : SDL_Event * answers) : bool :=
  match fst ea with
  | SDL_MOUSEBUTTONDOWN _ | SDL_MOUSEBUTTONUP _ | SDL_MOUSEMOTION => true
  | _ => false
  end.

Definition is_set_position (e : effect) : bool :=
  match e with E_SDL_SetWindowPosition _ _ => true | _ => false end.

(** A pointer grabbing the window at [(300, 200)] while the window is at
    [(100, 50)], and the pointer later at [(340, 190)]. *)
Definition grab : answers := mkAnswers true 0 300 200 100 50.
Definition pointer_moved : answers := mkAnswers true 0 340 190 0 0.

(** A request recorded 50 ticks before [SDL_GetTicks] wraps around, and a
    check 60 ticks after the wrap. *)
Definition g_before_wrap : geometry :=
  mkGeometry 480 480 (Some (mkRef 0 480)) 1 1 300 (2 ^ 32 - 50).
Definition c_after_wrap : check_answers := mkCheck 60 300 300 true.

(** *** Resources *)

(** What [main] acquires, in the order in which it acquires it. *)
Inductive resource :=
| R_sdl | R_device | R_table | R_stream | R_window | R_renderer | R_texture.

Definition resources : list resource :=
  [R_sdl; R_device; R_table; R_stream; R_window; R_renderer; R_texture].

(** The calls that try to acquire a resource ([true]) and the calls that
    release one ([false]). *)
Definition resource_call (e : effect) : option (bool * resource) :=
  match e with
  | E_SDL_Init => Some (true, R_sdl)
  | E_SDL_Quit => Some (false, R_sdl)
  | E_open _ => Some (true, R_device)
  | E_close => Some (false, R_device)
  | E_calloc _ => Some (true, R_table)
  | E_free => Some (false, R_table)
  | E_ioctl_STREAMON => Some (true, R_stream)
  | E_ioctl_STREAMOFF => Some (false, R_stream)
  | E_SDL_CreateShapedWindow _ _ _ => Some (true, R_window)
  | E_SDL_DestroyWindow => Some (false, R_window)
  | E_SDL_CreateRenderer => Some (true, R_renderer)
  | E_SDL_DestroyRenderer => Some (false, R_renderer)
  | E_SDL_CreateTexture _ _ => Some (true, R_texture)
  | E_SDL_DestroyTexture => Some (false, R_texture)
  | _ => None
  end.

Definition resource_log (t : list effect) : list (bool * resource) :=
  omap resource_call t.

(** The log of a run that held the first [k] resources when it returned:
    they were acquired in order, then perhaps one more acquisition was
    tried and failed, then they were released in the reverse order. *)
Definition unwinding (k : nat) (failed : list resource) : list (bool * resource) :=
  (pair true <$> take k resources) ++ (pair true <$> failed)
  ++ (pair false <$> reverse (take k resources)).

(** The calls the body of the loop can make. *)
Definition loop_effect (e : effect) : bool :=
  match e with
  | E_perror _ | E_fprintf_stderr _ | E_printf _ _
  | E_select _ _ _ | E_ioctl_DQBUF _ _ | E_ioctl_QBUF _ _ _
  | E_SDL_UpdateTexture _ _
  | E_SDL_SetWindowSize _ _ | E_SDL_GetWindowSize _ _
  | E_SDL_FreeSurface _ | E_create_circular_shape _ _ | E_SDL_SetWindowShape _
  | E_SDL_SetWindowPosition _ _
  | E_SDL_RenderClear | E_SDL_RenderCopy _ _ | E_SDL_RenderPresent
  | E_store_current_window_size _ | E_observe_pool _ => true
  | _ => false
  end.

(** The state in which [main] enters its loop. *)
Definition initial_state (c : config) (fmt : Z * Z * SDL_Rect) (p : pool)
    (sh : surface_ref) (env : init_env) : state :=
  mkState
    (mkGeometry (cfg_window_size c) (cfg_window_size c) (Some sh) 1 0 0 0)
    (mkDrag 0 0 0 0 0)
    1 p
    (mkDevice (fst (fst fmt)) (snd (fst fmt)) (snd fmt) (granted env)).

(** The surfaces [create_circular_shape] returned and the surfaces handed
    to [SDL_FreeSurface], in order. *)
Definition created_surfaces (t : list effect) : list surface_ref :=
  omap (λ e, match e with E_create_circular_shape _ r => r | _ => None end) t.

Definition freed_surfaces (t : list effect) : list surface_ref :=
  omap (λ e, match e with E_SDL_FreeSurface r => r | _ => None end) t.

(** The buffers mapped and unmapped, in order. *)
Definition mapped_buffers (t : list effect) : list Z :=
  omap (λ e, match e with E_mmap i => Some i | _ => None end) t.

Definition unmapped_buffers (t : list effect) : list Z :=
  omap (λ e, match e with E_munmap i => Some i | _ => None end) t.

(** The calls of the two allocation loops. *)
Definition is_mapping_call (e : effect) : bool :=
  match e with E_ioctl_QUERYBUF _ | E_mmap _ => true | _ => false end.

Definition is_queueing_call (e : effect) : bool :=
  match e with E_ioctl_QBUF _ _ _ => true | _ => false end.

(** An iteration in which Escape is pressed before a [+] key. *)
Definition escape_then_plus : iteration :=
  mkIteration [(SDL_KEYDOWN SDLK_ESCAPE, a_ok); (SDL_KEYDOWN SDLK_PLUS, a_ok)]
    idle_check 0 0 0 0.

(** *** Masks *)

(** The mask [shape_surface] points to, if any. *)
Definition live_mask (g : geometry) : list surface_ref :=
  match shape_surface g with Some r => [r] | None => [] end.

(** The calls [t] lead from [g] to [g']: what was freed, followed by the
    mask that is left, is the mask there was, followed by what was
    created; and the masks created are numbered on from those of [g]. *)
Definition mask_step (g : geometry) (t : list effect) (g' : geometry) : Prop :=
  freed_surfaces t ++ live_mask g' = live_mask g ++ created_surfaces t
  /\ sid <$> created_surfaces t
     = seq (surfaces_created g) (length (created_surfaces t))
  /\ surfaces_created g' = (surfaces_created g + length (created_surfaces t))%nat.

(** Before the first mask is made. *)
Definition no_mask : geometry := mkGeometry 0 0 None 0 0 0 0.

(** The releases that end every return after streaming has started. *)
Definition release_stream : list (bool * resource) :=
  [(false, R_stream); (false, R_table); (false, R_device); (false, R_sdl)].

(** A driver on which [VIDIOC_STREAMON] fails after four buffers were
    mapped and queued, and one on which the texture cannot be created. *)
Definition env_streamon_fails : init_env :=
  mkInitEnv 0 3 0 1 0 640 480 0 4 (λ _, 0) (λ _, true) (λ _, 0) (-1)
    true true true true.

Definition env_texture_fails : init_env :=
  mkInitEnv 0 3 0 1 0 640 480 0 4 (λ _, 0) (λ _, true) (λ _, 0) 0
    true true true false.

(** Three resizes by key, the second of which gets no mask, then Escape. *)
Definition resize_thrice_then_quit : list iteration :=
  [mkIteration [(SDL_KEYDOWN SDLK_PLUS, a_ok);
                (SDL_KEYDOWN SDLK_PLUS, mkAnswers false 0 0 0 0 0)]
     idle_check 0 0 0 0;
   mkIteration [(SDL_KEYDOWN SDLK_MINUS, a_ok); (SDL_KEYDOWN SDLK_ESCAPE, a_ok)]
     idle_check 1 0 2 0].

(** *** Frames *)

(** The calls that draw, and the call that loads a frame into the
    texture. *)
Definition display_call (e : effect) : bool :=
  match e with
  | E_SDL_RenderClear | E_SDL_RenderCopy _ _ | E_SDL_RenderPresent
  | E_SDL_UpdateTexture _ _ => true
  | _ => false
  end.

(** [select] reports a readable descriptor and the driver hands back a
    buffer. *)
Definition frame_delivered (s : state) (it : iteration) : bool :=
  (0 <? select_ret it)
  && (0 <=? snd (dqbuf (slots s) (dqbuf_ret it) (dqbuf_index it))).

(** The events that resize at once, and what they are told about the new
    mask. *)
Definition resizes_at_once (ea : SDL_Event * answers) : bool :=
  match fst ea with
  | SDL_KEYDOWN SDLK_PLUS | SDL_KEYDOWN SDLK_EQUALS | SDL_KEYDOWN SDLK_MINUS
  | SDL_MOUSEWHEEL _ => true
  | _ => false
  end.

Definition is_set_shape (e : effect) : bool :=
  match e with E_SDL_SetWindowShape _ => true | _ => false end.

(** A pool in which buffer 2 was lost to a failed requeue, and an
    iteration in which the driver is asked for buffer 2 again. *)
Definition state_without_2 : state :=
  mkState g480 (mkDrag 0 0 0 0 0) 1 [Queued; Queued; Dequeued; Queued]
    (mkDevice 640 480 (mkRect 80 0 480 480) 4).

Definition frame_in (i : Z) : iteration := mkIteration [] idle_check 1 0 i 0.

(** *** Start-up *)

(** Every call of the start-up succeeds: the device is a capture device,
    each of the granted buffers can be queried, mapped and queued, and
    the window, the renderer, the mask and the texture can be made. *)
Definition all_calls_succeed (env : init_env) : Prop :=
  0 <= r_SDL_Init env /\ 0 <= r_open env /\ 0 <= r_QUERYCAP env
  /\ Z.land (capabilities env) V4L2_CAP_VIDEO_CAPTURE <> 0
  /\ 0 <= r_S_FMT env /\ 0 <= r_REQBUFS env
  /\ (forall j, 0 <= j < granted env ->
        0 <= r_QUERYBUF env j /\ mmap_ok env j = true /\ 0 <= r_QBUF env j)
  /\ 0 <= r_STREAMON env
  /\ window_ok env = true /\ renderer_ok env = true
  /\ shape_ok env = true /\ texture_ok env = true.

(** A [+] key for which no mask can be generated. *)
Definition plus_without_mask : SDL_Event * answers :=
  (SDL_KEYDOWN SDLK_PLUS, mkAnswers false 0 0 0 0 0).

Definition env_shape_fails : init_env :=
  mkInitEnv 0 3 0 1 0 640 480 0 4 (λ _, 0) (λ _, true) (λ _, 0) 0
    true true false true.

(** *** The mask, pixel by pixel *)

(** Whether pixel [(x, y)] of the mask of [size] is opaque. *)
Definition opaque_at (size x y : Z) : bool :=
  match Shape.create_circular_shape true size with
  | Some s =>
      match Shape.surf_pixels s !! Z.to_nat (y * size + x) with
      | Some px => Shape.alpha px =? 255
      | None => false
      end
  | None => false
  end.

(** The request part of a geometry: the three globals of the debounce. *)
Definition request (g : geometry) : Z * Z * Z :=
  (pending_resize g, pending_size g, last_resize_time g).

(** A [+] key and a wheel step down. *)
Definition plus_then_wheel_down : list (SDL_Event * answers) :=
  [(SDL_KEYDOWN SDLK_PLUS, a_ok); (SDL_MOUSEWHEEL (-1), a_ok)].

End More.

(** * Properties *)

(** ** C integers *)

Lemma wrap_int_id z : in_int z -> wrap_int z = z.
Proof.
  unfold in_int, INT_MIN, INT_MAX, wrap_int. intros H.
  rewrite Z.mod_small; lia.
Qed.

Lemma wrap_int_range z : in_int (wrap_int z).
Proof.
  unfold in_int, INT_MIN, INT_MAX, wrap_int.
  pose proof (Z.mod_pos_bound (z + 2 ^ 31) (2 ^ 32)). lia.
Qed.

(** ** The shape mask *)

Section Paint.
Import Shape.

(** A loop whose body writes the one value [v] at the places it hits:
    afterwards a place holds [v] if some round hit it, and its old content
    otherwise. *)
Lemma fold_left_paint {B : Type} (body : list Z -> B -> list Z)
    (hit : B -> nat -> bool) (v : Z) :
  (forall px b k,
      body px b !! k = (λ old, if hit b k then v else old) <$> px !! k) ->
  forall bs px k,
    fold_left body bs px !! k
    = (λ old, if existsb (λ b, hit b k) bs then v else old) <$> px !! k.
Proof.
  intros Hbody bs. induction bs as [|b bs IH]; intros px k; simpl.
  - by destruct (px !! k).
  - rewrite IH, Hbody. destruct (px !! k) as [old|]; simpl; [|done].
    destruct (hit b k); simpl; [|done].
    by destruct (existsb _ bs).
Qed.

Lemma shape_pixel_lookup size center radius white y px x k :
  shape_pixel size center radius white y
    (int_mul (int_sub y center) (int_sub y center)) px x !! k
  = (λ old, if pixel_hit size center radius y x k then white else old) <$> px !! k.
Proof.
  unfold shape_pixel, pixel_hit.
  destruct (_ <=? radius); simpl; [|by destruct (px !! k)].
  case_bool_decide as Hk.
  - subst k. destruct (px !! _) as [old|] eqn:E; simpl.
    + apply list_lookup_insert_eq. by eapply lookup_lt_Some.
    + apply lookup_ge_None. rewrite length_insert. by apply lookup_ge_None.
  - rewrite list_lookup_insert_ne by done. by destruct (px !! k).
Qed.

Lemma shape_row_lookup size center radius white px y k :
  shape_row size center radius white px y !! k
  = (λ old, if row_hits size center radius y k then white else old) <$> px !! k.
Proof.
  unfold shape_row, row_hits.
  apply (fold_left_paint _ (pixel_hit size center radius y)).
  intros. apply shape_pixel_lookup.
Qed.

Lemma shape_rows_lookup size center radius white px k :
  fold_left (shape_row size center radius white) (seqZ 0 size) px !! k
  = (λ old, if existsb (λ y, row_hits size center radius y k) (seqZ 0 size)
            then white else old) <$> px !! k.
Proof.
  apply (fold_left_paint _ (row_hits size center radius)).
  intros. apply shape_row_lookup.
Qed.

Lemma fold_left_paint_length {B : Type} (body : list Z -> B -> list Z) :
  (forall px b, length (body px b) = length px) ->
  forall bs px, length (fold_left body bs px) = length px.
Proof.
  intros Hbody bs. induction bs as [|b bs IH]; intros px; simpl; [done|].
  by rewrite IH, Hbody.
Qed.

Lemma shape_rows_length size center radius white px :
  length (fold_left (shape_row size center radius white) (seqZ 0 size) px)
  = length px.
Proof.
  apply fold_left_paint_length. intros px' y. unfold shape_row.
  apply fold_left_paint_length. intros px'' x. unfold shape_pixel.
  destruct (_ <=? _); [apply length_insert|done].
Qed.

(** For sizes up to 46340 no [int] operation of the two loops overflows. *)
Lemma disc_test_exact size x y :
  1 <= size <= 46340 -> 0 <= x < size -> 0 <= y < size ->
  let center := int_div size 2 in
  center = size / 2
  /\ int_mul center center = (size / 2) ^ 2
  /\ int_add (int_mul (int_sub x center) (int_sub x center))
             (int_mul (int_sub y center) (int_sub y center))
     = (x - size / 2) ^ 2 + (y - size / 2) ^ 2
  /\ int_add (int_mul y size) x = y * size + x.
Proof.
  intros Hs Hx Hy center.
  assert (Hc : center = size / 2).
  { unfold center, int_div. rewrite Z.quot_div_nonneg by lia.
    apply wrap_int_id. unfold in_int, INT_MIN, INT_MAX.
    pose proof (Z.div_pos size 2). pose proof (Z.div_le_upper_bound size 2 size).
    lia. }
  rewrite Hc.
  assert (H0 : 0 <= size / 2 <= 23170).
  { split; [apply Z.div_pos; lia|]. apply Z.div_le_upper_bound; lia. }
  assert (H1 : size / 2 <= size) by (apply Z.div_le_upper_bound; lia).
  assert (Hdx : -23170 <= x - size / 2 <= 23170).
  { pose proof (Z.div_mod size 2 ltac:(lia)).
    pose proof (Z.mod_pos_bound size 2 ltac:(lia)). lia. }
  assert (Hdy : -23170 <= y - size / 2 <= 23170).
  { pose proof (Z.div_mod size 2 ltac:(lia)).
    pose proof (Z.mod_pos_bound size 2 ltac:(lia)). lia. }
  unfold int_add, int_mul, int_sub.
  rewrite (wrap_int_id (x - size / 2)) by (unfold in_int, INT_MIN, INT_MAX; lia).
  rewrite (wrap_int_id (y - size / 2)) by (unfold in_int, INT_MIN, INT_MAX; lia).
  rewrite (wrap_int_id (size / 2 * (size / 2)))
    by (unfold in_int, INT_MIN, INT_MAX; nia).
  rewrite (wrap_int_id ((x - size / 2) * (x - size / 2)))
    by (unfold in_int, INT_MIN, INT_MAX; nia).
  rewrite (wrap_int_id ((y - size / 2) * (y - size / 2)))
    by (unfold in_int, INT_MIN, INT_MAX; nia).
  rewrite (wrap_int_id (y * size)) by (unfold in_int, INT_MIN, INT_MAX; nia).
  rewrite (wrap_int_id (y * size + x)) by (unfold in_int, INT_MIN, INT_MAX; nia).
  rewrite wrap_int_id by (unfold in_int, INT_MIN, INT_MAX; nia).
  repeat split; try done; ring.
Qed.

(** Within that range, pixel [y * size + x] is hit exactly when the disc
    test holds at [(x, y)]. *)
Lemma rows_hit_disc size x y :
  1 <= size <= 46340 -> 0 <= x < size -> 0 <= y < size ->
  existsb (λ y', row_hits size (int_div size 2)
                   (int_mul (int_div size 2) (int_div size 2)) y'
                   (Z.to_nat (y * size + x))) (seqZ 0 size)
  = ((x - size / 2) ^ 2 + (y - size / 2) ^ 2 <=? (size / 2) ^ 2).
Proof.
  intros Hs Hx Hy. apply eq_true_iff_eq.
  rewrite existsb_exists. unfold row_hits, pixel_hit. split.
  - intros (y' & Hy' & Hex). apply existsb_exists in Hex.
    destruct Hex as (x' & Hx' & Hc).
    apply list_elem_of_In, elem_of_seqZ in Hy'.
    apply list_elem_of_In, elem_of_seqZ in Hx'.
    apply andb_true_iff in Hc. destruct Hc as [Hc Hk].
    apply bool_decide_eq_true in Hk.
    destruct (disc_test_exact size x' y' Hs ltac:(lia) ltac:(lia))
      as (_ & Hr & Hd & Hi).
    rewrite Hr, Hd in Hc. rewrite Hi in Hk.
    assert (y' * size + x' = y * size + x) by nia.
    assert (y' = y) by nia. subst y'. assert (x' = x) by lia. by subst x'.
  - intros Hc. exists y. split.
    { apply list_elem_of_In, elem_of_seqZ. lia. }
    apply existsb_exists. exists x. split.
    { apply list_elem_of_In, elem_of_seqZ. lia. }
    destruct (disc_test_exact size x y Hs Hx Hy) as (_ & Hr & Hd & Hi).
    rewrite Hr, Hd, Hi, Hc. simpl. by apply bool_decide_eq_true.
Qed.

End Paint.

(** C9. For every size from 1 up to 46340 (the sizes for which the [int]
    arithmetic of the function is exact), when the surface can be
    allocated, [create_circular_shape size] returns a [size] by [size]
    surface whose pixel [(x, y)] is fully opaque (alpha 255) exactly when
    [(x - size/2)^2 + (y - size/2)^2 <= (size/2)^2] and fully transparent
    (alpha 0) otherwise. *)
Theorem create_circular_shape_disc (size : Z) :
  1 <= size <= 46340 ->
  exists s,
    Shape.create_circular_shape true size = Some s
    /\ Shape.surf_w s = size /\ Shape.surf_h s = size
    /\ length (Shape.surf_pixels s) = Z.to_nat (size * size)
    /\ forall x y, 0 <= x < size -> 0 <= y < size ->
         exists px,
           Shape.surf_pixels s !! Z.to_nat (y * size + x) = Some px
           /\ Shape.alpha px
              = if (x - size / 2) ^ 2 + (y - size / 2) ^ 2 <=? (size / 2) ^ 2
                then 255 else 0.
Proof.
  intros Hs. unfold Shape.create_circular_shape. eexists. split; [reflexivity|].
  simpl. split; [done|]. split; [done|]. split.
  { by rewrite shape_rows_length, length_replicate. }
  intros x y Hx Hy.
  rewrite shape_rows_lookup, rows_hit_disc by done.
  rewrite lookup_replicate_2 by nia. simpl.
  eexists. split; [reflexivity|].
  by destruct (_ <=? _).
Qed.

(** The theorem at size 5 and at the largest size it covers. *)
Lemma create_circular_shape_disc_witness :
  (1 <= 5 <= 46340)
  /\ exists s,
    Shape.create_circular_shape true 5 = Some s
    /\ Shape.surf_w s = 5 /\ Shape.surf_h s = 5
    /\ length (Shape.surf_pixels s) = Z.to_nat (5 * 5)
    /\ forall x y, 0 <= x < 5 -> 0 <= y < 5 ->
         exists px,
           Shape.surf_pixels s !! Z.to_nat (y * 5 + x) = Some px
           /\ Shape.alpha px
              = if (x - 5 / 2) ^ 2 + (y - 5 / 2) ^ 2 <=? (5 / 2) ^ 2
                then 255 else 0.
Proof.
  split; [lia|]. apply (create_circular_shape_disc 5). lia.
Defined.

(** ** Resizing *)

Section Resizing.
Import Geometry Main Props.

Lemma clamp_window_size_value g :
  window_size (clamp_window_size g) = Z.max MIN_WINDOW_SIZE (window_size g).
Proof.
  unfold clamp_window_size, MIN_WINDOW_SIZE.
  destruct (Z.ltb_spec (window_size g) 50); simpl; lia.
Qed.

Lemma clamp_window_size_rest g :
  current_window_size (clamp_window_size g) = current_window_size g
  /\ shape_surface (clamp_window_size g) = shape_surface g
  /\ surfaces_created (clamp_window_size g) = surfaces_created g
  /\ pending_resize (clamp_window_size g) = pending_resize g
  /\ pending_size (clamp_window_size g) = pending_size g
  /\ last_resize_time (clamp_window_size g) = last_resize_time g.
Proof. unfold clamp_window_size. by destruct (_ <? _). Qed.

(** What [resize_now] does, call by call. *)
Lemma resize_now_spec g ok :
  resize_now g ok
  = (mkGeometry (window_size g) (window_size g)
       (if ok then Some (mkRef (surfaces_created g) (window_size g)) else None)
       (if ok then S (surfaces_created g) else surfaces_created g)
       (pending_resize g) (pending_size g) (last_resize_time g),
     [E_SDL_SetWindowSize (window_size g) (window_size g);
      E_SDL_FreeSurface (shape_surface g)]
     ++ snd (call_create_circular_shape ok (surfaces_created g) (window_size g))
     ++ (if ok then [E_SDL_SetWindowShape (mkRef (surfaces_created g) (window_size g))]
         else [])
     ++ [E_store_current_window_size (window_size g)]).
Proof. unfold resize_now, replace_shape, call_create_circular_shape. by destruct ok. Qed.

(** The pointer [main] gets is [NULL] exactly when [create_circular_shape]
    returns [NULL]. *)
Lemma call_create_circular_shape_null ok n size :
  fst (call_create_circular_shape ok n size) = None
  <-> Shape.create_circular_shape ok size = None.
Proof. unfold call_create_circular_shape, Shape.create_circular_shape. by destruct ok. Qed.

Lemma resize_now_ops g :
  resize_ops (snd (resize_now g true))
  = [ResizeWindow; Discard; Generate; Apply; Commit].
Proof. by rewrite resize_now_spec. Qed.

(** C3, as the code has it. When the mask can be generated, the keyboard
    and wheel branches resize the window, discard the old mask, generate
    the new one, apply it and then commit [current_window_size]; the
    stabilised window-manager resize commits [current_window_size] first
    and then discards the old mask, generates the new one and applies it.
    In every path the new mask is generated before it is applied, and the
    old mask is discarded before the new one is generated. *)
Theorem resize_order_of_the_code (g : geometry) (a : answers) (y : Z)
    (c : check_answers) :
  surface_ok a = true ->
  check_surface_ok c = true ->
  resize_ops (snd (key_plus g a)) = [ResizeWindow; Discard; Generate; Apply; Commit]
  /\ resize_ops (snd (key_minus g a)) = [ResizeWindow; Discard; Generate; Apply; Commit]
  /\ resize_ops (snd (mouse_wheel g y a)) = [ResizeWindow; Discard; Generate; Apply; Commit]
  /\ (pending_resize g <> 0 ->
      RESIZE_STABILIZE_MS <= u32_sub (check_ticks c) (last_resize_time g) ->
      actual_w c = actual_h c ->
      actual_w c = pending_size g ->
      snd (stabilized_resize g c)
      = [E_SDL_SetWindowSize (pending_size g) (pending_size g);
         E_SDL_GetWindowSize (actual_w c) (actual_h c);
         E_store_current_window_size (pending_size g);
         E_SDL_FreeSurface (shape_surface g);
         E_create_circular_shape (pending_size g)
           (Some (mkRef (surfaces_created g) (pending_size g)));
         E_SDL_SetWindowShape (mkRef (surfaces_created g) (pending_size g))]
      /\ resize_ops (snd (stabilized_resize g c))
         = [ResizeWindow; Commit; Discard; Generate; Apply]).
Proof.
  intros Ha Hc.
  unfold key_plus, key_minus, mouse_wheel. rewrite Ha.
  split; [apply resize_now_ops|]. split; [apply resize_now_ops|].
  split; [apply resize_now_ops|].
  intros Hp Ht Hsq Hw.
  assert (Htrace : snd (stabilized_resize g c)
      = [E_SDL_SetWindowSize (pending_size g) (pending_size g);
         E_SDL_GetWindowSize (actual_w c) (actual_h c);
         E_store_current_window_size (pending_size g);
         E_SDL_FreeSurface (shape_surface g);
         E_create_circular_shape (pending_size g)
           (Some (mkRef (surfaces_created g) (pending_size g)));
         E_SDL_SetWindowShape (mkRef (surfaces_created g) (pending_size g))]).
  { unfold stabilized_resize.
    destruct (Z.eqb_spec (pending_resize g) 0) as [|_]; [done|].
    destruct (Z.leb_spec RESIZE_STABILIZE_MS
                (u32_sub (check_ticks c) (last_resize_time g))); [|lia].
    simpl. rewrite <- Hsq, Hw, !Z.eqb_refl, Hc. reflexivity. }
  split; [exact Htrace|]. by rewrite Htrace.
Qed.

Lemma resize_order_of_the_code_witness :
  resize_ops (snd (key_plus g480_pending a_ok))
    = [ResizeWindow; Discard; Generate; Apply; Commit]
  /\ resize_ops (snd (stabilized_resize g480_pending c_honoured))
    = [ResizeWindow; Commit; Discard; Generate; Apply].
Proof.
  destruct (resize_order_of_the_code g480_pending a_ok 1 c_honoured)
    as (H1 & _ & _ & H4); [reflexivity | reflexivity |].
  split; [exact H1|].
  apply H4; [discriminate | vm_compute; discriminate | reflexivity | reflexivity].
Defined.

(** C3 as stated fails: on a [+] key the old mask is freed before the new
    one is applied (indeed before it is generated), and on a stabilised
    window-manager resize [current_window_size] is committed before the
    new mask is generated. *)
Lemma spec_resize_order_violated :
  snd (key_plus g480 a_ok)
  = [E_SDL_SetWindowSize 490 490;
     E_SDL_FreeSurface (Some (mkRef 0 480));
     E_create_circular_shape 490 (Some (mkRef 1 490));
     E_SDL_SetWindowShape (mkRef 1 490);
     E_store_current_window_size 490]
  /\ spec_resize_order (resize_ops (snd (key_plus g480 a_ok))) = false
  /\ snd (stabilized_resize g480_pending c_honoured)
  = [E_SDL_SetWindowSize 300 300;
     E_SDL_GetWindowSize 300 300;
     E_store_current_window_size 300;
     E_SDL_FreeSurface (Some (mkRef 0 480));
     E_create_circular_shape 300 (Some (mkRef 1 300));
     E_SDL_SetWindowShape (mkRef 1 300)]
  /\ spec_resize_order (resize_ops (snd (stabilized_resize g480_pending c_honoured)))
     = false.
Proof. repeat split; vm_compute; reflexivity. Qed.

(** C6. When a pending resize has stabilised but the size read back from
    the window is not square or is not the requested one,
    [current_window_size] (and [window_size]) keep their values, the mask
    is neither freed nor replaced, the request is dropped, and the only
    calls are the resize attempt, the read-back and the diagnostic. *)
Theorem rejected_resize_is_abandoned (g : geometry) (c : check_answers) :
  pending_resize g <> 0 ->
  RESIZE_STABILIZE_MS <= u32_sub (check_ticks c) (last_resize_time g) ->
  ~ (actual_w c = actual_h c /\ actual_w c = pending_size g) ->
  current_window_size (fst (stabilized_resize g c)) = current_window_size g
  /\ window_size (fst (stabilized_resize g c)) = window_size g
  /\ shape_surface (fst (stabilized_resize g c)) = shape_surface g
  /\ surfaces_created (fst (stabilized_resize g c)) = surfaces_created g
  /\ pending_resize (fst (stabilized_resize g c)) = 0
  /\ snd (stabilized_resize g c)
     = [E_SDL_SetWindowSize (pending_size g) (pending_size g);
        E_SDL_GetWindowSize (actual_w c) (actual_h c);
        E_printf "Resize failed: requested %dx%d, actual %dx%d\n"
          [pending_size g; pending_size g; actual_w c; actual_h c]]
  /\ resize_ops (snd (stabilized_resize g c)) = [ResizeWindow].
Proof.
  intros Hp Ht Hbad. unfold stabilized_resize.
  destruct (Z.eqb_spec (pending_resize g) 0) as [|_]; [done|].
  destruct (Z.leb_spec RESIZE_STABILIZE_MS
              (u32_sub (check_ticks c) (last_resize_time g))); [|lia].
  simpl.
  destruct (Z.eqb_spec (actual_w c) (actual_h c)) as [Hsq|Hsq];
    [destruct (Z.eqb_spec (actual_w c) (pending_size g)) as [Hw|Hw]|];
    simpl; try tauto; by repeat split.
Qed.

Lemma rejected_resize_is_abandoned_witness :
  current_window_size (fst (stabilized_resize g480_pending c_refused)) = 480
  /\ shape_surface (fst (stabilized_resize g480_pending c_refused))
     = Some (mkRef 0 480)
  /\ pending_resize (fst (stabilized_resize g480_pending c_refused)) = 0.
Proof.
  destruct (rejected_resize_is_abandoned g480_pending c_refused)
    as (H1 & _ & H3 & _ & H5 & _);
    [discriminate | vm_compute; discriminate | vm_compute; intros [H _]; discriminate |].
  split; [exact H1|]. split; [exact H3 | exact H5].
Defined.

(** C7 as stated fails: a [-] key at the minimum size asks for the size
    the window already has, and the window is resized and the mask freed,
    generated and applied all the same. *)
Lemma minus_at_the_minimum_is_carried_out :
  window_size (fst (key_minus g50 a_ok)) = current_window_size g50
  /\ snd (key_minus g50 a_ok)
     = [E_SDL_SetWindowSize 50 50;
        E_SDL_FreeSurface (Some (mkRef 0 50));
        E_create_circular_shape 50 (Some (mkRef 1 50));
        E_SDL_SetWindowShape (mkRef 1 50);
        E_store_current_window_size 50]
  /\ shape_surface (fst (key_minus g50 a_ok)) <> shape_surface g50.
Proof. repeat split; vm_compute; congruence. Qed.

Lemma resize_now_reapplies g g1 ok :
  window_size g1 = current_window_size g ->
  surfaces_created g1 = surfaces_created g ->
  reapplies g ok (resize_now g1 ok).
Proof.
  intros Hw Hn. rewrite resize_now_spec. unfold reapplies. simpl.
  rewrite Hw, Hn. by destruct ok.
Qed.

(** C7, as the code has it. A window-manager resize event whose candidate
    is the current size is ignored: nothing is recorded and nothing is
    called. A keyboard or wheel resize whose clamped target is the current
    size (a [-] key or a wheel-down at the minimum size, a wheel event with
    [y = 0]) is carried out like any other: the window is resized to the
    size it has and the mask is replaced by a new one of that same size;
    [current_window_size] keeps its value. *)
Theorem same_size_resize (g : geometry) (a : answers) (d1 d2 y : Z) :
  (Z.min d1 d2 = current_window_size g -> window_size_changed g d1 d2 a = g)
  /\ (current_window_size g = MIN_WINDOW_SIZE ->
      reapplies g (surface_ok a) (key_minus g a))
  /\ (current_window_size g = MIN_WINDOW_SIZE -> y < 0 ->
      reapplies g (surface_ok a) (mouse_wheel g y a))
  /\ (window_size g = current_window_size g ->
      MIN_WINDOW_SIZE <= current_window_size g ->
      reapplies g (surface_ok a) (mouse_wheel g 0 a)).
Proof.
  split; [|split; [|split]].
  - intros Hmin. unfold window_size_changed.
    replace (if d1 <? d2 then d1 else d2) with (Z.min d1 d2)
      by (destruct (Z.ltb_spec d1 d2); lia).
    rewrite Hmin, Z.eqb_refl. simpl. by rewrite andb_false_r.
  - intros Hc. unfold key_minus. apply resize_now_reapplies.
    + rewrite clamp_window_size_value. simpl. rewrite Hc. reflexivity.
    + by rewrite (proj1 (proj2 (proj2 (clamp_window_size_rest _)))).
  - intros Hc Hy. unfold mouse_wheel.
    destruct (Z.ltb_spec 0 y); [lia|].
    destruct (Z.ltb_spec y 0); [|lia].
    apply resize_now_reapplies.
    + rewrite clamp_window_size_value. simpl. rewrite Hc. reflexivity.
    + by rewrite (proj1 (proj2 (proj2 (clamp_window_size_rest _)))).
  - intros Hw Hge. unfold mouse_wheel. simpl. apply resize_now_reapplies.
    + rewrite clamp_window_size_value. lia.
    + by rewrite (proj1 (proj2 (proj2 (clamp_window_size_rest _)))).
Qed.

Lemma same_size_resize_witness :
  window_size_changed g50 50 80 a_ok = g50
  /\ reapplies g50 true (key_minus g50 a_ok)
  /\ reapplies g50 true (mouse_wheel g50 (-1) a_ok)
  /\ reapplies g50 true (mouse_wheel g50 0 a_ok).
Proof.
  destruct (same_size_resize g50 a_ok 50 80 (-1)) as (H1 & H2 & H3 & H4).
  split; [apply H1; reflexivity|].
  split; [apply H2; reflexivity|].
  split; [apply H3; [reflexivity | lia]|].
  apply H4; [reflexivity | vm_compute; discriminate].
Defined.

End Resizing.

(** ** Sequences of keyboard and wheel steps *)

Section Steps.
Import Geometry Main Props.

Lemma resize_now_sizes g ok :
  current_window_size (fst (resize_now g ok)) = window_size g
  /\ window_size (fst (resize_now g ok)) = window_size g
  /\ pending_resize (fst (resize_now g ok)) = pending_resize g
  /\ pending_size (fst (resize_now g ok)) = pending_size g
  /\ last_resize_time (fst (resize_now g ok)) = last_resize_time g.
Proof. by rewrite resize_now_spec. Qed.




Lemma poll_events_cons_state s ea rest :
  fst (poll_events s (ea :: rest)) = fst (poll_events (fst (handle_event s ea)) rest).
Proof.
  simpl. destruct (handle_event s ea) as [s1 t1]. simpl.
  by destruct (poll_events s1 rest).
Qed.

Lemma poll_events_cons_trace s ea rest :
  snd (poll_events s (ea :: rest))
  = snd (handle_event s ea) ++ snd (poll_events (fst (handle_event s ea)) rest).
Proof.
  simpl. destruct (handle_event s ea) as [s1 t1]. simpl.
  by destruct (poll_events s1 rest).
Qed.






End Steps.

(** ** The loop body, piece by piece *)

Section LoopBody.
Import Geometry Driver Main Props.

Lemma capture_frame s it :
  geo (fst (capture s it)) = geo s
  /\ running (fst (capture s it)) = running s
  /\ drag (fst (capture s it)) = drag s
  /\ dev (fst (capture s it)) = dev s.
Proof.
  unfold capture.
  destruct (select_ret it <? 0); [done|].
  destruct (select_ret it =? 0); [done|].
  destruct (dqbuf _ _ _) as [p1 r1].
  destruct (r1 <? 0); [done|].
  by destruct (qbuf _ _ _) as [p2 r2].
Qed.

Lemma loop_body_geo s it :
  geo (fst (loop_body s it))
  = fst (stabilized_resize (geo (fst (poll_events s (events it)))) (check it)).
Proof.
  unfold loop_body.
  destruct (poll_events s (events it)) as [s1 t1]. simpl.
  destruct (stabilized_resize (geo s1) (check it)) as [g2 t2]. simpl.
  destruct (capture (set_geo s1 g2) it) as [s3 t4] eqn:E. simpl.
  pose proof (proj1 (capture_frame (set_geo s1 g2) it)) as H.
  by rewrite E in H.
Qed.

Lemma loop_body_running s it :
  running (fst (loop_body s it)) = running (fst (poll_events s (events it))).
Proof.
  unfold loop_body.
  destruct (poll_events s (events it)) as [s1 t1]. simpl.
  destruct (stabilized_resize (geo s1) (check it)) as [g2 t2].
  destruct (capture (set_geo s1 g2) it) as [s3 t4] eqn:E. simpl.
  pose proof (proj1 (proj2 (capture_frame (set_geo s1 g2) it))) as H.
  by rewrite E in H.
Qed.

Lemma loop_body_trace s it :
  snd (loop_body s it)
  = snd (poll_events s (events it))
    ++ snd (stabilized_resize (geo (fst (poll_events s (events it)))) (check it))
    ++ render (set_geo (fst (poll_events s (events it)))
                 (fst (stabilized_resize (geo (fst (poll_events s (events it))))
                         (check it))))
    ++ snd (capture (set_geo (fst (poll_events s (events it)))
                       (fst (stabilized_resize (geo (fst (poll_events s (events it))))
                               (check it)))) it).
Proof.
  unfold loop_body.
  destruct (poll_events s (events it)) as [s1 t1]. simpl.
  destruct (stabilized_resize (geo s1) (check it)) as [g2 t2]. simpl.
  by destruct (capture (set_geo s1 g2) it) as [s3 t4].
Qed.

Lemma run_iterations_cons s it rest :
  run_iterations s (it :: rest)
  = (fst (run_iterations (fst (loop_body s it)) rest),
     snd (loop_body s it) ++ snd (run_iterations (fst (loop_body s it)) rest)).
Proof.
  simpl. destruct (loop_body s it) as [s1 t1]. simpl.
  by destruct (run_iterations s1 rest).
Qed.

Lemma run_iterations_app s its1 its2 :
  run_iterations s (its1 ++ its2)
  = (fst (run_iterations (fst (run_iterations s its1)) its2),
     snd (run_iterations s its1)
     ++ snd (run_iterations (fst (run_iterations s its1)) its2)).
Proof.
  revert s. induction its1 as [|it its1 IH]; intros s.
  - simpl. by destruct (run_iterations s its2).
  - rewrite <- app_comm_cons, !run_iterations_cons, IH. simpl.
    by rewrite app_assoc.
Qed.

(** Events other than the two quit requests leave [running] alone. *)
Lemma handle_event_running s ea :
  quit_request ea = false -> running (fst (handle_event s ea)) = running s.
Proof.
  destruct ea as [ev a]. unfold quit_request. simpl.
  destruct ev as [|[]|[]|[]| |y|d1 d2| |]; try done; intros _; simpl.
  - by destruct (key_plus (geo s) a).
  - by destruct (key_plus (geo s) a).
  - by destruct (key_minus (geo s) a).
  - by destruct (negb _).
  - by destruct (mouse_wheel (geo s) y a).
Qed.

Lemma poll_events_running s evs :
  forallb (λ ea, negb (quit_request ea)) evs = true ->
  running (fst (poll_events s evs)) = running s.
Proof.
  revert s. induction evs as [|ea evs IH]; intros s H; [done|].
  simpl in H. apply andb_true_iff in H. destruct H as [H1 H2].
  rewrite poll_events_cons_state, IH by done.
  apply handle_event_running. by destruct (quit_request ea).
Qed.

(** Without a quit request the loop does not end: [main_loop] runs the
    body once per iteration. *)
Lemma main_loop_runs its : forall s,
  running s <> 0 ->
  forallb (λ it, forallb (λ ea, negb (quit_request ea)) (events it)) its = true ->
  main_loop s its = (snd (run_iterations s its), inr (fst (run_iterations s its)))
  /\ running (fst (run_iterations s its)) = running s.
Proof.
  induction its as [|it its IH]; intros s Hr Hq.
  - simpl. by destruct (Z.eqb_spec (running s) 0).
  - simpl in Hq. apply andb_true_iff in Hq. destruct Hq as [Hq1 Hq2].
    rewrite run_iterations_cons. simpl main_loop.
    destruct (Z.eqb_spec (running s) 0) as [|_]; [done|].
    assert (Hr1 : running (fst (loop_body s it)) = running s).
    { rewrite loop_body_running. by apply poll_events_running. }
    destruct (loop_body s it) as [s1 t1]. simpl in *.
    destruct (IH s1) as [IH1 IH2]; [congruence | done |].
    rewrite IH1. simpl. split; [done | congruence].
Qed.

End LoopBody.

(** ** Window-manager resizes: recording and debouncing *)

Section Debounce.
Import Geometry Driver Main Props.

Lemma applied_resizes_app t1 t2 :
  applied_resizes (t1 ++ t2) = applied_resizes t1 ++ applied_resizes t2.
Proof. apply omap_app. Qed.

Lemma render_no_resize s : applied_resizes (render s) = [].
Proof. reflexivity. Qed.

Lemma capture_no_resize s it : applied_resizes (snd (capture s it)) = [].
Proof.
  unfold capture.
  destruct (select_ret it <? 0); [done|].
  destruct (select_ret it =? 0); [done|].
  destruct (dqbuf _ _ _) as [p1 r1].
  destruct (r1 <? 0); [done|].
  destruct (qbuf _ _ _) as [p2 r2]. simpl. by destruct (r2 <? 0).
Qed.

Lemma window_size_changed_spec g d1 d2 a :
  window_size_changed g d1 d2 a
  = if passes (current_window_size g) (Z.min d1 d2)
    then set_pending g 1 (Z.min d1 d2) (ticks a) else g.
Proof.
  unfold window_size_changed, passes.
  by replace (if d1 <? d2 then d1 else d2) with (Z.min d1 d2)
    by (destruct (Z.ltb_spec d1 d2); lia).
Qed.

(** Handling one window-manager resize event. *)
Lemma handle_resize_event s ea :
  is_resize_event ea = true ->
  exists c,
    event_candidate ea = Some c
    /\ snd (handle_event s ea) = []
    /\ running (fst (handle_event s ea)) = running s
    /\ current_window_size (geo (fst (handle_event s ea))) = current_window_size (geo s)
    /\ pending (geo (fst (handle_event s ea)))
       = if passes (current_window_size (geo s)) c then Some c else pending (geo s).
Proof.
  destruct ea as [ev a]. unfold is_resize_event, event_candidate. simpl.
  destruct ev; try done. intros _. eexists. split; [reflexivity|]. simpl.
  rewrite window_size_changed_spec.
  by destruct (passes _ _).
Qed.

(** Draining a run of window-manager resize events: nothing is called,
    and the pending request is the last candidate that passed the test. *)
Lemma poll_resize_events evs : forall s,
  forallb is_resize_event evs = true ->
  snd (poll_events s evs) = []
  /\ running (fst (poll_events s evs)) = running s
  /\ current_window_size (geo (fst (poll_events s evs))) = current_window_size (geo s)
  /\ pending (geo (fst (poll_events s evs)))
     = match last (recorded (current_window_size (geo s)) (omap event_candidate evs)) with
       | Some k => Some k
       | None => pending (geo s)
       end.
Proof.
  induction evs as [|ea evs IH]; intros s H; [done|].
  simpl in H. apply andb_true_iff in H. destruct H as [H1 H2].
  destruct (handle_resize_event s ea H1) as (c & Hc & Ht & Hr & Hcur & Hp).
  destruct (IH (fst (handle_event s ea)) H2) as (IHt & IHr & IHcur & IHp).
  rewrite poll_events_cons_state, poll_events_cons_trace.
  rewrite Ht, IHt, IHr, IHcur, IHp, Hr, Hcur, Hp.
  repeat split; try done.
  change (omap event_candidate (ea :: evs))
    with (match event_candidate ea with
          | Some c' => c' :: omap event_candidate evs
          | None => omap event_candidate evs
          end).
  rewrite Hc. unfold recorded. cbn [List.filter].
  destruct (passes _ c); [|reflexivity].
  rewrite last_cons.
  by destruct (last (List.filter _ (omap event_candidate evs))).
Qed.

Lemma stabilized_resize_idle g c :
  pending g = None \/ elapsed g c < RESIZE_STABILIZE_MS ->
  stabilized_resize g c = (g, []).
Proof.
  unfold pending, elapsed, stabilized_resize.
  destruct (Z.eqb_spec (pending_resize g) 0); [done|].
  intros [|H]; [done|].
  by destruct (Z.leb_spec RESIZE_STABILIZE_MS
                 (u32_sub (check_ticks c) (last_resize_time g))); [lia|].
Qed.

(** A stabilised request is attempted exactly once and then dropped. *)
Lemma stabilized_resize_fires g c k :
  pending g = Some k ->
  RESIZE_STABILIZE_MS <= elapsed g c ->
  applied_resizes (snd (stabilized_resize g c)) = [k]
  /\ pending (fst (stabilized_resize g c)) = None
  /\ (actual_w c = k -> actual_h c = k ->
      current_window_size (fst (stabilized_resize g c)) = k).
Proof.
  unfold pending, elapsed, stabilized_resize.
  destruct (Z.eqb_spec (pending_resize g) 0); [done|].
  intros [= <-] H.
  destruct (Z.leb_spec RESIZE_STABILIZE_MS
              (u32_sub (check_ticks c) (last_resize_time g))); [|lia].
  simpl.
  destruct ((actual_w c =? actual_h c) && (actual_w c =? pending_size g)) eqn:E.
  - unfold replace_shape, call_create_circular_shape.
    by destruct (check_surface_ok c).
  - split; [done|]. split; [done|]. intros Hw Hh.
    rewrite Hw, Hh, Z.eqb_refl in E. discriminate E.
Qed.

Lemma loop_body_resizes s it :
  applied_resizes (snd (loop_body s it))
  = applied_resizes (snd (poll_events s (events it)))
    ++ applied_resizes
         (snd (stabilized_resize (geo (fst (poll_events s (events it)))) (check it))).
Proof.
  rewrite loop_body_trace, !applied_resizes_app, render_no_resize, capture_no_resize.
  by rewrite !app_nil_r.
Qed.

Lemma reported_cons it its :
  reported (it :: its) = omap event_candidate (events it) ++ reported its.
Proof. unfold reported. by rewrite fmap_cons, concat_cons, omap_app. Qed.

(** During a burst nothing is applied; at its end the pending request is
    the last candidate that passed the test. *)
Lemma burst_records_last burst : forall s,
  forallb (λ it, forallb is_resize_event (events it)) burst = true ->
  in_burst s burst ->
  applied_resizes (snd (run_iterations s burst)) = []
  /\ current_window_size (geo (fst (run_iterations s burst)))
     = current_window_size (geo s)
  /\ pending (geo (fst (run_iterations s burst)))
     = match last (recorded (current_window_size (geo s)) (reported burst)) with
       | Some k => Some k
       | None => pending (geo s)
       end.
Proof.
  induction burst as [|it burst IH]; intros s Hev Hb; [done|].
  simpl in Hev. apply andb_true_iff in Hev. destruct Hev as [Hev1 Hev2].
  destruct Hb as [Hb1 Hb2].
  destruct (poll_resize_events (events it) s Hev1) as (Pt & _ & Pcur & Pp).
  pose proof (stabilized_resize_idle _ (check it) Hb1) as Hidle.
  assert (Hg : geo (fst (loop_body s it)) = geo (fst (poll_events s (events it)))).
  { by rewrite loop_body_geo, Hidle. }
  destruct (IH _ Hev2 Hb2) as (IHt & IHcur & IHp).
  rewrite run_iterations_cons. simpl fst. simpl snd.
  rewrite applied_resizes_app, loop_body_resizes, Pt, Hidle, IHt, IHcur, IHp.
  rewrite Hg, Pcur, Pp.
  repeat split; try done.
  rewrite reported_cons. unfold recorded. rewrite List.filter_app, last_app.
  by destruct (last (List.filter _ (reported burst))).
Qed.

Lemma quiet_iteration s it :
  events it = [] ->
  geo (fst (loop_body s it)) = fst (stabilized_resize (geo s) (check it))
  /\ applied_resizes (snd (loop_body s it))
     = applied_resizes (snd (stabilized_resize (geo s) (check it))).
Proof.
  intros He. rewrite loop_body_geo, loop_body_resizes, He. by simpl.
Qed.

(** With nothing pending, quiet iterations do nothing to the window. *)
Lemma quiet_without_pending quiet : forall s,
  forallb (λ it, bool_decide (events it = [])) quiet = true ->
  pending (geo s) = None ->
  applied_resizes (snd (run_iterations s quiet)) = []
  /\ pending (geo (fst (run_iterations s quiet))) = None
  /\ current_window_size (geo (fst (run_iterations s quiet)))
     = current_window_size (geo s).
Proof.
  induction quiet as [|it quiet IH]; intros s Hq Hp; [done|].
  simpl in Hq. apply andb_true_iff in Hq. destruct Hq as [Hq1 Hq2].
  apply bool_decide_eq_true in Hq1.
  destruct (quiet_iteration s it Hq1) as [Hg Ht].
  rewrite stabilized_resize_idle in Hg, Ht by by left.
  rewrite run_iterations_cons. simpl fst. simpl snd.
  destruct (IH (fst (loop_body s it)) Hq2) as (IHt & IHp & IHc); [by rewrite Hg|].
  by rewrite applied_resizes_app, Ht, IHt, IHp, IHc, Hg.
Qed.

(** With a request pending, quiet iterations apply it once: at the first
    check that finds it stabilised. *)
Lemma quiet_applies_once quiet : forall s k,
  forallb (λ it, bool_decide (events it = [])) quiet = true ->
  pending (geo s) = Some k ->
  Exists (λ it, RESIZE_STABILIZE_MS <= elapsed (geo s) (check it)) quiet ->
  applied_resizes (snd (run_iterations s quiet)) = [k]
  /\ pending (geo (fst (run_iterations s quiet))) = None
  /\ (Forall (λ it, actual_w (check it) = k /\ actual_h (check it) = k) quiet ->
      current_window_size (geo (fst (run_iterations s quiet))) = k).
Proof.
  induction quiet as [|it quiet IH]; intros s k Hq Hp Hex.
  { by apply Exists_nil in Hex. }
  simpl in Hq. apply andb_true_iff in Hq. destruct Hq as [Hq1 Hq2].
  apply bool_decide_eq_true in Hq1.
  destruct (quiet_iteration s it Hq1) as [Hg Ht].
  rewrite run_iterations_cons. simpl fst. simpl snd.
  rewrite applied_resizes_app, Ht.
  destruct (Z.le_gt_cases RESIZE_STABILIZE_MS (elapsed (geo s) (check it)))
    as [Hfire|Hidle].
  - destruct (stabilized_resize_fires (geo s) (check it) k Hp Hfire)
      as (Ft & Fp & Fc).
    destruct (quiet_without_pending quiet (fst (loop_body s it)) Hq2)
      as (Qt & Qp & Qc); [by rewrite Hg|].
    rewrite Ft, Qt, Qp, Qc, Hg. split; [done|]. split; [done|].
    intros Hall. apply Forall_cons in Hall. destruct Hall as [[Hw Hh] _].
    by apply Fc.
  - rewrite (stabilized_resize_idle (geo s) (check it)) in * by (right; lia).
    simpl in Hg. simpl applied_resizes.
    apply Exists_cons in Hex. destruct Hex as [Hex|Hex]; [lia|].
    destruct (IH (fst (loop_body s it)) k Hq2) as (IHt & IHp & IHc).
    { by rewrite Hg. }
    { by rewrite Hg. }
    rewrite IHt, IHp. split; [done|]. split; [done|].
    intros Hall. apply Forall_cons in Hall. destruct Hall as [_ Hall]. by apply IHc.
Qed.

Lemma resize_event_is_no_quit ea :
  is_resize_event ea = true -> negb (quit_request ea) = true.
Proof.
  destruct ea as [ev a]. unfold is_resize_event, quit_request. simpl.
  by destruct ev as [|[]| | | | | | |].
Qed.

Lemma no_quit_in_burst_and_quiet burst quiet :
  forallb (λ it, forallb is_resize_event (events it)) burst = true ->
  forallb (λ it, bool_decide (events it = [])) quiet = true ->
  forallb (λ it, forallb (λ ea, negb (quit_request ea)) (events it)) (burst ++ quiet)
  = true.
Proof.
  intros Hb Hq. rewrite forallb_app. apply andb_true_iff. split.
  - apply forallb_forall. intros it Hit.
    rewrite forallb_forall in Hb. specialize (Hb it Hit).
    apply forallb_forall. intros ea Hea.
    rewrite forallb_forall in Hb. by apply resize_event_is_no_quit, Hb.
  - apply forallb_forall. intros it Hit.
    rewrite forallb_forall in Hq. specialize (Hq it Hit).
    apply bool_decide_eq_true in Hq. by rewrite Hq.
Qed.

(** A burst none of whose candidates is recorded leaves nothing pending,
    so it is a burst whatever the ticks are. *)
Lemma burst_without_record burst : forall s,
  forallb (λ it, forallb is_resize_event (events it)) burst = true ->
  pending (geo s) = None ->
  last (recorded (current_window_size (geo s)) (reported burst)) = None ->
  in_burst s burst.
Proof.
  induction burst as [|it burst IH]; intros s Hev Hp Hrec; [done|].
  simpl in Hev. apply andb_true_iff in Hev. destruct Hev as [Hev1 Hev2].
  destruct (poll_resize_events (events it) s Hev1) as (_ & _ & Pcur & Pp).
  apply last_None in Hrec. rewrite reported_cons in Hrec. unfold recorded in Hrec.
  rewrite List.filter_app in Hrec. apply app_eq_nil in Hrec.
  destruct Hrec as [Hrec1 Hrec2].
  unfold recorded in Pp. rewrite Hrec1, Hp in Pp. simpl in Pp.
  pose proof (stabilized_resize_idle _ (check it) (or_introl Pp)) as Hidle.
  assert (Hg : geo (fst (loop_body s it)) = geo (fst (poll_events s (events it)))).
  { by rewrite loop_body_geo, Hidle. }
  split; [by left|]. apply IH; [done | by rewrite Hg |].
  rewrite Hg, Pcur. apply last_None. exact Hrec2.
Qed.

(** C5, as the code has it. A window-manager resize event reporting
    [(w, h)] is recorded as the pending resize exactly when
    [min w h >= MIN_WINDOW_SIZE] and [min w h] is not the current size, and
    then replaces an earlier request; otherwise it changes nothing. When
    no candidate of the events is recorded, the window is not resized,
    whatever the ticks are. Otherwise, after a burst of such events and a
    quiet period that reaches a stabilisation check 100 ticks or more
    after the latest recorded request, the window has been resized
    exactly once, to the last candidate that was recorded; the size is
    committed when the window manager honours it. *)
Theorem burst_is_applied_once (s : state) (burst quiet : list iteration) :
  running s <> 0 ->
  pending (geo s) = None ->
  forallb (λ it, forallb is_resize_event (events it)) burst = true ->
  forallb (λ it, bool_decide (events it = [])) quiet = true ->
  (forall g d1 d2 a,
      window_size_changed g d1 d2 a
      = if (MIN_WINDOW_SIZE <=? Z.min d1 d2)
           && negb (Z.min d1 d2 =? current_window_size g)
        then set_pending g 1 (Z.min d1 d2) (ticks a) else g)
  /\ exists t s',
      main_loop s (burst ++ quiet) = (t, inr s')
      /\ match last (recorded (current_window_size (geo s)) (reported burst)) with
         | Some k =>
             in_burst s burst ->
             Exists (λ it, RESIZE_STABILIZE_MS
                           <= elapsed (geo (fst (run_iterations s burst))) (check it))
               quiet ->
             pending (geo s') = None
             /\ applied_resizes t = [k]
             /\ (Forall (λ it, actual_w (check it) = k /\ actual_h (check it) = k) quiet ->
                 current_window_size (geo s') = k)
         | None =>
             pending (geo s') = None
             /\ applied_resizes t = []
             /\ current_window_size (geo s') = current_window_size (geo s)
         end.
Proof.
  intros Hrun Hp Hb Hq. split; [apply window_size_changed_spec|].
  destruct (main_loop_runs (burst ++ quiet) s Hrun
              (no_quit_in_burst_and_quiet burst quiet Hb Hq)) as [Hml _].
  eexists _, _. split; [exact Hml|].
  rewrite run_iterations_app. simpl fst. simpl snd. rewrite applied_resizes_app.
  pose proof (burst_records_last burst s Hb) as Hlast.
  pose proof (burst_without_record burst s Hb Hp) as Hnone.
  destruct (last (recorded (current_window_size (geo s)) (reported burst)))
    as [k|].
  - intros Hin Hex. destruct (Hlast Hin) as (Bt & Bcur & Bp).
    destruct (quiet_applies_once quiet _ k Hq Bp Hex) as (Qt & Qp & Qc).
    by rewrite Bt, Qt, Qp.
  - destruct (Hlast (Hnone eq_refl)) as (Bt & Bcur & Bp). rewrite Hp in Bp.
    destruct (quiet_without_pending quiet _ Hq Bp) as (Qt & Qp & Qc).
    by rewrite Bt, Qt, Qp, Qc, Bcur.
Qed.

(** The theorem on a burst that ends at 300, and on reports that are not
    recorded and whose ticks lie far apart. *)
Lemma burst_is_applied_once_witness :
  (exists t s',
     main_loop (state_of g200) (grow_in_steps ++ then_quiet) = (t, inr s')
     /\ pending (geo s') = None
     /\ applied_resizes t = [300]
     /\ current_window_size (geo s') = 300)
  /\ (exists t s',
        main_loop (state_of g200) (unrecorded_reports ++ then_quiet) = (t, inr s')
        /\ pending (geo s') = None
        /\ applied_resizes t = []
        /\ current_window_size (geo s') = 200).
Proof.
  split.
  - destruct (burst_is_applied_once (state_of g200) grow_in_steps then_quiet)
      as (_ & t & s' & Hml & Hlast);
      [vm_compute; discriminate | reflexivity | reflexivity | reflexivity |].
    change (last (recorded (current_window_size (geo (state_of g200)))
                    (reported grow_in_steps))) with (Some 300) in Hlast.
    destruct Hlast as (Hpend & Ht & Hc).
    + split; [right; vm_compute; reflexivity|].
      split; [right; vm_compute; reflexivity | exact I].
    + apply Exists_cons_tl, Exists_cons_hd. vm_compute. discriminate.
    + exists t, s'. split; [exact Hml|]. split; [exact Hpend|].
      split; [exact Ht|]. apply Hc. by repeat constructor.
  - destruct (burst_is_applied_once (state_of g200) unrecorded_reports then_quiet)
      as (_ & t & s' & Hml & Hlast);
      [vm_compute; discriminate | reflexivity | reflexivity | reflexivity |].
    change (last (recorded (current_window_size (geo (state_of g200)))
                    (reported unrecorded_reports))) with (@None Z) in Hlast.
    destruct Hlast as (Hpend & Ht & Hc).
    exists t, s'. split; [exact Hml|]. split; [exact Hpend|].
    split; [exact Ht | exact Hc].
Defined.

(** C5 as stated fails: in the burst [out_and_back] the last reported
    candidate is 200, the size the window already has, so it is not
    recorded and the request for 300 stays pending; after the quiet period
    the window is resized to 300, an intermediate size. *)
Lemma last_reported_candidate_is_not_applied :
  reported out_and_back = [300; 200]
  /\ in_burst (state_of g200) out_and_back
  /\ applied_resizes (fst (main_loop (state_of g200) (out_and_back ++ then_quiet)))
     = [300]
  /\ applied_resizes (fst (main_loop (state_of g200) (out_and_back ++ then_quiet)))
     <> [200].
Proof.
  split; [reflexivity|].
  split; [split; [right; vm_compute; reflexivity | exact I]|].
  split; [vm_compute; reflexivity | vm_compute; discriminate].
Qed.

End Debounce.

(** ** Invariants of [main] *)

Section MainInvariant.
Import Geometry Driver Main Props.

Ltac list_ok :=
  repeat (apply Forall_cons; split);
  try apply Forall_nil; try (split; exact I); try exact I.

Lemma pool_ok_balanced n p : pool_ok n p -> balanced n p.
Proof.
  intros [Hlen Hall]. split; [done|]. subst n. unfold count_state.
  induction Hall as [|x p [->| ->] _ IH]; [done| |].
  - rewrite !filter_cons. simpl. destruct (decide (Queued = Queued)); [|done].
    destruct (decide (Queued = Dequeued)); [done|]. simpl. lia.
  - rewrite !filter_cons. simpl. destruct (decide (Dequeued = Queued)); [done|].
    destruct (decide (Dequeued = Dequeued)); [|done]. simpl. lia.
Qed.

Lemma pool_ok_insert n p i x :
  pool_ok n p -> x = Queued \/ x = Dequeued -> pool_ok n (<[i:=x]> p).
Proof.
  intros [Hlen Hall] Hx. split; [by rewrite length_insert|].
  destruct (decide (i < length p)%nat).
  - by apply Forall_insert.
  - rewrite list_insert_ge by lia. done.
Qed.

Lemma dqbuf_spec n p ret i :
  pool_ok n p ->
  pool_ok n (fst (dqbuf p ret i))
  /\ (0 <= snd (dqbuf p ret i) -> fst (dqbuf p ret i) !! Z.to_nat i = Some Dequeued).
Proof.
  intros Hp. unfold dqbuf.
  destruct (Z.ltb_spec ret 0); [simpl; split; [done|lia]|].
  destruct (Z.ltb_spec i 0); [simpl; split; [done|lia]|].
  destruct (p !! Z.to_nat i) as [[]|] eqn:E; simpl; try (split; [done|lia]).
  split; [apply pool_ok_insert; auto|]. intros _.
  apply list_lookup_insert_eq. by eapply lookup_lt_Some.
Qed.

Lemma qbuf_spec n p i ret :
  pool_ok n p -> pool_ok n (fst (qbuf p i ret)).
Proof.
  intros Hp. unfold qbuf.
  destruct (ret <? 0); [done|]. destruct (i <? 0); [done|].
  destruct (p !! Z.to_nat i) as [[]|]; simpl; try done;
    apply pool_ok_insert; auto.
Qed.

(** The capture cycle keeps the pool balanced at each of its observation
    points and re-queues only the buffer it has just dequeued. *)
Lemma capture_well_behaved n s it :
  pool_ok n (slots s) ->
  pool_ok n (slots (fst (capture s it)))
  /\ Forall (well_behaved n) (snd (capture s it)).
Proof.
  intros Hp. unfold capture.
  pose proof (pool_ok_balanced n _ Hp) as Hb.
  destruct (select_ret it <? 0); [split; [done|]; list_ok; split; done|].
  destruct (select_ret it =? 0); [split; [done|]; list_ok; split; done|].
  destruct (dqbuf_spec n (slots s) (dqbuf_ret it) (dqbuf_index it) Hp) as [Hp1 Hd].
  destruct (dqbuf (slots s) (dqbuf_ret it) (dqbuf_index it)) as [p1 r1].
  simpl in Hp1, Hd.
  pose proof (pool_ok_balanced n _ Hp1) as Hb1.
  destruct (Z.ltb_spec r1 0); [split; [done|]; list_ok; split; done|].
  pose proof (qbuf_spec n p1 (dqbuf_index it) (qbuf_ret it) Hp1) as Hp2.
  destruct (qbuf p1 (dqbuf_index it) (qbuf_ret it)) as [p2 r2]. simpl in Hp2.
  pose proof (pool_ok_balanced n _ Hp2) as Hb2.
  split; [done|]. simpl.
  assert (Hheld : p1 !! Z.to_nat (dqbuf_index it) <> Some Queued).
  { rewrite Hd by lia. discriminate. }
  destruct (r2 <? 0); list_ok; split; done.
Qed.

Lemma replace_shape_well_behaved n g ok :
  Forall (well_behaved n) (snd (replace_shape g ok))
  /\ current_window_size (fst (replace_shape g ok)) = current_window_size g
  /\ window_size (fst (replace_shape g ok)) = window_size g
  /\ pending_resize (fst (replace_shape g ok)) = pending_resize g
  /\ pending_size (fst (replace_shape g ok)) = pending_size g.
Proof.
  unfold replace_shape, call_create_circular_shape.
  destruct ok; simpl; split; try done; list_ok.
Qed.

Lemma resize_now_well_behaved n g ok :
  MIN_WINDOW_SIZE <= window_size g ->
  (pending_resize g <> 0 -> MIN_WINDOW_SIZE <= pending_size g) ->
  geometry_ok (fst (resize_now g ok))
  /\ Forall (well_behaved n) (snd (resize_now g ok)).
Proof.
  intros Hw Hp. rewrite resize_now_spec. simpl.
  split; [by split|].
  unfold call_create_circular_shape.
  destruct ok; simpl; list_ok; split; done.
Qed.

Lemma clamp_window_size_floor g :
  MIN_WINDOW_SIZE <= window_size (clamp_window_size g).
Proof. rewrite clamp_window_size_value. lia. Qed.

Lemma clamp_window_size_pending g :
  pending_resize (clamp_window_size g) = pending_resize g
  /\ pending_size (clamp_window_size g) = pending_size g.
Proof. unfold clamp_window_size. by destruct (_ <? _). Qed.

Lemma geometry_step_well_behaved n g g1 ok :
  geometry_ok g ->
  pending_resize g1 = pending_resize g ->
  pending_size g1 = pending_size g ->
  geometry_ok (fst (resize_now (clamp_window_size g1) ok))
  /\ Forall (well_behaved n) (snd (resize_now (clamp_window_size g1) ok)).
Proof.
  intros [_ Hp] H1 H2. apply resize_now_well_behaved.
  - apply clamp_window_size_floor.
  - destruct (clamp_window_size_pending g1) as [-> ->]. by rewrite H1, H2.
Qed.

Lemma set_geo_invariant n s g :
  loop_invariant n s -> geometry_ok g -> loop_invariant n (set_geo s g).
Proof. intros (_ & Hp) Hg. by split. Qed.

Lemma key_plus_well_behaved n g a :
  geometry_ok g ->
  geometry_ok (fst (key_plus g a)) /\ Forall (well_behaved n) (snd (key_plus g a)).
Proof. intros Hg. by apply (geometry_step_well_behaved n g). Qed.

Lemma key_minus_well_behaved n g a :
  geometry_ok g ->
  geometry_ok (fst (key_minus g a)) /\ Forall (well_behaved n) (snd (key_minus g a)).
Proof. intros Hg. by apply (geometry_step_well_behaved n g). Qed.

Lemma mouse_wheel_well_behaved n g y a :
  geometry_ok g ->
  geometry_ok (fst (mouse_wheel g y a))
  /\ Forall (well_behaved n) (snd (mouse_wheel g y a)).
Proof.
  intros Hg. apply (geometry_step_well_behaved n g); [done|..];
    by destruct (0 <? y), (y <? 0).
Qed.

Lemma window_size_changed_ok g d1 d2 a :
  geometry_ok g -> geometry_ok (window_size_changed g d1 d2 a).
Proof.
  intros Hg. rewrite window_size_changed_spec. unfold passes.
  destruct (Z.leb_spec MIN_WINDOW_SIZE (Z.min d1 d2)); simpl; [|done].
  destruct (negb _); [|done]. destruct Hg as [Hcur _]. by split.
Qed.

Lemma handle_event_well_behaved n s ea :
  loop_invariant n s ->
  loop_invariant n (fst (handle_event s ea))
  /\ Forall (well_behaved n) (snd (handle_event s ea)).
Proof.
  intros Hs. pose proof Hs as (Hg & Hp). destruct ea as [ev a].
  pose proof (key_plus_well_behaved n (geo s) a Hg) as [Hplus1 Hplus2].
  pose proof (key_minus_well_behaved n (geo s) a Hg) as [Hminus1 Hminus2].
  destruct ev as [|[]|[]|[]| |y|d1 d2| |]; simpl;
    try (split; [exact Hs | list_ok]).
  - destruct (key_plus (geo s) a). split; [by apply set_geo_invariant | done].
  - destruct (key_plus (geo s) a). split; [by apply set_geo_invariant | done].
  - destruct (key_minus (geo s) a). split; [by apply set_geo_invariant | done].
  - destruct (negb _); (split; [exact Hs | list_ok]).
  - pose proof (mouse_wheel_well_behaved n (geo s) y a Hg) as [H1 H2].
    destruct (mouse_wheel (geo s) y a).
    split; [by apply set_geo_invariant | done].
  - split; [|list_ok]. apply set_geo_invariant; [done|].
    by apply window_size_changed_ok.
Qed.

Lemma poll_events_well_behaved n evs : forall s,
  loop_invariant n s ->
  loop_invariant n (fst (poll_events s evs))
  /\ Forall (well_behaved n) (snd (poll_events s evs)).
Proof.
  induction evs as [|ea evs IH]; intros s Hs; [by split|].
  destruct (handle_event_well_behaved n s ea Hs) as [H1 H2].
  destruct (IH _ H1) as [H3 H4].
  rewrite poll_events_cons_state, poll_events_cons_trace.
  split; [done|]. by apply Forall_app.
Qed.

Lemma stabilized_resize_well_behaved n g c :
  geometry_ok g ->
  geometry_ok (fst (stabilized_resize g c))
  /\ Forall (well_behaved n) (snd (stabilized_resize g c)).
Proof.
  intros [Hc Hp]. unfold stabilized_resize.
  destruct (Z.eqb_spec (pending_resize g) 0) as [|Hne]; simpl; [by split|].
  destruct (_ <=? _); simpl; [|by split].
  specialize (Hp Hne).
  destruct (_ && _); simpl.
  - unfold replace_shape, call_create_circular_shape.
    destruct (check_surface_ok c); simpl; (split; [by split|]);
      list_ok; split; done.
  - split; [by split|]. list_ok.
Qed.

Lemma loop_body_state s it :
  fst (loop_body s it)
  = fst (capture (set_geo (fst (poll_events s (events it)))
                    (fst (stabilized_resize (geo (fst (poll_events s (events it))))
                            (check it)))) it).
Proof.
  unfold loop_body.
  destruct (poll_events s (events it)) as [s1 t1]. simpl.
  destruct (stabilized_resize (geo s1) (check it)) as [g2 t2]. simpl.
  by destruct (capture (set_geo s1 g2) it) as [s3 t4].
Qed.

(** The body of the loop keeps the invariant, and everything it does is
    well behaved. *)
Lemma loop_body_well_behaved n s it :
  loop_invariant n s ->
  loop_invariant n (fst (loop_body s it))
  /\ Forall (well_behaved n) (snd (loop_body s it)).
Proof.
  intros Hs.
  destruct (poll_events_well_behaved n (events it) s Hs) as [(Hg1 & Hp1) Ht1].
  destruct (stabilized_resize_well_behaved n _ (check it) Hg1) as [Hg2 Ht2].
  rewrite loop_body_trace, loop_body_state.
  set (s1 := fst (poll_events s (events it))) in *.
  set (g2 := fst (stabilized_resize (geo s1) (check it))) in *.
  destruct (capture_well_behaved n (set_geo s1 g2) it Hp1) as [Hp3 Ht3].
  destruct (capture_frame (set_geo s1 g2) it) as (Fg & _ & _ & Fd).
  split.
  - split; [by rewrite Fg | done].
  - repeat (apply Forall_app; split); try done. unfold render. list_ok.
Qed.

Lemma cleanup_well_behaved n s : Forall (well_behaved n) (cleanup s).
Proof.
  unfold cleanup. repeat (apply Forall_app; split); [list_ok| |list_ok].
  apply Forall_forall. intros e He. apply list_elem_of_In, in_map_iff in He.
  destruct He as (i & <- & _). by split.
Qed.

Lemma main_loop_well_behaved n its : forall s,
  loop_invariant n s ->
  Forall (well_behaved n) (fst (main_loop s its))
  /\ (forall s', snd (main_loop s its) = inr s' -> loop_invariant n s').
Proof.
  induction its as [|it its IH]; intros s Hs; simpl.
  - destruct (running s =? 0); simpl.
    + split; [apply cleanup_well_behaved | discriminate].
    + split; [done|]. by intros s' [= <-].
  - destruct (running s =? 0); simpl.
    { split; [apply cleanup_well_behaved | discriminate]. }
    destruct (loop_body_well_behaved n s it Hs) as [H1 H2].
    destruct (loop_body s it) as [s1 t1]. simpl in *.
    destruct (IH s1 H1) as [H3 H4].
    destruct (main_loop s1 its) as [t2 r]. simpl in *.
    split; [by apply Forall_app|done].
Qed.

End MainInvariant.

(** ** Start-up *)

Section StartUp.
Import Geometry Driver Main Props.

Ltac list_ok :=
  repeat (apply Forall_cons; split);
  try apply Forall_nil; try (split; exact I); try exact I.

Lemma bind_trace {A B : Type} (m : M A) (k : A -> M B) :
  fst (bind m k)
  = fst m ++ match snd m with inl _ => [] | inr a => fst (k a) end.
Proof.
  destruct m as [t [code|a]]; simpl; [by rewrite app_nil_r|].
  by destruct (k a).
Qed.

Lemma bind_result {A B : Type} (m : M A) (k : A -> M B) :
  snd (bind m k)
  = match snd m with inl code => inl code | inr a => snd (k a) end.
Proof. destruct m as [t [code|a]]; simpl; [done|]. by destruct (k a). Qed.

Lemma bind_Forall {A B : Type} (P : effect -> Prop) (m : M A) (k : A -> M B) :
  Forall P (fst m) ->
  (forall a, snd m = inr a -> Forall P (fst (k a))) ->
  Forall P (fst (bind m k)).
Proof.
  intros Hm Hk. rewrite bind_trace. apply Forall_app. split; [done|].
  destruct (snd m) as [code|a]; [done|]. by apply Hk.
Qed.

Lemma parse_args_well_behaved n atoi k : forall args c,
  (length args <= k)%nat ->
  MIN_SIZE <= cfg_window_size c ->
  Forall (well_behaved n) (fst (parse_args atoi args c))
  /\ (forall c', snd (parse_args atoi args c) = inr c' ->
        MIN_SIZE <= cfg_window_size c').
Proof.
  induction k as [|k IH]; intros args c Hlen Hc.
  { destruct args; [|simpl in Hlen; lia]. simpl. split; [done|]. by intros c' [= <-]. }
  destruct args as [|a rest]; simpl.
  { split; [done|]. by intros c' [= <-]. }
  simpl in Hlen.
  destruct (String.eqb a "-t"); [apply IH; [lia|done]|].
  destruct (String.eqb a "-s").
  - destruct rest as [|v rest']; [split; [list_ok|discriminate]|].
    destruct (Z.ltb_spec (atoi v) MIN_SIZE); [split; [list_ok|discriminate]|].
    apply IH; [simpl in Hlen; lia | done].
  - apply IH; [lia|done].
Qed.

Lemma parse_command_line_well_behaved n atoi argv :
  Forall (well_behaved n) (fst (parse_command_line atoi argv))
  /\ (forall cd, snd (parse_command_line atoi argv) = inr cd ->
        MIN_SIZE <= cfg_window_size (fst cd)).
Proof.
  unfold parse_command_line.
  destruct (_ || _); [split; [unfold usage; list_ok | discriminate]|].
  destruct (parse_args_well_behaved n atoi (length (tail argv)) (tail argv)
              (mkConfig DEFAULT_SIZE None 0)) as [H1 H2];
    [lia | unfold MIN_SIZE, DEFAULT_SIZE; simpl; lia |].
  split.
  - apply bind_Forall; [done|]. intros c Hc.
    destruct (cfg_video_device c); [done | unfold usage; list_ok].
  - intros cd. rewrite bind_result.
    destruct (snd (parse_args _ _ _)) as [code|c] eqn:E; [discriminate|].
    destruct (cfg_video_device c); [|discriminate].
    intros [= <-]. by apply H2.
Qed.

Lemma insert_replicate_boundary {A : Type} (x y : A) (k m : nat) :
  <[k := y]> (replicate k y ++ replicate (S m) x)
  = replicate (S k) y ++ replicate m x.
Proof.
  induction k as [|k IH]; [done|]. simpl. f_equal. exact IH.
Qed.

Lemma insert_replicate_boundary_cons {A : Type} (x y : A) (k m : nat) :
  <[k := y]> (replicate k y ++ x :: replicate m x)
  = replicate (S k) y ++ replicate m x.
Proof. apply (insert_replicate_boundary x y k m). Qed.

Lemma seqZ_of_nat_S (k m : nat) :
  seqZ (Z.of_nat k) (Z.of_nat (S m))
  = Z.of_nat k :: seqZ (Z.of_nat (S k)) (Z.of_nat m).
Proof.
  rewrite seqZ_cons by lia. f_equal. f_equal; lia.
Qed.

Lemma map_buffers_cons env i rest p :
  map_buffers env (i :: rest) p
  = if r_QUERYBUF env i <? 0 then
      ([E_ioctl_QUERYBUF i; E_perror "VIDIOC_QUERYBUF"; E_free; E_close; E_SDL_Quit],
       inl 1)
    else if mmap_ok env i then
      ([E_ioctl_QUERYBUF i; E_mmap i]
         ++ fst (map_buffers env rest (<[Z.to_nat i := Mapped]> p)),
       snd (map_buffers env rest (<[Z.to_nat i := Mapped]> p)))
    else
      ([E_ioctl_QUERYBUF i; E_mmap i; E_perror "mmap"; E_free; E_close; E_SDL_Quit],
       inl 1).
Proof.
  simpl. destruct (r_QUERYBUF env i <? 0); [done|].
  destruct (mmap_ok env i); [|done].
  unfold bind, call. simpl. by destruct (map_buffers env rest _).
Qed.

Lemma queue_buffers_cons env i rest p :
  queue_buffers env (i :: rest) p
  = if snd (qbuf p i (r_QBUF env i)) <? 0 then
      ([E_ioctl_QBUF i (snd (qbuf p i (r_QBUF env i))) (p !! Z.to_nat i);
        E_perror "VIDIOC_QBUF"; E_free; E_close; E_SDL_Quit], inl 1)
    else
      ([E_ioctl_QBUF i (snd (qbuf p i (r_QBUF env i))) (p !! Z.to_nat i)]
         ++ fst (queue_buffers env rest (fst (qbuf p i (r_QBUF env i)))),
       snd (queue_buffers env rest (fst (qbuf p i (r_QBUF env i))))).
Proof.
  simpl. destruct (qbuf p i (r_QBUF env i)) as [p1 r]. simpl.
  destruct (r <? 0); [done|].
  unfold bind, call. simpl. by destruct (queue_buffers env rest p1).
Qed.

(** The mapping loop calls nothing but [VIDIOC_QUERYBUF], [mmap] and, when
    it fails, the error exit; when it succeeds every buffer is mapped. *)
Lemma map_buffers_spec n env (m : nat) : forall (k : nat),
  Forall (well_behaved n)
    (fst (map_buffers env (seqZ (Z.of_nat k) (Z.of_nat m))
            (replicate k Mapped ++ replicate m Unmapped)))
  /\ (forall p, snd (map_buffers env (seqZ (Z.of_nat k) (Z.of_nat m))
                       (replicate k Mapped ++ replicate m Unmapped)) = inr p ->
        p = replicate (k + m) Mapped).
Proof.
  induction m as [|m IH]; intros k.
  { simpl. split; [done|]. intros p [= <-]. by rewrite app_nil_r, Nat.add_0_r. }
  rewrite seqZ_of_nat_S, map_buffers_cons.
  destruct (r_QUERYBUF env (Z.of_nat k) <? 0).
  { simpl. split; [list_ok|discriminate]. }
  destruct (mmap_ok env (Z.of_nat k)).
  2:{ simpl. split; [list_ok|discriminate]. }
  rewrite Nat2Z.id, insert_replicate_boundary.
  destruct (IH (S k)) as [H1 H2]. simpl fst. simpl snd.
  split; [list_ok; done|].
  intros p Hp. rewrite (H2 p Hp). f_equal. lia.
Qed.

(** The queueing loop hands each buffer to the driver once, while the
    driver holds it as mapped; when it succeeds every buffer is queued. *)
Lemma queue_buffers_spec n env (m : nat) : forall (k : nat),
  Forall (well_behaved n)
    (fst (queue_buffers env (seqZ (Z.of_nat k) (Z.of_nat m))
            (replicate k Queued ++ replicate m Mapped)))
  /\ (forall p, snd (queue_buffers env (seqZ (Z.of_nat k) (Z.of_nat m))
                       (replicate k Queued ++ replicate m Mapped)) = inr p ->
        p = replicate (k + m) Queued).
Proof.
  induction m as [|m IH]; intros k.
  { simpl. split; [done|]. intros p [= <-]. by rewrite app_nil_r, Nat.add_0_r. }
  rewrite seqZ_of_nat_S, queue_buffers_cons.
  assert (Hheld : (replicate k Queued ++ replicate (S m) Mapped) !! k = Some Mapped).
  { rewrite lookup_app_r by (rewrite length_replicate; lia).
    rewrite length_replicate, Nat.sub_diag. done. }
  unfold qbuf. rewrite Nat2Z.id, Hheld.
  destruct (Z.ltb_spec (r_QBUF env (Z.of_nat k)) 0) as [Hlt|Hge]; simpl fst; simpl snd.
  { destruct (Z.ltb_spec (r_QBUF env (Z.of_nat k)) 0); [|lia].
    split; [list_ok; split; done | discriminate]. }
  destruct (Z.ltb_spec (Z.of_nat k) 0); [lia|]. simpl fst. simpl snd.
  destruct (Z.ltb_spec (r_QBUF env (Z.of_nat k)) 0); [lia|].
  first [rewrite insert_replicate_boundary | rewrite insert_replicate_boundary_cons].
  destruct (IH (S k)) as [H1 H2]. simpl fst. simpl snd.
  split; [list_ok; [split; done | done]|].
  intros p Hp. rewrite (H2 p Hp). f_equal. lia.
Qed.

Lemma seqZ_to_nat count : seqZ 0 count = seqZ (Z.of_nat 0) (Z.of_nat (Z.to_nat count)).
Proof. unfold seqZ. by rewrite Nat2Z.id. Qed.

Lemma bind_both {A B : Type} (P : effect -> Prop) (Q : B -> Prop)
    (m : M A) (k : A -> M B) :
  Forall P (fst m) ->
  (forall a, snd m = inr a ->
     Forall P (fst (k a)) /\ (forall b, snd (k a) = inr b -> Q b)) ->
  Forall P (fst (bind m k)) /\ (forall b, snd (bind m k) = inr b -> Q b).
Proof.
  intros Hm Hk. split.
  - apply bind_Forall; [done|]. intros a Ha. by apply Hk.
  - intros b. rewrite bind_result. destruct (snd m) as [code|a]; [discriminate|].
    by apply Hk.
Qed.

Ltac leaf := split; [list_ok | discriminate].
Ltac after_call := apply bind_both; [list_ok | intros _ _].

Lemma open_and_negotiate_well_behaved n d env :
  Forall (well_behaved n) (fst (open_and_negotiate d env)).
Proof.
  assert (H : Forall (well_behaved n) (fst (open_and_negotiate d env))
              /\ (forall x, snd (open_and_negotiate d env) = inr x -> True));
    [|by destruct H].
  unfold open_and_negotiate.
  after_call. destruct (r_SDL_Init env <? 0); [leaf|].
  after_call. destruct (r_open env <? 0); [leaf|].
  after_call. destruct (r_QUERYCAP env <? 0); [leaf|].
  destruct (_ =? 0); [leaf|].
  after_call. destruct (r_S_FMT env <? 0); [leaf|].
  by split.
Qed.

Lemma request_and_map_buffers_spec env :
  Forall (well_behaved (Z.to_nat (granted env))) (fst (request_and_map_buffers env))
  /\ (forall p, snd (request_and_map_buffers env) = inr p ->
        p = replicate (Z.to_nat (granted env)) Mapped).
Proof.
  unfold request_and_map_buffers.
  after_call. destruct (r_REQBUFS env <? 0); [leaf|].
  cbv zeta. after_call. rewrite seqZ_to_nat.
  apply (map_buffers_spec (Z.to_nat (granted env)) env (Z.to_nat (granted env)) 0%nat).
Qed.

Lemma queue_and_stream_spec env :
  Forall (well_behaved (Z.to_nat (granted env)))
    (fst (queue_and_stream env (replicate (Z.to_nat (granted env)) Mapped)))
  /\ (forall p, snd (queue_and_stream env (replicate (Z.to_nat (granted env)) Mapped))
                = inr p ->
        p = replicate (Z.to_nat (granted env)) Queued).
Proof.
  unfold queue_and_stream. rewrite seqZ_to_nat.
  destruct (queue_buffers_spec (Z.to_nat (granted env)) env (Z.to_nat (granted env)) 0%nat)
    as [Hq1 Hq2].
  apply bind_both; [exact Hq1|]. intros p Hp. apply Hq2 in Hp. subst p.
  after_call. destruct (r_STREAMON env <? 0); [leaf|].
  split; [done|]. by intros p [= <-].
Qed.

Lemma create_window_well_behaved n c env width height :
  Forall (well_behaved n) (fst (create_window c env width height)).
Proof.
  assert (H : Forall (well_behaved n) (fst (create_window c env width height))
              /\ (forall x, snd (create_window c env width height) = inr x -> True));
    [|by destruct H].
  unfold create_window. cbv zeta.
  after_call. destruct (negb (window_ok env)); [leaf|].
  after_call. destruct (negb (renderer_ok env)); [leaf|].
  unfold call_create_circular_shape. destruct (shape_ok env).
  - after_call. after_call. destruct (negb (texture_ok env)); [leaf|]. by split.
  - after_call. leaf.
Qed.

(** What start-up establishes: everything it calls is well behaved, and
    when it reaches the loop every granted buffer is queued, the window
    has the size asked for and nothing is pending. *)
Lemma initialise_spec c d env :
  Forall (well_behaved (Z.to_nat (granted env))) (fst (initialise c d env))
  /\ (forall s, snd (initialise c d env) = inr s ->
        slots s = replicate (Z.to_nat (granted env)) Queued
        /\ current_window_size (geo s) = cfg_window_size c
        /\ pending_resize (geo s) = 0
        /\ running s = 1
        /\ req_count (dev s) = granted env).
Proof.
  unfold initialise.
  apply bind_both; [apply open_and_negotiate_well_behaved|].
  intros [[width height] src] _.
  destruct (request_and_map_buffers_spec env) as [Hm1 Hm2].
  apply bind_both; [exact Hm1|]. intros p Hp. apply Hm2 in Hp. subst p.
  destruct (queue_and_stream_spec env) as [Hq1 Hq2].
  apply bind_both; [exact Hq1|]. intros p Hp. apply Hq2 in Hp. subst p.
  apply bind_both; [apply create_window_well_behaved|]. intros sh _.
  split; [done|]. by intros s [= <-].
Qed.

(** Everything [main] does is well behaved, for a pool of as many buffers
    as the driver granted; and while the loop runs its invariant holds. *)
Lemma main_well_behaved atoi argv env its :
  Forall (well_behaved (Z.to_nat (granted env))) (fst (main atoi argv env its))
  /\ (forall s, snd (main atoi argv env its) = inr s ->
        loop_invariant (Z.to_nat (granted env)) s).
Proof.
  unfold main.
  destruct (parse_command_line_well_behaved (Z.to_nat (granted env)) atoi argv)
    as [Hp1 Hp2].
  apply bind_both; [exact Hp1|]. intros cd Hcd. specialize (Hp2 cd Hcd).
  destruct (initialise_spec (fst cd) (snd cd) env) as [Hi1 Hi2].
  apply bind_both; [exact Hi1|]. intros s Hs.
  destruct (Hi2 s Hs) as (Hslots & Hcur & Hpend & _ & _).
  apply main_loop_well_behaved. split.
  - split; [|by rewrite Hpend].
    rewrite Hcur. unfold MIN_WINDOW_SIZE, MIN_SIZE in *. lia.
  - rewrite Hslots. split; [apply length_replicate|].
    apply Forall_replicate. by left.
Qed.

End StartUp.

(** ** Buffer allocation *)

Section Allocation.
Import Geometry Driver Main Props.

Lemma map_buffers_first_failure env (m : nat) : forall (k : nat) p i,
  Z.of_nat k <= i < Z.of_nat k + Z.of_nat m ->
  (forall j, Z.of_nat k <= j < i -> 0 <= r_QUERYBUF env j /\ mmap_ok env j = true) ->
  r_QUERYBUF env i < 0 \/ mmap_ok env i = false ->
  exists pre,
    map_buffers env (seqZ (Z.of_nat k) (Z.of_nat m)) p
    = (pre ++ [E_perror (if r_QUERYBUF env i <? 0 then "VIDIOC_QUERYBUF" else "mmap");
               E_free; E_close; E_SDL_Quit], inl 1).
Proof.
  induction m as [|m IH]; intros k p i Hi Hok Hbad; [lia|].
  rewrite seqZ_of_nat_S, map_buffers_cons.
  destruct (Z.eq_dec i (Z.of_nat k)) as [->|Hne].
  - destruct (Z.ltb_spec (r_QUERYBUF env (Z.of_nat k)) 0) as [Hq|Hq].
    + by exists [E_ioctl_QUERYBUF (Z.of_nat k)].
    + destruct Hbad as [|Hbad]; [lia|]. rewrite Hbad.
      by exists [E_ioctl_QUERYBUF (Z.of_nat k); E_mmap (Z.of_nat k)].
  - destruct (Hok (Z.of_nat k)) as [Hq Hm]; [lia|].
    destruct (Z.ltb_spec (r_QUERYBUF env (Z.of_nat k)) 0); [lia|]. rewrite Hm.
    destruct (IH (S k) (<[Z.to_nat (Z.of_nat k) := Mapped]> p) i) as [pre Hpre];
      [lia | intros j Hj; apply Hok; lia | done |].
    rewrite Hpre. simpl fst. simpl snd.
    exists ([E_ioctl_QUERYBUF (Z.of_nat k); E_mmap (Z.of_nat k)] ++ pre).
    by rewrite <- app_assoc.
Qed.

Lemma map_buffers_all_ok env (m : nat) : forall (k : nat) p,
  (forall j, Z.of_nat k <= j < Z.of_nat k + Z.of_nat m ->
     0 <= r_QUERYBUF env j /\ mmap_ok env j = true) ->
  exists p', snd (map_buffers env (seqZ (Z.of_nat k) (Z.of_nat m)) p) = inr p'.
Proof.
  induction m as [|m IH]; intros k p Hok; [by exists p|].
  rewrite seqZ_of_nat_S, map_buffers_cons.
  destruct (Hok (Z.of_nat k)) as [Hq Hm]; [lia|].
  destruct (Z.ltb_spec (r_QUERYBUF env (Z.of_nat k)) 0); [lia|]. rewrite Hm.
  simpl snd. apply IH. intros j Hj. apply Hok. lia.
Qed.

Lemma main_exit_in_allocation atoi argv env its cd fmt t code :
  snd (parse_command_line atoi argv) = inr cd ->
  snd (open_and_negotiate (snd cd) env) = inr fmt ->
  request_and_map_buffers env = (t, inl code) ->
  main atoi argv env its
  = (fst (parse_command_line atoi argv)
       ++ fst (open_and_negotiate (snd cd) env) ++ t, inl code).
Proof.
  intros Hp Ho Ha. unfold main, initialise.
  destruct (parse_command_line atoi argv) as [tp rp]. simpl in Hp. subst rp.
  simpl. destruct (open_and_negotiate (snd cd) env) as [to ro]. simpl in Ho. subst ro.
  destruct fmt as [[width height] src]. simpl. rewrite Ha. simpl.
  reflexivity.
Qed.

(** C1, as the code has it. Once the device is open and its format set:
    when [VIDIOC_REQBUFS] fails, or when the query or the mapping of some
    buffer fails, [main] prints the diagnostic of the failed call, releases
    the buffer table (in the mapping loop), closes the device, shuts SDL
    down and returns 1, and calls nothing after that. A driver that grants
    another number of buffers than the four requested is no error: when
    every query and mapping succeeds, the allocation succeeds with as many
    mapped buffers as were granted. *)
Theorem allocation_failure_exits (atoi : string -> Z) (argv : list string)
    (env : init_env) (its : list iteration) (cd : config * string)
    (fmt : Z * Z * SDL_Rect) :
  snd (parse_command_line atoi argv) = inr cd ->
  snd (open_and_negotiate (snd cd) env) = inr fmt ->
  (r_REQBUFS env < 0 ->
   snd (main atoi argv env its) = inl 1
   /\ exists pre, fst (main atoi argv env its)
                  = pre ++ [E_perror "VIDIOC_REQBUFS"; E_close; E_SDL_Quit])
  /\ (forall i, 0 <= r_REQBUFS env -> first_failure env i ->
      snd (main atoi argv env its) = inl 1
      /\ exists pre,
           fst (main atoi argv env its)
           = pre ++ [E_perror (if r_QUERYBUF env i <? 0
                               then "VIDIOC_QUERYBUF" else "mmap");
                     E_free; E_close; E_SDL_Quit])
  /\ (0 <= r_REQBUFS env ->
      (forall j, 0 <= j < granted env ->
         0 <= r_QUERYBUF env j /\ mmap_ok env j = true) ->
      snd (request_and_map_buffers env)
      = inr (replicate (Z.to_nat (granted env)) Mapped)).
Proof.
  intros Hp Ho. split; [|split].
  - intros Hr.
    assert (Ha : request_and_map_buffers env
                 = ([E_ioctl_REQBUFS 4; E_perror "VIDIOC_REQBUFS"; E_close; E_SDL_Quit],
                    inl 1)).
    { unfold request_and_map_buffers.
      by destruct (Z.ltb_spec (r_REQBUFS env) 0); [|lia]. }
    rewrite (main_exit_in_allocation atoi argv env its cd fmt _ _ Hp Ho Ha).
    split; [done|].
    exists (fst (parse_command_line atoi argv)
              ++ fst (open_and_negotiate (snd cd) env) ++ [E_ioctl_REQBUFS 4]).
    simpl. by rewrite <- !app_assoc.
  - intros i Hr (Hi & Hok & Hbad).
    destruct (map_buffers_first_failure env (Z.to_nat (granted env)) 0%nat
                (replicate (Z.to_nat (granted env)) Unmapped) i)
      as [pre Hpre]; [lia | intros j Hj; apply Hok; lia | done |].
    assert (Ha : request_and_map_buffers env
                 = ([E_ioctl_REQBUFS 4; E_calloc (granted env)] ++ pre
                      ++ [E_perror (if r_QUERYBUF env i <? 0
                                    then "VIDIOC_QUERYBUF" else "mmap");
                          E_free; E_close; E_SDL_Quit], inl 1)).
    { unfold request_and_map_buffers.
      destruct (Z.ltb_spec (r_REQBUFS env) 0); [lia|].
      rewrite seqZ_to_nat, Hpre. reflexivity. }
    rewrite (main_exit_in_allocation atoi argv env its cd fmt _ _ Hp Ho Ha).
    split; [done|].
    exists (fst (parse_command_line atoi argv)
              ++ fst (open_and_negotiate (snd cd) env)
              ++ [E_ioctl_REQBUFS 4; E_calloc (granted env)] ++ pre).
    simpl. by rewrite <- !app_assoc.
  - intros Hr Hok.
    destruct (request_and_map_buffers_spec env) as [_ Hspec].
    destruct (map_buffers_all_ok env (Z.to_nat (granted env)) 0%nat
                (replicate (Z.to_nat (granted env)) Unmapped)) as [p' Hp'].
    { intros j Hj. apply Hok. lia. }
    assert (Hsnd : snd (request_and_map_buffers env) = inr p').
    { unfold request_and_map_buffers.
      destruct (Z.ltb_spec (r_REQBUFS env) 0); [lia|].
      rewrite seqZ_to_nat. unfold bind, call. simpl.
      destruct (map_buffers env _ _) as [t r]. simpl in *. by subst r. }
    rewrite Hsnd. f_equal. by apply Hspec.
Qed.

Lemma allocation_failure_exits_witness :
  snd (main atoi_256 argv_256 (env_mmap_fails_at 2) one_frame_then_quit) = inl 1
  /\ (exists pre,
        fst (main atoi_256 argv_256 (env_mmap_fails_at 2) one_frame_then_quit)
        = pre ++ [E_perror "mmap"; E_free; E_close; E_SDL_Quit])
  /\ snd (request_and_map_buffers (env_grants 2)) = inr [Mapped; Mapped].
Proof.
  assert (Hp : snd (parse_command_line atoi_256 argv_256)
               = inr (mkConfig 256 (Some "/dev/video0") 0, "/dev/video0"))
    by reflexivity.
  split; [|split].
  - destruct (allocation_failure_exits atoi_256 argv_256 (env_mmap_fails_at 2)
                one_frame_then_quit _ (640, 480, mkRect 80 0 480 480) Hp eq_refl)
      as (_ & H & _).
    apply (H 2); [vm_compute; discriminate|].
    split; [vm_compute; split; [discriminate | reflexivity]|].
    split; [|right; reflexivity].
    intros j Hj. split; [vm_compute; discriminate|].
    unfold env_mmap_fails_at. simpl. destruct (Z.eqb_spec j 2); [lia|done].
  - destruct (allocation_failure_exits atoi_256 argv_256 (env_mmap_fails_at 2)
                one_frame_then_quit _ (640, 480, mkRect 80 0 480 480) Hp eq_refl)
      as (_ & H & _).
    apply (H 2); [vm_compute; discriminate|].
    split; [vm_compute; split; [discriminate | reflexivity]|].
    split; [|right; reflexivity].
    intros j Hj. split; [vm_compute; discriminate|].
    unfold env_mmap_fails_at. simpl. destruct (Z.eqb_spec j 2); [lia|done].
  - destruct (allocation_failure_exits atoi_256 argv_256 (env_grants 2)
                one_frame_then_quit _ (640, 480, mkRect 80 0 480 480) Hp eq_refl)
      as (_ & _ & H).
    apply H; [vm_compute; discriminate|].
    intros j Hj. split; [vm_compute; discriminate | reflexivity].
Defined.

(** C1 as stated fails twice. A driver that grants two of the four
    buffers does not make the program fail: it maps, queues and uses the
    two, and it returns 0 when the user quits. And when mapping buffer 2
    fails, the program returns 1 without unmapping buffers 0 and 1. *)
Lemma fewer_buffers_or_failed_mapping :
  snd (main atoi_256 argv_256 (env_grants 2) one_frame_then_quit) = inl 0
  /\ allocation_calls (fst (main atoi_256 argv_256 (env_grants 2) one_frame_then_quit))
     = [E_ioctl_REQBUFS 4; E_calloc 2; E_mmap 0; E_mmap 1;
        E_munmap 0; E_munmap 1; E_free]
  /\ main atoi_256 argv_256 (env_mmap_fails_at 2) one_frame_then_quit
     = ([E_SDL_Init; E_open "/dev/video0"; E_ioctl_QUERYCAP; E_ioctl_S_FMT;
         E_ioctl_REQBUFS 4; E_calloc 4;
         E_ioctl_QUERYBUF 0; E_mmap 0; E_ioctl_QUERYBUF 1; E_mmap 1;
         E_ioctl_QUERYBUF 2; E_mmap 2;
         E_perror "mmap"; E_free; E_close; E_SDL_Quit], inl 1).
Proof. repeat split; vm_compute; reflexivity. Qed.

End Allocation.

(** ** The buffer protocol, the size floor, transient capture errors *)

Section WholeProgram.
Import Geometry Driver Main Props.

(** C2, as the code has it. In every run of [main], at every observation
    point of every capture cycle (before [select], after the dequeue and
    after the requeue), the number of queued buffers plus the number of
    dequeued buffers is the size of the pool, which is the number of
    buffers the driver granted (four when it grants the four requested);
    and no [VIDIOC_QBUF], at start-up or in a cycle, names a buffer that is
    queued already. *)
Theorem pool_protocol_holds (atoi : string -> Z) (argv : list string)
    (env : init_env) (its : list iteration) :
  Forall (pool_protocol (Z.to_nat (granted env))) (fst (main atoi argv env its))
  /\ (forall s it, head (snd (capture s it)) = Some (E_observe_pool (slots s))).
Proof.
  split.
  - eapply Forall_impl; [apply main_well_behaved|]. by intros e [H _].
  - intros s it. unfold capture.
    destruct (select_ret it <? 0); [done|].
    destruct (select_ret it =? 0); [done|].
    destruct (dqbuf _ _ _) as [p1 r1].
    destruct (r1 <? 0); [done|]. by destruct (qbuf _ _ _).
Qed.

(** C2 as stated fails on the pool size: with a driver that grants two
    buffers the program runs with a pool of two, and queued plus dequeued
    is 2 at every observation point, not 4. *)
Lemma pool_of_two_is_not_four :
  observed_pools (fst (main atoi_256 argv_256 (env_grants 2) one_frame_then_quit))
  = [[Queued; Queued]; [Queued; Dequeued]; [Queued; Queued]; [Queued; Queued]]
  /\ ~ Forall (pool_protocol 4)
         (fst (main atoi_256 argv_256 (env_grants 2) one_frame_then_quit)).
Proof.
  split; [vm_compute; reflexivity|].
  intros H. rewrite Forall_forall in H.
  assert (Hin : E_observe_pool [Queued; Dequeued]
                ∈ fst (main atoi_256 argv_256 (env_grants 2) one_frame_then_quit)).
  { apply list_elem_of_In. vm_compute.
    repeat first [left; reflexivity | right]. }
  destruct (H _ Hin) as [Hlen _]. discriminate Hlen.
Qed.

Lemma key_minus_current g a :
  MIN_WINDOW_SIZE <= current_window_size g <= INT_MAX ->
  current_window_size (fst (key_minus g a))
  = Z.max MIN_WINDOW_SIZE (current_window_size g - SIZE_STEP).
Proof.
  intros Hc. unfold key_minus.
  rewrite (proj1 (resize_now_sizes _ _)), clamp_window_size_value. simpl.
  unfold int_sub. rewrite wrap_int_id; [done|].
  unfold in_int, INT_MIN, INT_MAX, MIN_WINDOW_SIZE, SIZE_STEP in *. lia.
Qed.

Lemma wheel_down_current g y a :
  y < 0 ->
  MIN_WINDOW_SIZE <= current_window_size g <= INT_MAX ->
  current_window_size (fst (mouse_wheel g y a))
  = Z.max MIN_WINDOW_SIZE (current_window_size g - SIZE_STEP).
Proof.
  intros Hy Hc. unfold mouse_wheel.
  destruct (Z.ltb_spec 0 y); [lia|]. destruct (Z.ltb_spec y 0); [|lia].
  rewrite (proj1 (resize_now_sizes _ _)), clamp_window_size_value. simpl.
  unfold int_sub. rewrite wrap_int_id; [done|].
  unfold in_int, INT_MIN, INT_MAX, MIN_WINDOW_SIZE, SIZE_STEP in *. lia.
Qed.

Lemma honoured_resize_current g k a c :
  MIN_WINDOW_SIZE <= k ->
  k <> current_window_size g ->
  RESIZE_STABILIZE_MS <= u32_sub (check_ticks c) (ticks a) ->
  actual_w c = k -> actual_h c = k ->
  current_window_size (fst (stabilized_resize (window_size_changed g k k a) c)) = k.
Proof.
  intros Hk Hne Ht Hw Hh.
  assert (Hrec : window_size_changed g k k a = set_pending g 1 k (ticks a)).
  { rewrite window_size_changed_spec, Z.min_id. unfold passes.
    destruct (Z.leb_spec MIN_WINDOW_SIZE k); [|lia].
    by destruct (Z.eqb_spec k (current_window_size g)). }
  rewrite Hrec.
  by apply (stabilized_resize_fires (set_pending g 1 k (ticks a)) c k).
Qed.

(** C10. The run-time minimum is [MIN_WINDOW_SIZE = 50], below the minimum
    of 100 that the command line enforces on [-s]. A [-] key and a
    wheel-down take the size down by one step and not below 50, a
    window-manager resize that the window manager honours takes it to any
    size from 50 on, and in every run of [main] every value committed to
    [current_window_size] is at least 50. *)
Theorem runtime_minimum_is_50 :
  MIN_WINDOW_SIZE = 50 /\ MIN_SIZE = 100 /\ MIN_WINDOW_SIZE < MIN_SIZE
  /\ (forall atoi argv cd,
        snd (parse_command_line atoi argv) = inr cd ->
        MIN_SIZE <= cfg_window_size (fst cd))
  /\ (forall g a,
        MIN_WINDOW_SIZE <= current_window_size g <= INT_MAX ->
        current_window_size (fst (key_minus g a))
        = Z.max MIN_WINDOW_SIZE (current_window_size g - SIZE_STEP))
  /\ (forall g y a,
        y < 0 ->
        MIN_WINDOW_SIZE <= current_window_size g <= INT_MAX ->
        current_window_size (fst (mouse_wheel g y a))
        = Z.max MIN_WINDOW_SIZE (current_window_size g - SIZE_STEP))
  /\ (forall g k a c,
        MIN_WINDOW_SIZE <= k ->
        k <> current_window_size g ->
        RESIZE_STABILIZE_MS <= u32_sub (check_ticks c) (ticks a) ->
        actual_w c = k -> actual_h c = k ->
        current_window_size (fst (stabilized_resize (window_size_changed g k k a) c))
        = k)
  /\ (forall atoi argv env its,
        Forall size_floor (fst (main atoi argv env its))
        /\ (forall s, snd (main atoi argv env its) = inr s ->
              MIN_WINDOW_SIZE <= current_window_size (geo s))).
Proof.
  split; [done|]. split; [done|]. split; [done|].
  split; [intros atoi argv; apply (parse_command_line_well_behaved 0%nat)|].
  split; [apply key_minus_current|].
  split; [apply wheel_down_current|].
  split; [apply honoured_resize_current|].
  intros atoi argv env its.
  destruct (main_well_behaved atoi argv env its) as [H1 H2]. split.
  - eapply Forall_impl; [exact H1|]. by intros e [_ H].
  - intros s Hs. by destruct (H2 s Hs) as [[Hc _] _].
Qed.

Lemma runtime_minimum_is_50_witness :
  MIN_SIZE <= 256
  /\ current_window_size (fst (key_minus g100 a_ok)) = 90
  /\ current_window_size (fst (key_minus g50 a_ok)) = 50
  /\ current_window_size (fst (mouse_wheel g50 (-1) a_ok)) = 50
  /\ current_window_size
       (fst (stabilized_resize (window_size_changed g100 50 50 (at_ticks 0))
               (mkCheck 100 50 50 true))) = 50.
Proof.
  destruct runtime_minimum_is_50 as (_ & _ & _ & Hp & Hk & Hw & Hm & _).
  split.
  { apply (Hp atoi_256 argv_256
             (mkConfig 256 (Some "/dev/video0") 0, "/dev/video0")). reflexivity. }
  split; [apply (Hk g100 a_ok); vm_compute; split; discriminate|].
  split; [apply (Hk g50 a_ok); vm_compute; split; discriminate|].
  split; [apply (Hw g50 (-1) a_ok); [lia | vm_compute; split; discriminate]|].
  apply (Hm g100 50 (at_ticks 0) (mkCheck 100 50 50 true));
    [vm_compute; discriminate | vm_compute; discriminate
    | vm_compute; discriminate | reflexivity | reflexivity].
Defined.

Lemma set_slots_same s : set_slots s (slots s) = s.
Proof. by destruct s. Qed.

Lemma dqbuf_failure p ret i : snd (dqbuf p ret i) < 0 -> fst (dqbuf p ret i) = p.
Proof.
  unfold dqbuf. destruct (Z.ltb_spec ret 0); [done|]. destruct (i <? 0); [done|].
  destruct (p !! Z.to_nat i) as [[]|]; try done. simpl. lia.
Qed.

Lemma qbuf_failure p i ret : snd (qbuf p i ret) < 0 -> fst (qbuf p i ret) = p.
Proof.
  unfold qbuf. destruct (Z.ltb_spec ret 0); [done|]. destruct (i <? 0); [done|].
  destruct (p !! Z.to_nat i) as [[]|]; try done; simpl; lia.
Qed.

(** The four ways in which the capture step fails: each prints its
    diagnostic and ends the step; a failed requeue leaves the buffer with
    the program. *)
Lemma capture_failure_cases (s : state) (it : iteration) :
  (select_ret it < 0 ->
   capture s it
   = (s, [E_observe_pool (slots s); E_select 2 0 (select_ret it); E_perror "select"]))
  /\ (select_ret it = 0 ->
      capture s it
      = (s, [E_observe_pool (slots s); E_select 2 0 0;
             E_fprintf_stderr "select timeout\n"]))
  /\ (0 < select_ret it ->
      snd (dqbuf (slots s) (dqbuf_ret it) (dqbuf_index it)) < 0 ->
      capture s it
      = (s, [E_observe_pool (slots s); E_select 2 0 (select_ret it);
             E_ioctl_DQBUF (snd (dqbuf (slots s) (dqbuf_ret it) (dqbuf_index it)))
               (dqbuf_index it);
             E_observe_pool (slots s); E_perror "VIDIOC_DQBUF"]))
  /\ (0 < select_ret it ->
      0 <= snd (dqbuf (slots s) (dqbuf_ret it) (dqbuf_index it)) ->
      snd (qbuf (fst (dqbuf (slots s) (dqbuf_ret it) (dqbuf_index it)))
             (dqbuf_index it) (qbuf_ret it)) < 0 ->
      capture s it
      = (set_slots s (fst (dqbuf (slots s) (dqbuf_ret it) (dqbuf_index it))),
         [E_observe_pool (slots s); E_select 2 0 (select_ret it);
          E_ioctl_DQBUF (snd (dqbuf (slots s) (dqbuf_ret it) (dqbuf_index it)))
            (dqbuf_index it);
          E_observe_pool (fst (dqbuf (slots s) (dqbuf_ret it) (dqbuf_index it)));
          E_SDL_UpdateTexture (dqbuf_index it) (wrap_int (u32 (pix_width (dev s) * 2)));
          E_ioctl_QBUF (dqbuf_index it)
            (snd (qbuf (fst (dqbuf (slots s) (dqbuf_ret it) (dqbuf_index it)))
                    (dqbuf_index it) (qbuf_ret it)))
            (fst (dqbuf (slots s) (dqbuf_ret it) (dqbuf_index it))
               !! Z.to_nat (dqbuf_index it));
          E_observe_pool (fst (dqbuf (slots s) (dqbuf_ret it) (dqbuf_index it)));
          E_perror "VIDIOC_QBUF"])).
Proof.
  split; [|split; [|split]].
  - intros Hs. unfold capture. by destruct (Z.ltb_spec (select_ret it) 0); [|lia].
  - intros Hs. unfold capture. rewrite Hs. done.
  - intros Hs Hd. unfold capture.
    destruct (Z.ltb_spec (select_ret it) 0); [lia|].
    destruct (Z.eqb_spec (select_ret it) 0); [lia|].
    pose proof (dqbuf_failure _ _ _ Hd) as Hp.
    destruct (dqbuf _ _ _) as [p1 r1]. simpl in *. subst p1.
    destruct (Z.ltb_spec r1 0); [|lia]. by rewrite set_slots_same.
  - intros Hs Hd Hq. unfold capture.
    destruct (Z.ltb_spec (select_ret it) 0); [lia|].
    destruct (Z.eqb_spec (select_ret it) 0); [lia|].
    pose proof (qbuf_failure _ _ _ Hq) as Hp.
    destruct (dqbuf _ _ _) as [p1 r1]. simpl in *.
    destruct (Z.ltb_spec r1 0); [lia|].
    destruct (qbuf _ _ _) as [p2 r2]. simpl in *. subst p2.
    by destruct (Z.ltb_spec r2 0); [|lia].
Qed.

End WholeProgram.

(** * Further properties *)

(** ** The command line *)

Section CommandLine.
Import Geometry Driver Main Props More.
Variable atoi : string -> Z.

Lemma parse_args_item (i : item) (rest : list string) (c : config) :
  well_formed i = true ->
  parse_args atoi (words i ++ rest) c
  = if size_ok atoi i then parse_args atoi rest (apply_item atoi c i)
    else ([E_fprintf_stderr "Error: Size must be at least %d pixels\n"], inl 1).
Proof.
  destruct i as [|v|d]; simpl; intros Hwf.
  - reflexivity.
  - destruct (Z.ltb_spec (atoi v) MIN_SIZE), (Z.leb_spec MIN_SIZE (atoi v));
      try lia; reflexivity.
  - unfold is_option in Hwf. apply negb_true_iff, orb_false_iff in Hwf.
    destruct Hwf as [-> ->]. reflexivity.
Qed.

Lemma parse_args_accepts (items : list item) : forall c,
  forallb well_formed items = true ->
  forallb (size_ok atoi) items = true ->
  parse_args atoi (command_words items) c
  = ([], inr (fold_left (apply_item atoi) items c)).
Proof.
  induction items as [|i items IH]; intros c Hwf Hok; [reflexivity|].
  simpl in Hwf, Hok. apply andb_true_iff in Hwf, Hok.
  destruct Hwf as [Hwf1 Hwf2], Hok as [Hok1 Hok2].
  unfold command_words. simpl flat_map.
  rewrite parse_args_item, Hok1 by done. by apply IH.
Qed.

(** Every [argv] is a sequence of items, possibly followed by a [-s] that
    has lost its value. *)
Lemma command_line_shape (n : nat) : forall args,
  (length args <= n)%nat ->
  exists items,
    forallb well_formed items = true
    /\ (args = command_words items \/ args = command_words items ++ ["-s"]).
Proof.
  induction n as [|n IH]; intros args Hlen.
  { destruct args; [|simpl in Hlen; lia]. exists []. split; [done|by left]. }
  destruct args as [|a rest]; [exists []; split; [done|by left]|].
  simpl in Hlen.
  destruct (String.eqb_spec a "-t") as [->|Ht].
  { destruct (IH rest) as (items & Hwf & Hsh); [lia|].
    exists (Top :: items). split; [done|].
    destruct Hsh as [->| ->]; [by left|by right]. }
  destruct (String.eqb_spec a "-s") as [->|Hs].
  { destruct rest as [|v rest'].
    - exists []. split; [done|by right].
    - destruct (IH rest') as (items & Hwf & Hsh); [simpl in Hlen; lia|].
      exists (Size v :: items). split; [done|].
      destruct Hsh as [->| ->]; [by left|by right]. }
  destruct (IH rest) as (items & Hwf & Hsh); [lia|].
  exists (Dev a :: items). split.
  { simpl. rewrite Hwf, andb_true_r. unfold is_option.
    apply negb_true_iff, orb_false_iff.
    split; by apply String.eqb_neq. }
  destruct Hsh as [->| ->]; [by left|by right].
Qed.

Lemma parse_args_prefix (items : list item) : forall more c,
  forallb well_formed items = true ->
  forallb (size_ok atoi) items = true ->
  parse_args atoi (command_words items ++ more) c
  = parse_args atoi more (fold_left (apply_item atoi) items c).
Proof.
  induction items as [|i items IH]; intros more c Hwf Hok; [reflexivity|].
  simpl in Hwf, Hok. apply andb_true_iff in Hwf, Hok.
  destruct Hwf as [Hwf1 Hwf2], Hok as [Hok1 Hok2].
  unfold command_words. simpl flat_map. rewrite <- app_assoc.
  rewrite parse_args_item, Hok1 by done. by apply IH.
Qed.

Lemma fold_apply_items (items : list item) : forall c,
  fold_left (apply_item atoi) items c = configured atoi items c.
Proof.
  induction items as [|i items IH]; intros c; [by destruct c|].
  simpl fold_left. rewrite IH. unfold configured.
  destruct i as [|v|d].
  - change (sizes (Top :: items)) with (sizes items).
    change (devices (Top :: items)) with (devices items).
    change (has_top (Top :: items)) with true.
    simpl. by destruct (has_top items).
  - change (sizes (Size v :: items)) with (v :: sizes items).
    change (devices (Size v :: items)) with (devices items).
    change (has_top (Size v :: items)) with (has_top items).
    rewrite last_cons. simpl. by destruct (last (sizes items)).
  - change (sizes (Dev d :: items)) with (sizes items).
    change (devices (Dev d :: items)) with (d :: devices items).
    change (has_top (Dev d :: items)) with (has_top items).
    rewrite last_cons. simpl. by destruct (last (devices items)).
Qed.

(** X1. An accepted command line: any sequence of [-t], [-s <size>] with a
    size of at least 100, and device names, of at most four words, with at
    least one device name. Nothing is printed; the window size is that of
    the last [-s] (480 without one), the device is the last name given,
    and always-on-top is set when [-t] occurs anywhere. *)
Theorem accepted_command_line (prog : string) (items : list item) (d : string) :
  forallb well_formed items = true ->
  forallb (size_ok atoi) items = true ->
  (length (command_words items) <= 4)%nat ->
  last (devices items) = Some d ->
  parse_command_line atoi (prog :: command_words items)
  = ([], inr (mkConfig
                (match last (sizes items) with
                 | Some v => atoi v
                 | None => DEFAULT_SIZE
                 end)
                (Some d)
                (if has_top items then 1 else 0), d)).
Proof.
  intros Hwf Hok Hlen Hd. unfold parse_command_line.
  assert (Hne : (1 <= length (command_words items))%nat).
  { destruct items as [|i items]; [discriminate Hd|].
    unfold command_words. simpl. rewrite length_app. destruct i; simpl; lia. }
  rewrite length_cons.
  destruct (Z.ltb_spec (Z.of_nat (S (length (command_words items)))) 2); [lia|].
  destruct (Z.ltb_spec 5 (Z.of_nat (S (length (command_words items))))); [lia|].
  simpl tail. simpl orb. cbv iota.
  rewrite parse_args_accepts, fold_apply_items by done.
  unfold bind, configured, default_config. simpl. by rewrite Hd.
Qed.

End CommandLine.

Lemma accepted_command_line_witness :
  Main.parse_command_line More.atoi_decimal
    ("circam" :: More.command_words
                   [More.Dev "/dev/video1"; More.Size "256"; More.Dev "/dev/video0"])
  = ([], inr (Main.mkConfig 256 (Some "/dev/video0") 0, "/dev/video0")).
Proof.
  apply (accepted_command_line More.atoi_decimal "circam"
           [More.Dev "/dev/video1"; More.Size "256"; More.Dev "/dev/video0"]
           "/dev/video0"); [reflexivity | reflexivity | vm_compute; lia | reflexivity].
Defined.

Section Rejection.
Import Geometry Driver Main Props More.
Variable atoi : string -> Z.

(** X2. How [parse_args] rejects. After any accepted items, a [-s] whose
    value is below 100 ends the parsing with the size message, whatever
    follows it; a [-s] that is the last word ends it with the message
    about the missing value. Every list of words is a sequence of items
    with or without such a last [-s], so no other rejection exists. *)
Theorem parse_args_rejections (items : list item) (c : config) :
  forallb well_formed items = true ->
  forallb (size_ok atoi) items = true ->
  (forall v more,
      atoi v < MIN_SIZE ->
      parse_args atoi (command_words items ++ "-s" :: v :: more) c
      = ([E_fprintf_stderr "Error: Size must be at least %d pixels\n"], inl 1))
  /\ parse_args atoi (command_words items ++ ["-s"]) c
     = ([E_fprintf_stderr "Error: -s requires a size value\n"], inl 1)
  /\ (forall args : list string,
        exists items',
          forallb well_formed items' = true
          /\ (args = command_words items' \/ args = command_words items' ++ ["-s"])).
Proof.
  intros Hwf Hok. split; [|split].
  - intros v more Hv. rewrite parse_args_prefix by done. simpl.
    by destruct (Z.ltb_spec (atoi v) MIN_SIZE); [|lia].
  - by rewrite parse_args_prefix.
  - intros args. by apply (command_line_shape (length args)).
Qed.

Lemma parse_args_outcome (k : nat) : forall args c,
  (length args <= k)%nat ->
  match snd (parse_args atoi args c) with
  | inl code => code = 1 /\ exists msg, fst (parse_args atoi args c) = [E_fprintf_stderr msg]
  | inr _ => fst (parse_args atoi args c) = []
  end.
Proof.
  induction k as [|k IH]; intros args c Hlen.
  { destruct args; [done|simpl in Hlen; lia]. }
  destruct args as [|a rest]; [done|]. simpl in Hlen. simpl.
  destruct (String.eqb a "-t"); [apply IH; lia|].
  destruct (String.eqb a "-s"); [|apply IH; lia].
  destruct rest as [|v rest']; [simpl; eauto|].
  destruct (atoi v <? MIN_SIZE); [simpl; eauto|].
  apply IH. simpl in Hlen. lia.
Qed.

(** X3. The argument count and the device. With no argument or more than
    four, [main] prints the usage and the example and rejects the command
    line; an otherwise acceptable command line that names no device is
    rejected with the message about the device and the usage. *)
Theorem command_lines_without_device (argv : list string) (prog : string)
    (items : list item) :
  ((length argv < 2)%nat \/ (5 < length argv)%nat ->
   parse_command_line atoi argv
   = ([E_fprintf_stderr "Usage: %s [-t] [-s <size>] <video_device>\n";
       E_fprintf_stderr "Example: %s -t -s 256 /dev/video0\n"], inl 1))
  /\ (forallb well_formed items = true ->
      forallb (size_ok atoi) items = true ->
      (1 <= length (command_words items) <= 4)%nat ->
      devices items = [] ->
      parse_command_line atoi (prog :: command_words items)
      = ([E_fprintf_stderr "Error: No video device specified\n";
          E_fprintf_stderr "Usage: %s [-t] [-s <size>] <video_device>\n"], inl 1)).
Proof.
  split.
  - intros Hlen. unfold parse_command_line.
    destruct (Z.ltb_spec (Z.of_nat (length argv)) 2),
             (Z.ltb_spec 5 (Z.of_nat (length argv))); try reflexivity; lia.
  - intros Hwf Hok Hlen Hd. unfold parse_command_line. rewrite length_cons.
    destruct (Z.ltb_spec (Z.of_nat (S (length (command_words items)))) 2); [lia|].
    destruct (Z.ltb_spec 5 (Z.of_nat (S (length (command_words items))))); [lia|].
    simpl tail. simpl orb. cbv iota.
    rewrite parse_args_accepts, fold_apply_items by done.
    unfold bind, configured. rewrite Hd. reflexivity.
Qed.

(** X4. A rejected command line costs nothing: [main] returns 1 having
    printed one or two messages to [stderr] and called nothing else, so it
    never initialises SDL and never opens the device. *)
Theorem rejected_command_line_touches_nothing (argv : list string)
    (env : init_env) (its : list iteration) (code : Z) :
  snd (parse_command_line atoi argv) = inl code ->
  code = 1
  /\ main atoi argv env its = (fst (parse_command_line atoi argv), inl 1)
  /\ forallb is_stderr (fst (main atoi argv env its)) = true
  /\ (1 <= length (fst (main atoi argv env its)) <= 2)%nat.
Proof.
  intros Hrej.
  assert (H : code = 1
              /\ forallb is_stderr (fst (parse_command_line atoi argv)) = true
              /\ (1 <= length (fst (parse_command_line atoi argv)) <= 2)%nat).
  { revert Hrej. unfold parse_command_line.
    destruct (_ || _); [simpl; intros [= <-]; repeat split; lia|].
    pose proof (parse_args_outcome (length (tail argv)) (tail argv)
                  (mkConfig DEFAULT_SIZE None 0) (le_n _)) as Hout.
    rewrite bind_result, bind_trace.
    destruct (parse_args atoi (tail argv) _) as [t [c1|c]]; simpl in *.
    - destruct Hout as [-> [msg ->]]. intros [= <-]. repeat split; simpl; lia.
    - subst t. destruct (cfg_video_device c); [discriminate|].
      simpl. intros [= <-]. repeat split; lia. }
  destruct H as (-> & Hs & Hl).
  assert (Hm : main atoi argv env its = (fst (parse_command_line atoi argv), inl 1)).
  { unfold main. destruct (parse_command_line atoi argv) as [t r].
    simpl in Hrej. subst r. reflexivity. }
  rewrite Hm. simpl. split; [done|]. split; [done|]. split; [exact Hs | exact Hl].
Qed.

End Rejection.

Lemma parse_args_rejections_witness :
  Main.parse_args More.atoi_decimal
    (More.command_words [More.Top] ++ ["-s"; "50"; "/dev/video0"]) More.default_config
  = ([E_fprintf_stderr "Error: Size must be at least %d pixels\n"], inl 1).
Proof.
  destruct (parse_args_rejections More.atoi_decimal [More.Top] More.default_config)
    as (H & _ & _); [reflexivity | reflexivity |].
  apply H. vm_compute. reflexivity.
Defined.

Lemma command_lines_without_device_witness :
  Main.parse_command_line More.atoi_decimal ["circam"]
  = ([E_fprintf_stderr "Usage: %s [-t] [-s <size>] <video_device>\n";
      E_fprintf_stderr "Example: %s -t -s 256 /dev/video0\n"], inl 1)
  /\ Main.parse_command_line More.atoi_decimal
       ("circam" :: More.command_words [More.Top; More.Size "256"])
     = ([E_fprintf_stderr "Error: No video device specified\n";
         E_fprintf_stderr "Usage: %s [-t] [-s <size>] <video_device>\n"], inl 1).
Proof.
  destruct (command_lines_without_device More.atoi_decimal ["circam"] "circam"
              [More.Top; More.Size "256"]) as [H1 H2].
  split; [apply H1; left; simpl; lia|].
  apply H2; [reflexivity | reflexivity | vm_compute; lia | reflexivity].
Defined.

Lemma rejected_command_line_touches_nothing_witness :
  Main.main More.atoi_decimal ["circam"; "-s"; "50"; "/dev/video0"]
    (Props.env_grants 4) Props.one_frame_then_quit
  = ([E_fprintf_stderr "Error: Size must be at least %d pixels\n"], inl 1).
Proof.
  destruct (rejected_command_line_touches_nothing More.atoi_decimal
              ["circam"; "-s"; "50"; "/dev/video0"]
              (Props.env_grants 4) Props.one_frame_then_quit 1 eq_refl)
    as (_ & H & _).
  exact H.
Defined.

(** ** The crop rectangle, dragging, the tick counter *)

Section Pointer.
Import Geometry Driver Main Props More.

Lemma open_and_negotiate_result d env x :
  snd (open_and_negotiate d env) = inr x ->
  let width := u32 (fmt_width env) in
  let height := u32 (fmt_height env) in
  let crop_size := wrap_int (if width <? height then width else height) in
  x = (width, height,
       mkRect (wrap_int (u32 (width - u32 crop_size) / 2))
              (wrap_int (u32 (height - u32 crop_size) / 2)) crop_size crop_size)
  /\ 0 <= r_SDL_Init env /\ 0 <= r_open env /\ 0 <= r_QUERYCAP env
  /\ Z.land (capabilities env) V4L2_CAP_VIDEO_CAPTURE <> 0
  /\ 0 <= r_S_FMT env.
Proof.
  unfold open_and_negotiate, bind, call, return_, ret. simpl.
  destruct (Z.ltb_spec (r_SDL_Init env) 0); [discriminate|].
  destruct (Z.ltb_spec (r_open env) 0); [discriminate|].
  destruct (Z.ltb_spec (r_QUERYCAP env) 0); [discriminate|].
  destruct (Z.eqb_spec (Z.land (capabilities env) V4L2_CAP_VIDEO_CAPTURE) 0);
    [discriminate|].
  destruct (Z.ltb_spec (r_S_FMT env) 0); [discriminate|].
  simpl. intros [= <-]. by repeat split.
Qed.

(** X5. The crop rectangle. For a frame format with dimensions in the
    range of [int], the source rectangle is the square of side
    [min width height], it lies inside the frame, it starts at the frame's
    edge along the shorter dimension, and along the longer one it is
    centred: the margin before it is the margin after it or one pixel
    less. *)
Theorem crop_is_a_centred_square (d : string) (env : init_env)
    (width height : Z) (src : SDL_Rect) :
  0 <= fmt_width env <= INT_MAX ->
  0 <= fmt_height env <= INT_MAX ->
  snd (open_and_negotiate d env) = inr (width, height, src) ->
  width = fmt_width env /\ height = fmt_height env
  /\ rect_w src = Z.min width height /\ rect_h src = Z.min width height
  /\ 0 <= rect_x src /\ 0 <= rect_y src
  /\ rect_x src + rect_w src <= width /\ rect_y src + rect_h src <= height
  /\ (rect_x src = 0 \/ rect_y src = 0)
  /\ 0 <= (width - rect_w src - rect_x src) - rect_x src <= 1
  /\ 0 <= (height - rect_h src - rect_y src) - rect_y src <= 1.
Proof.
  intros Hw Hh Hres. apply open_and_negotiate_result in Hres.
  destruct Hres as [Hres _]. unfold INT_MAX in *.
  assert (Huw : u32 (fmt_width env) = fmt_width env)
    by (unfold u32; apply Z.mod_small; lia).
  assert (Huh : u32 (fmt_height env) = fmt_height env)
    by (unfold u32; apply Z.mod_small; lia).
  rewrite Huw, Huh in Hres.
  set (m := Z.min (fmt_width env) (fmt_height env)).
  assert (Hm : (if fmt_width env <? fmt_height env then fmt_width env
                else fmt_height env) = m).
  { unfold m. destruct (Z.ltb_spec (fmt_width env) (fmt_height env)); lia. }
  rewrite Hm in Hres.
  assert (Hwm : wrap_int m = m)
    by (apply wrap_int_id; unfold in_int, INT_MIN, INT_MAX, m; lia).
  rewrite Hwm in Hres.
  assert (Hum : u32 m = m) by (unfold u32; apply Z.mod_small; unfold m; lia).
  rewrite Hum in Hres.
  assert (Hx : wrap_int (u32 (fmt_width env - m) / 2) = (fmt_width env - m) / 2).
  { unfold u32. rewrite Z.mod_small by (unfold m; lia).
    apply wrap_int_id. unfold in_int, INT_MIN, INT_MAX.
    pose proof (Z.div_pos (fmt_width env - m) 2).
    pose proof (Z.div_le_upper_bound (fmt_width env - m) 2 (fmt_width env - m)).
    unfold m in *. lia. }
  assert (Hy : wrap_int (u32 (fmt_height env - m) / 2) = (fmt_height env - m) / 2).
  { unfold u32. rewrite Z.mod_small by (unfold m; lia).
    apply wrap_int_id. unfold in_int, INT_MIN, INT_MAX.
    pose proof (Z.div_pos (fmt_height env - m) 2).
    pose proof (Z.div_le_upper_bound (fmt_height env - m) 2 (fmt_height env - m)).
    unfold m in *. lia. }
  rewrite Hx, Hy in Hres. injection Hres as -> -> ->. simpl.
  pose proof (Z.div_mod (fmt_width env - m) 2 ltac:(lia)).
  pose proof (Z.mod_pos_bound (fmt_width env - m) 2 ltac:(lia)).
  pose proof (Z.div_mod (fmt_height env - m) 2 ltac:(lia)).
  pose proof (Z.mod_pos_bound (fmt_height env - m) 2 ltac:(lia)).
  assert (Hcase : fmt_width env - m = 0 \/ fmt_height env - m = 0)
    by (unfold m; lia).
  repeat split; unfold m in *; lia.
Qed.

Lemma crop_is_a_centred_square_witness :
  rect_x (mkRect 80 0 480 480) + rect_w (mkRect 80 0 480 480) <= 640
  /\ 0 <= (640 - rect_w (mkRect 80 0 480 480) - rect_x (mkRect 80 0 480 480))
          - rect_x (mkRect 80 0 480 480) <= 1.
Proof.
  destruct (crop_is_a_centred_square "/dev/video0" (env_grants 4) 640 480
              (mkRect 80 0 480 480))
    as (_ & _ & _ & _ & _ & _ & H7 & _ & _ & H10 & _);
    [vm_compute; split; discriminate | vm_compute; split; discriminate
    | reflexivity |].
  split; [exact H7 | exact H10].
Defined.

(** X6. Dragging is a translation by the pointer's displacement. After a
    left button press at pointer position [p0] with the window at [w0],
    every pointer motion to [p] moves the window to [w0 + (p - p0)]: the
    anchor stays where the press recorded it. Once the left button is
    released, pointer motion moves nothing. *)
Theorem drag_is_a_translation (s : state) (down move up : answers) :
  in_int (mouse_x move - mouse_x down) ->
  in_int (mouse_y move - mouse_y down) ->
  in_int (win_x down + (mouse_x move - mouse_x down)) ->
  in_int (win_y down + (mouse_y move - mouse_y down)) ->
  let s1 := fst (handle_event s (SDL_MOUSEBUTTONDOWN SDL_BUTTON_LEFT, down)) in
  let s2 := fst (handle_event s1 (SDL_MOUSEBUTTONUP SDL_BUTTON_LEFT, up)) in
  handle_event s1 (SDL_MOUSEMOTION, move)
  = (s1, [E_SDL_SetWindowPosition (win_x down + (mouse_x move - mouse_x down))
            (win_y down + (mouse_y move - mouse_y down))])
  /\ handle_event s2 (SDL_MOUSEMOTION, move) = (s2, []).
Proof.
  intros H1 H2 H3 H4 s1 s2. simpl. unfold int_add, int_sub.
  by rewrite (wrap_int_id _ H1), (wrap_int_id _ H2), (wrap_int_id _ H3),
    (wrap_int_id _ H4).
Qed.

Lemma drag_is_a_translation_witness :
  handle_event (fst (handle_event (state_of g480)
                       (SDL_MOUSEBUTTONDOWN SDL_BUTTON_LEFT, grab)))
    (SDL_MOUSEMOTION, pointer_moved)
  = (fst (handle_event (state_of g480) (SDL_MOUSEBUTTONDOWN SDL_BUTTON_LEFT, grab)),
     [E_SDL_SetWindowPosition 140 40]).
Proof.
  destruct (drag_is_a_translation (state_of g480) grab pointer_moved a_ok)
    as [H _];
    [vm_compute; split; discriminate | vm_compute; split; discriminate
    | vm_compute; split; discriminate | vm_compute; split; discriminate |].
  exact H.
Defined.

Lemma mouse_event_frame s ea :
  is_mouse_event ea = true ->
  geo (fst (handle_event s ea)) = geo s
  /\ running (fst (handle_event s ea)) = running s
  /\ slots (fst (handle_event s ea)) = slots s
  /\ forallb is_set_position (snd (handle_event s ea)) = true.
Proof.
  destruct ea as [ev a]. unfold is_mouse_event. simpl.
  destruct ev as [|[]|[]|[]| | | | |]; try done; intros _; simpl; try done.
  by destruct (negb _).
Qed.

Lemma other_event_frame s ea :
  is_mouse_event ea = false ->
  drag (fst (handle_event s ea)) = drag s
  /\ forallb (λ e, negb (is_set_position e)) (snd (handle_event s ea)) = true.
Proof.
  destruct ea as [ev a]. unfold is_mouse_event. simpl.
  destruct ev as [|[]|[]|[]| |y|d1 d2| |]; try done; intros _; simpl; try done.
  - unfold key_plus. rewrite resize_now_spec. simpl.
    unfold call_create_circular_shape. by destruct (surface_ok a).
  - unfold key_plus. rewrite resize_now_spec. simpl.
    unfold call_create_circular_shape. by destruct (surface_ok a).
  - unfold key_minus. rewrite resize_now_spec. simpl.
    unfold call_create_circular_shape. by destruct (surface_ok a).
  - unfold mouse_wheel. rewrite resize_now_spec. simpl.
    unfold call_create_circular_shape. by destruct (surface_ok a).
Qed.

(** X7. Dragging and resizing do not interact. Button and motion events
    leave the sizes, the mask, the pending resize, [running] and the
    buffers alone and call nothing but [SDL_SetWindowPosition]; all other
    events leave the drag variables alone and never move the window. *)
Theorem drag_and_resize_are_orthogonal (evs : list (SDL_Event * answers))
    (s : state) :
  (forallb is_mouse_event evs = true ->
   geo (fst (poll_events s evs)) = geo s
   /\ running (fst (poll_events s evs)) = running s
   /\ slots (fst (poll_events s evs)) = slots s
   /\ forallb is_set_position (snd (poll_events s evs)) = true)
  /\ (forallb (λ ea, negb (is_mouse_event ea)) evs = true ->
      drag (fst (poll_events s evs)) = drag s
      /\ forallb (λ e, negb (is_set_position e)) (snd (poll_events s evs)) = true).
Proof.
  revert s. induction evs as [|ea evs IH]; intros s; [by split|].
  destruct (IH (fst (handle_event s ea))) as [IH1 IH2].
  rewrite poll_events_cons_state, poll_events_cons_trace.
  split; simpl; intros H; apply andb_true_iff in H; destruct H as [Ha Hevs].
  - destruct (mouse_event_frame s ea Ha) as (G & R & S & T).
    destruct (IH1 Hevs) as (G' & R' & S' & T').
    rewrite G', R', S', G, R, S, forallb_app, T, T'. by repeat split.
  - apply negb_true_iff in Ha.
    destruct (other_event_frame s ea Ha) as (D & T).
    destruct (IH2 Hevs) as (D' & T').
    rewrite D', D, forallb_app, T, T'. by split.
Qed.

Lemma drag_and_resize_are_orthogonal_witness :
  geo (fst (poll_events (state_of g480)
              [(SDL_MOUSEBUTTONDOWN SDL_BUTTON_LEFT, grab);
               (SDL_MOUSEMOTION, pointer_moved)])) = g480
  /\ drag (fst (poll_events (state_of g480)
                  [(SDL_KEYDOWN SDLK_PLUS, a_ok); (SDL_MOUSEWHEEL 1, a_ok)]))
     = mkDrag 0 0 0 0 0.
Proof.
  split.
  - destruct (drag_and_resize_are_orthogonal
                [(SDL_MOUSEBUTTONDOWN SDL_BUTTON_LEFT, grab);
                 (SDL_MOUSEMOTION, pointer_moved)] (state_of g480)) as [H _].
    apply H. reflexivity.
  - destruct (drag_and_resize_are_orthogonal
                [(SDL_KEYDOWN SDLK_PLUS, a_ok); (SDL_MOUSEWHEEL 1, a_ok)]
                (state_of g480)) as [_ H].
    apply H. reflexivity.
Defined.

Lemma u32_sub_of_ticks t0 t1 :
  0 <= t1 - t0 < 2 ^ 32 -> u32_sub (u32 t1) (u32 t0) = t1 - t0.
Proof.
  intros H. unfold u32_sub, u32.
  rewrite <- Zminus_mod. by apply Z.mod_small.
Qed.

(** X8. The debounce survives the wrap-around of the tick counter. When
    the request was recorded at tick [t0] and the check happens at tick
    [t1], both read modulo 2^32 and less than 2^32 ticks apart, the pending
    resize is attempted exactly when [t1 - t0 >= 100], also when the
    counter wrapped in between. *)
Theorem debounce_survives_tick_wraparound (g : geometry) (c : check_answers)
    (t0 t1 : Z) :
  pending_resize g <> 0 ->
  last_resize_time g = u32 t0 ->
  check_ticks c = u32 t1 ->
  0 <= t1 - t0 < 2 ^ 32 ->
  (RESIZE_STABILIZE_MS <= t1 - t0 ->
   applied_resizes (snd (stabilized_resize g c)) = [pending_size g]
   /\ pending_resize (fst (stabilized_resize g c)) = 0)
  /\ (t1 - t0 < RESIZE_STABILIZE_MS -> stabilized_resize g c = (g, [])).
Proof.
  intros Hp H0 H1 Hd.
  assert (He : elapsed g c = t1 - t0).
  { unfold elapsed. rewrite H0, H1. by apply u32_sub_of_ticks. }
  assert (Hpend : pending g = Some (pending_size g)).
  { unfold pending. by destruct (Z.eqb_spec (pending_resize g) 0). }
  split.
  - intros Hge.
    destruct (stabilized_resize_fires g c (pending_size g) Hpend) as (Ht & Hn & _);
      [lia|].
    split; [done|]. unfold pending in Hn.
    by destruct (Z.eqb_spec (pending_resize (fst (stabilized_resize g c))) 0).
  - intros Hlt. apply stabilized_resize_idle. right. lia.
Qed.

Lemma debounce_survives_tick_wraparound_witness :
  applied_resizes (snd (stabilized_resize g_before_wrap c_after_wrap)) = [300]
  /\ pending_resize (fst (stabilized_resize g_before_wrap c_after_wrap)) = 0.
Proof.
  destruct (debounce_survives_tick_wraparound g_before_wrap c_after_wrap
              (2 ^ 32 - 50) (2 ^ 32 + 60)) as [H _];
    [discriminate | reflexivity | reflexivity | lia |].
  apply H. vm_compute. discriminate.
Defined.

End Pointer.

(** ** The phases of [main] *)

Section Phases.
Import Geometry Driver Main Props More.

(** [main], phase by phase: each phase either makes [main] return or
    hands over to the next. *)
Lemma main_phases atoi argv env its :
  main atoi argv env its
  = match parse_command_line atoi argv with
    | (tp, inl code) => (tp, inl code)
    | (tp, inr cd) =>
      match open_and_negotiate (snd cd) env with
      | (to, inl code) => (tp ++ to, inl code)
      | (to, inr fmt) =>
        match request_and_map_buffers env with
        | (ta, inl code) => (tp ++ to ++ ta, inl code)
        | (ta, inr p) =>
          match queue_and_stream env p with
          | (tq, inl code) => (tp ++ to ++ ta ++ tq, inl code)
          | (tq, inr p') =>
            match create_window (fst cd) env (fst (fst fmt)) (snd (fst fmt)) with
            | (tw, inl code) => (tp ++ to ++ ta ++ tq ++ tw, inl code)
            | (tw, inr sh) =>
                (tp ++ to ++ ta ++ tq ++ tw
                   ++ fst (main_loop (initial_state (fst cd) fmt p' sh env) its),
                 snd (main_loop (initial_state (fst cd) fmt p' sh env) its))
            end
          end
        end
      end
    end.
Proof.
  unfold main, initialise.
  destruct (parse_command_line atoi argv) as [tp [code|cd]]; [reflexivity|].
  simpl. destruct (open_and_negotiate (snd cd) env) as [to [code|fmt]];
    [by rewrite ?app_nil_r|].
  destruct fmt as [[width height] src]. simpl.
  destruct (request_and_map_buffers env) as [ta [code|p]]; [reflexivity|].
  simpl. destruct (queue_and_stream env p) as [tq [code|p']]; [reflexivity|].
  simpl. destruct (create_window (fst cd) env width height) as [tw [code|sh]];
    [reflexivity|].
  simpl. unfold initial_state. simpl.
  destruct (main_loop _ its) as [tl r]. simpl.
  by rewrite app_nil_r, <- !app_assoc.
Qed.

End Phases.

(** ** What the loop does and does not do *)

Section Loop.
Import Geometry Driver Main Props More.

Lemma resize_now_effects g ok : forallb loop_effect (snd (resize_now g ok)) = true.
Proof.
  rewrite resize_now_spec. unfold call_create_circular_shape. by destruct ok.
Qed.

Lemma handle_event_effects s ea : forallb loop_effect (snd (handle_event s ea)) = true.
Proof.
  destruct ea as [ev a].
  destruct ev as [|[]|[]|[]| |y|d1 d2| |]; simpl; try done.
  - unfold key_plus. pose proof (resize_now_effects
      (clamp_window_size (set_window_size (geo s)
         (int_add (current_window_size (geo s)) SIZE_STEP))) (surface_ok a)).
    by destruct (resize_now _ _).
  - unfold key_plus. pose proof (resize_now_effects
      (clamp_window_size (set_window_size (geo s)
         (int_add (current_window_size (geo s)) SIZE_STEP))) (surface_ok a)).
    by destruct (resize_now _ _).
  - unfold key_minus. pose proof (resize_now_effects
      (clamp_window_size (set_window_size (geo s)
         (int_sub (current_window_size (geo s)) SIZE_STEP))) (surface_ok a)).
    by destruct (resize_now _ _).
  - by destruct (negb _).
  - unfold mouse_wheel.
    match goal with
    | |- context [resize_now ?g ?ok] =>
        pose proof (resize_now_effects g ok); by destruct (resize_now g ok)
    end.
Qed.

Lemma handle_event_device s ea :
  dev (fst (handle_event s ea)) = dev s /\ slots (fst (handle_event s ea)) = slots s.
Proof.
  destruct ea as [ev a].
  destruct ev as [|[]|[]|[]| |y|d1 d2| |]; simpl; try done.
  - by destruct (key_plus _ _).
  - by destruct (key_plus _ _).
  - by destruct (key_minus _ _).
  - by destruct (negb _).
  - by destruct (mouse_wheel _ _ _).
Qed.

Lemma poll_events_effects evs : forall s,
  forallb loop_effect (snd (poll_events s evs)) = true
  /\ dev (fst (poll_events s evs)) = dev s
  /\ slots (fst (poll_events s evs)) = slots s.
Proof.
  induction evs as [|ea evs IH]; intros s; [done|].
  rewrite poll_events_cons_state, poll_events_cons_trace, forallb_app.
  destruct (IH (fst (handle_event s ea))) as (H1 & H2 & H3).
  destruct (handle_event_device s ea) as [H4 H5].
  rewrite handle_event_effects, H1, H2, H3, H4, H5. done.
Qed.

Lemma stabilized_resize_effects g c :
  forallb loop_effect (snd (stabilized_resize g c)) = true.
Proof.
  unfold stabilized_resize.
  destruct (_ && _); [|done].
  destruct (_ && _); [|done].
  unfold replace_shape, call_create_circular_shape.
  by destruct (check_surface_ok c).
Qed.

Lemma capture_effects s it : forallb loop_effect (snd (capture s it)) = true.
Proof.
  unfold capture.
  destruct (select_ret it <? 0); [done|].
  destruct (select_ret it =? 0); [done|].
  destruct (dqbuf _ _ _) as [p1 r1].
  destruct (r1 <? 0); [done|].
  destruct (qbuf _ _ _) as [p2 r2]. simpl. by destruct (r2 <? 0).
Qed.

Lemma loop_body_effects s it :
  forallb loop_effect (snd (loop_body s it)) = true
  /\ dev (fst (loop_body s it)) = dev s.
Proof.
  rewrite loop_body_trace, loop_body_state, !forallb_app.
  destruct (poll_events_effects (events it) s) as (H1 & H2 & _).
  rewrite H1, stabilized_resize_effects, capture_effects.
  split; [done|].
  by rewrite (proj2 (proj2 (proj2 (capture_frame _ it)))).
Qed.

Lemma run_iterations_effects its : forall s,
  forallb loop_effect (snd (run_iterations s its)) = true
  /\ dev (fst (run_iterations s its)) = dev s.
Proof.
  induction its as [|it its IH]; intros s; [done|].
  rewrite run_iterations_cons. simpl fst. simpl snd. rewrite forallb_app.
  destruct (loop_body_effects s it) as [H1 H2].
  destruct (IH (fst (loop_body s it))) as [H3 H4].
  by rewrite H1, H3, H4, H2.
Qed.

(** Once [running] is cleared no event sets it again. *)
Lemma handle_event_stays_stopped s ea :
  running s = 0 \/ quit_request ea = true ->
  running (fst (handle_event s ea)) = 0.
Proof.
  destruct ea as [ev a]. unfold quit_request. simpl.
  destruct ev as [|[]|[]|[]| |y|d1 d2| |]; simpl; try done;
    intros [H|H]; try done.
  - by destruct (key_plus _ _).
  - by destruct (key_plus _ _).
  - by destruct (key_minus _ _).
  - by destruct (negb _).
  - by destruct (mouse_wheel _ _ _).
Qed.

Lemma poll_events_stops evs : forall s,
  running s = 0 \/ existsb quit_request evs = true ->
  running (fst (poll_events s evs)) = 0.
Proof.
  induction evs as [|ea evs IH]; intros s H.
  { destruct H as [H|H]; [done|discriminate]. }
  rewrite poll_events_cons_state. apply IH.
  simpl in H. destruct H as [H|H].
  - left. apply handle_event_stays_stopped. by left.
  - apply orb_true_iff in H. destruct H as [H|H]; [|by right].
    left. apply handle_event_stays_stopped. by right.
Qed.

Lemma main_loop_cons s it its :
  running s <> 0 ->
  main_loop s (it :: its)
  = (snd (loop_body s it) ++ fst (main_loop (fst (loop_body s it)) its),
     snd (main_loop (fst (loop_body s it)) its)).
Proof.
  intros Hr. simpl. destruct (Z.eqb_spec (running s) 0); [done|].
  destruct (loop_body s it) as [s1 t1]. simpl.
  by destruct (main_loop s1 its).
Qed.

Lemma main_loop_stopped s its : running s = 0 -> main_loop s its = (cleanup s, inl 0).
Proof. intros Hr. destruct its; simpl; by rewrite Hr. Qed.

(** [main_loop] either consumes all iterations and is still running, or
    returns 0 after the cleanup that follows the iterations it ran. *)
Lemma main_loop_outcome its : forall s,
  match snd (main_loop s its) with
  | inr s' =>
      fst (main_loop s its) = snd (run_iterations s its)
      /\ s' = fst (run_iterations s its)
  | inl code =>
      code = 0
      /\ exists used rest,
           its = used ++ rest
           /\ running (fst (run_iterations s used)) = 0
           /\ fst (main_loop s its)
              = snd (run_iterations s used) ++ cleanup (fst (run_iterations s used))
  end.
Proof.
  induction its as [|it its IH]; intros s.
  - simpl. destruct (Z.eqb_spec (running s) 0) as [Hr|Hr]; simpl; [|done].
    split; [done|]. exists [], []. simpl. by rewrite Hr.
  - destruct (Z.eq_dec (running s) 0) as [Hr|Hr].
    { rewrite main_loop_stopped by done. simpl. split; [done|].
      exists [], (it :: its). by repeat split. }
    rewrite main_loop_cons, run_iterations_cons by done. cbn [fst snd].
    specialize (IH (fst (loop_body s it))).
    destruct (snd (main_loop (fst (loop_body s it)) its)) as [code|s'].
    + destruct IH as (-> & used & rest & -> & Hrun & ->). split; [done|].
      exists (it :: used), rest. rewrite run_iterations_cons. cbn [fst snd].
      split; [done|]. split; [done|]. by rewrite app_assoc.
    + by destruct IH as [-> ->].
Qed.

Lemma main_loop_app before : forall s rest,
  running s <> 0 ->
  forallb (λ it, forallb (λ ea, negb (quit_request ea)) (events it)) before = true ->
  main_loop s (before ++ rest)
  = (snd (run_iterations s before)
       ++ fst (main_loop (fst (run_iterations s before)) rest),
     snd (main_loop (fst (run_iterations s before)) rest))
  /\ running (fst (run_iterations s before)) = running s.
Proof.
  induction before as [|it before IH]; intros s rest Hr Hq.
  { simpl. by destruct (main_loop s rest). }
  simpl in Hq. apply andb_true_iff in Hq. destruct Hq as [Hq1 Hq2].
  assert (Hr1 : running (fst (loop_body s it)) = running s).
  { rewrite loop_body_running. by apply poll_events_running. }
  destruct (IH (fst (loop_body s it)) rest) as [IH1 IH2]; [congruence|done|].
  rewrite <- app_comm_cons, main_loop_cons, run_iterations_cons, IH1 by done.
  cbn [fst snd]. split; [by rewrite app_assoc | congruence].
Qed.

(** X9. A quit request ends the loop at the end of its iteration. When
    the first [SDL_QUIT] or Escape arrives in some iteration, the events
    that follow it in that iteration are still handled and the iteration
    still renders and runs its capture step; then [main] runs the cleanup
    and returns 0. Later iterations are never started. *)
Theorem quit_ends_the_loop (s : state) (before : list iteration)
    (it : iteration) (after : list iteration) :
  running s <> 0 ->
  forallb (λ it, forallb (λ ea, negb (quit_request ea)) (events it)) before = true ->
  existsb quit_request (events it) = true ->
  main_loop s (before ++ it :: after)
  = (snd (run_iterations s (before ++ [it]))
       ++ cleanup (fst (run_iterations s (before ++ [it]))), inl 0).
Proof.
  intros Hr Hq Hquit.
  destruct (main_loop_app before s (it :: after) Hr Hq) as [-> Hr'].
  rewrite run_iterations_app. cbn [fst snd].
  set (s1 := fst (run_iterations s before)) in *.
  rewrite main_loop_cons by congruence. cbn [fst snd].
  assert (Hstop : running (fst (loop_body s1 it)) = 0).
  { rewrite loop_body_running. apply poll_events_stops. by right. }
  rewrite main_loop_stopped by done. cbn [fst snd].
  rewrite (run_iterations_cons s1 it []). cbn [fst snd run_iterations].
  by rewrite app_nil_r, app_assoc.
Qed.

Lemma quit_ends_the_loop_witness :
  main_loop (state_of g480) ([select_fails] ++ escape_then_plus :: [select_fails])
  = (snd (run_iterations (state_of g480) ([select_fails] ++ [escape_then_plus]))
       ++ cleanup (fst (run_iterations (state_of g480)
                          ([select_fails] ++ [escape_then_plus]))), inl 0)
  /\ current_window_size
       (geo (fst (run_iterations (state_of g480)
                    ([select_fails] ++ [escape_then_plus])))) = 490.
Proof.
  split; [|reflexivity].
  apply (quit_ends_the_loop (state_of g480) [select_fails] escape_then_plus
           [select_fails]); [discriminate | reflexivity | reflexivity].
Defined.

Lemma omap_none_forallb {A : Type} (f : effect -> option A) (k : effect -> bool)
    (t : list effect) :
  (forall e, k e = true -> f e = None) ->
  forallb k t = true -> omap f t = [].
Proof.
  intros Hk. induction t as [|e t IH]; [done|]. simpl.
  intros H. apply andb_true_iff in H. destruct H as [He Ht].
  change (omap f (e :: t)) with (match f e with Some x => x :: omap f t | None => omap f t end).
  rewrite (Hk e He). by apply IH.
Qed.

Lemma loop_effect_no_resource e : loop_effect e = true -> resource_call e = None.
Proof. by destruct e. Qed.

Lemma loop_effect_no_mmap e :
  loop_effect e = true ->
  match e with E_mmap i => Some i | _ => None end = None.
Proof. by destruct e. Qed.

Lemma loop_effect_no_munmap e :
  loop_effect e = true ->
  match e with E_munmap i => Some i | _ => None end = None.
Proof. by destruct e. Qed.

(** X10. The loop acquires and releases nothing. However many iterations
    run and whatever they are fed, the body of the loop never initialises
    or shuts down SDL, never opens or closes the device, never allocates
    or frees the buffer table, never maps or unmaps a buffer, never starts
    or stops streaming and never creates or destroys the window, the
    renderer or the texture; and it leaves the negotiated format, the crop
    rectangle and the buffer count as they are. *)
Theorem loop_acquires_and_releases_nothing (s : state) (its : list iteration) :
  resource_log (snd (run_iterations s its)) = []
  /\ mapped_buffers (snd (run_iterations s its)) = []
  /\ unmapped_buffers (snd (run_iterations s its)) = []
  /\ forallb loop_effect (snd (run_iterations s its)) = true
  /\ dev (fst (run_iterations s its)) = dev s.
Proof.
  destruct (run_iterations_effects its s) as [H1 H2].
  split; [exact (omap_none_forallb _ _ _ loop_effect_no_resource H1)|].
  split; [exact (omap_none_forallb _ _ _ loop_effect_no_mmap H1)|].
  split; [exact (omap_none_forallb _ _ _ loop_effect_no_munmap H1)|].
  by split.
Qed.

End Loop.

(** ** Capture errors *)

Section TransientErrors.
Import Geometry Driver Main Props More.

Lemma loop_body_before_capture s it :
  loop_body s it
  = (fst (capture (before_capture s it) it),
     before_capture_trace s it ++ snd (capture (before_capture s it) it))
  /\ slots (before_capture s it) = slots s
  /\ dev (before_capture s it) = dev s
  /\ running (before_capture s it) = running (fst (poll_events s (events it))).
Proof.
  unfold before_capture_trace, before_capture.
  destruct (poll_events_effects (events it) s) as (_ & Hd & Hs).
  split; [|by split].
  rewrite (surjective_pairing (loop_body s it)), loop_body_state, loop_body_trace.
  by rewrite <- !app_assoc.
Qed.

(** C8. In an iteration of the loop, a failed or timed-out [select] (the
    timeout is 2 seconds), a failed [VIDIOC_DQBUF] and a failed
    re-queueing [VIDIOC_QBUF] each print their diagnostic as the last call
    of the loop body, after the events were handled and the window was
    drawn. None of them changes [running]: the loop then runs the body of
    the next iteration in full, and as long as no quit request arrives
    [main] does not return. *)
Theorem capture_errors_are_transient (s : state) (it next : iteration)
    (more : list iteration) :
  running s <> 0 ->
  forallb (λ ea, negb (quit_request ea)) (events it) = true ->
  let s2 := before_capture s it in
  let pre := before_capture_trace s it in
  let r1 := snd (dqbuf (slots s) (dqbuf_ret it) (dqbuf_index it)) in
  let p1 := fst (dqbuf (slots s) (dqbuf_ret it) (dqbuf_index it)) in
  let r2 := snd (qbuf p1 (dqbuf_index it) (qbuf_ret it)) in
  (select_ret it < 0 ->
   loop_body s it
   = (s2, pre ++ [E_observe_pool (slots s); E_select 2 0 (select_ret it);
                  E_perror "select"]))
  /\ (select_ret it = 0 ->
      loop_body s it
      = (s2, pre ++ [E_observe_pool (slots s); E_select 2 0 0;
                     E_fprintf_stderr "select timeout\n"]))
  /\ (0 < select_ret it -> r1 < 0 ->
      loop_body s it
      = (s2, pre ++ [E_observe_pool (slots s); E_select 2 0 (select_ret it);
                     E_ioctl_DQBUF r1 (dqbuf_index it);
                     E_observe_pool (slots s); E_perror "VIDIOC_DQBUF"]))
  /\ (0 < select_ret it -> 0 <= r1 -> r2 < 0 ->
      loop_body s it
      = (set_slots s2 p1,
         pre ++ [E_observe_pool (slots s); E_select 2 0 (select_ret it);
                 E_ioctl_DQBUF r1 (dqbuf_index it);
                 E_observe_pool p1;
                 E_SDL_UpdateTexture (dqbuf_index it)
                   (wrap_int (u32 (pix_width (dev s) * 2)));
                 E_ioctl_QBUF (dqbuf_index it) r2 (p1 !! Z.to_nat (dqbuf_index it));
                 E_observe_pool p1;
                 E_perror "VIDIOC_QBUF"]))
  /\ running (fst (loop_body s it)) = running s
  /\ main_loop s (it :: next :: more)
     = (snd (loop_body s it)
          ++ snd (loop_body (fst (loop_body s it)) next)
          ++ fst (main_loop (fst (loop_body (fst (loop_body s it)) next)) more),
        snd (main_loop (fst (loop_body (fst (loop_body s it)) next)) more))
  /\ (forall its,
        forallb (λ it, forallb (λ ea, negb (quit_request ea)) (events it)) its = true ->
        exists t s',
          main_loop s (it :: its) = (snd (loop_body s it) ++ t, inr s')
          /\ running s' = running s).
Proof.
  intros Hrun Hq s2 pre r1 p1 r2.
  destruct (loop_body_before_capture s it) as (Hbody & Hslots & Hdev & _).
  fold s2 pre in Hbody, Hslots, Hdev.
  destruct (capture_failure_cases s2 it) as (C1 & C2 & C3 & C4).
  rewrite Hslots, Hdev in *. fold r1 p1 r2 in C3, C4.
  assert (Hr : running (fst (loop_body s it)) = running s).
  { rewrite loop_body_running. by apply poll_events_running. }
  split; [intros H; by rewrite Hbody, (C1 H)|].
  split; [intros H; by rewrite Hbody, (C2 H)|].
  split; [intros H H'; by rewrite Hbody, (C3 H H')|].
  split; [intros H H' H''; by rewrite Hbody, (C4 H H' H'')|].
  split; [done|]. split.
  - rewrite main_loop_cons by done. rewrite main_loop_cons by congruence. done.
  - intros its Hits. rewrite main_loop_cons by done.
    destruct (main_loop_runs its (fst (loop_body s it))) as [Hm Hr'];
      [congruence | done |].
    rewrite Hm. eexists _, _. split; [reflexivity|]. cbn [snd]. congruence.
Qed.

Lemma capture_errors_are_transient_witness :
  loop_body (state_of g480) select_fails
  = (state_of g480,
     [E_SDL_RenderClear;
      E_SDL_RenderCopy (mkRect 80 0 480 480) (mkRect 0 0 480 480);
      E_SDL_RenderPresent;
      E_observe_pool [Queued; Queued; Queued; Queued]; E_select 2 0 (-1);
      E_perror "select"])
  /\ last (snd (loop_body (state_of g480) qbuf_fails)) = Some (E_perror "VIDIOC_QBUF")
  /\ slots (fst (loop_body (state_of g480) qbuf_fails))
     = [Queued; Dequeued; Queued; Queued]
  /\ main_loop (state_of g480) [select_fails; dqbuf_fails]
     = (snd (loop_body (state_of g480) select_fails)
          ++ snd (loop_body (state_of g480) dqbuf_fails) ++ [],
        inr (state_of g480))
  /\ exists t s',
       main_loop (state_of g480) [select_times_out; qbuf_fails; select_fails]
       = (snd (loop_body (state_of g480) select_times_out) ++ t, inr s')
       /\ running s' = 1.
Proof.
  destruct (capture_errors_are_transient (state_of g480) select_fails dqbuf_fails [])
    as (H1 & _ & _ & _ & _ & H6 & _); [discriminate | reflexivity |].
  destruct (capture_errors_are_transient (state_of g480) qbuf_fails select_fails [])
    as (_ & _ & _ & H4 & _); [discriminate | reflexivity |].
  destruct (capture_errors_are_transient (state_of g480) select_times_out
              select_fails [])
    as (_ & _ & _ & _ & _ & _ & H7); [discriminate | reflexivity |].
  split; [apply H1; reflexivity|].
  assert (H4' := H4 eq_refl ltac:(discriminate) eq_refl).
  split; [by rewrite H4'|]. split; [by rewrite H4'|].
  split; [exact H6|].
  apply (H7 [qbuf_fails; select_fails]). reflexivity.
Defined.

End TransientErrors.

(** ** What [main] holds when it returns *)

Section Resources.
Import Geometry Driver Main Props More.

Lemma resource_log_app t1 t2 :
  resource_log (t1 ++ t2) = resource_log t1 ++ resource_log t2.
Proof. apply omap_app. Qed.

Lemma mapped_buffers_app t1 t2 :
  mapped_buffers (t1 ++ t2) = mapped_buffers t1 ++ mapped_buffers t2.
Proof. apply omap_app. Qed.

Lemma unmapped_buffers_app t1 t2 :
  unmapped_buffers (t1 ++ t2) = unmapped_buffers t1 ++ unmapped_buffers t2.
Proof. apply omap_app. Qed.

Lemma created_surfaces_app t1 t2 :
  created_surfaces (t1 ++ t2) = created_surfaces t1 ++ created_surfaces t2.
Proof. apply omap_app. Qed.

Lemma freed_surfaces_app t1 t2 :
  freed_surfaces (t1 ++ t2) = freed_surfaces t1 ++ freed_surfaces t2.
Proof. apply omap_app. Qed.

Lemma stderr_is_silent t :
  forallb is_stderr t = true ->
  resource_log t = [] /\ mapped_buffers t = [] /\ unmapped_buffers t = []
  /\ created_surfaces t = [] /\ freed_surfaces t = [].
Proof.
  intros H.
  split; [apply (omap_none_forallb _ is_stderr); [by intros []|done]|].
  split; [apply (omap_none_forallb _ is_stderr); [by intros []|done]|].
  split; [apply (omap_none_forallb _ is_stderr); [by intros []|done]|].
  split; apply (omap_none_forallb _ is_stderr); solve [by intros [] | done].
Qed.

Lemma parse_command_line_stderr atoi argv :
  forallb is_stderr (fst (parse_command_line atoi argv)) = true
  /\ (forall code, snd (parse_command_line atoi argv) = inl code -> code = 1).
Proof.
  unfold parse_command_line.
  destruct (_ || _); [split; [done | by intros code [= <-]]|].
  pose proof (parse_args_outcome atoi (length (tail argv)) (tail argv)
                (mkConfig DEFAULT_SIZE None 0) (le_n _)) as Hout.
  rewrite bind_result, bind_trace.
  destruct (parse_args atoi (tail argv) _) as [t [c1|c]]; simpl in *.
  - destruct Hout as [-> [msg ->]]. split; [done | by intros code [= <-]].
  - subst t. destruct (cfg_video_device c); [split; [done | discriminate]|].
    split; [done | by intros code [= <-]].
Qed.

(** The mapping loop: no buffer is unmapped; when it completes, the
    buffers were mapped in the order of the indices. *)
Lemma map_buffers_log env idx : forall p,
  unmapped_buffers (fst (map_buffers env idx p)) = []
  /\ created_surfaces (fst (map_buffers env idx p)) = []
  /\ freed_surfaces (fst (map_buffers env idx p)) = []
  /\ match snd (map_buffers env idx p) with
     | inr _ =>
         resource_log (fst (map_buffers env idx p)) = []
         /\ mapped_buffers (fst (map_buffers env idx p)) = idx
     | inl code =>
         code = 1
         /\ resource_log (fst (map_buffers env idx p))
            = [(false, R_table); (false, R_device); (false, R_sdl)]
     end.
Proof.
  induction idx as [|i rest IH]; intros p; [done|].
  rewrite map_buffers_cons.
  destruct (r_QUERYBUF env i <? 0); [done|].
  destruct (mmap_ok env i); [|done].
  destruct (IH (<[Z.to_nat i := Mapped]> p)) as (H1 & H2 & H3 & H4).
  cbn [fst snd].
  rewrite unmapped_buffers_app, created_surfaces_app, freed_surfaces_app, H1, H2, H3.
  split; [done|]. split; [done|]. split; [done|].
  destruct (snd (map_buffers env rest _)) as [code|p'].
  - destruct H4 as [-> H4]. by rewrite resource_log_app, H4.
  - destruct H4 as [H4 H5]. by rewrite resource_log_app, mapped_buffers_app, H4, H5.
Qed.

Lemma queue_buffers_log env idx : forall p,
  unmapped_buffers (fst (queue_buffers env idx p)) = []
  /\ mapped_buffers (fst (queue_buffers env idx p)) = []
  /\ created_surfaces (fst (queue_buffers env idx p)) = []
  /\ freed_surfaces (fst (queue_buffers env idx p)) = []
  /\ match snd (queue_buffers env idx p) with
     | inr _ => resource_log (fst (queue_buffers env idx p)) = []
     | inl code =>
         code = 1
         /\ resource_log (fst (queue_buffers env idx p))
            = [(false, R_table); (false, R_device); (false, R_sdl)]
     end.
Proof.
  induction idx as [|i rest IH]; intros p; [done|].
  rewrite queue_buffers_cons.
  destruct (snd (qbuf p i (r_QBUF env i)) <? 0); [done|].
  destruct (IH (fst (qbuf p i (r_QBUF env i)))) as (H1 & H2 & H3 & H4 & H5).
  cbn [fst snd].
  rewrite unmapped_buffers_app, mapped_buffers_app, created_surfaces_app,
    freed_surfaces_app, H1, H2, H3, H4.
  split; [done|]. split; [done|]. split; [done|]. split; [done|].
  destruct (snd (queue_buffers env rest _)) as [code|p'].
  - destruct H5 as [-> H5]. by rewrite resource_log_app, H5.
  - by rewrite resource_log_app, H5.
Qed.

Lemma munmap_calls l :
  unmapped_buffers (map E_munmap l) = l
  /\ resource_log (map E_munmap l) = []
  /\ mapped_buffers (map E_munmap l) = []
  /\ created_surfaces (map E_munmap l) = []
  /\ freed_surfaces (map E_munmap l) = [].
Proof.
  induction l as [|i l (H1 & H2 & H3 & H4 & H5)]; [done|].
  change (map E_munmap (i :: l)) with ([E_munmap i] ++ map E_munmap l).
  rewrite unmapped_buffers_app, resource_log_app, mapped_buffers_app,
    created_surfaces_app, freed_surfaces_app, H1, H2, H3, H4, H5. done.
Qed.

Lemma open_and_negotiate_log d env :
  mapped_buffers (fst (open_and_negotiate d env)) = []
  /\ unmapped_buffers (fst (open_and_negotiate d env)) = []
  /\ created_surfaces (fst (open_and_negotiate d env)) = []
  /\ freed_surfaces (fst (open_and_negotiate d env)) = []
  /\ match snd (open_and_negotiate d env) with
     | inr _ =>
         resource_log (fst (open_and_negotiate d env))
         = [(true, R_sdl); (true, R_device)]
     | inl code =>
         code = 1
         /\ (resource_log (fst (open_and_negotiate d env)) = unwinding 0 [R_sdl]
             \/ resource_log (fst (open_and_negotiate d env)) = unwinding 1 [R_device]
             \/ resource_log (fst (open_and_negotiate d env)) = unwinding 2 [])
     end.
Proof.
  unfold open_and_negotiate, bind, call, return_, ret. simpl.
  destruct (r_SDL_Init env <? 0); [simpl; tauto|].
  destruct (r_open env <? 0); [simpl; tauto|].
  destruct (r_QUERYCAP env <? 0); [simpl; tauto|].
  destruct (Z.land (capabilities env) V4L2_CAP_VIDEO_CAPTURE =? 0); [simpl; tauto|].
  destruct (r_S_FMT env <? 0); [simpl; tauto|].
  simpl. tauto.
Qed.

Lemma request_and_map_buffers_log env :
  unmapped_buffers (fst (request_and_map_buffers env)) = []
  /\ created_surfaces (fst (request_and_map_buffers env)) = []
  /\ freed_surfaces (fst (request_and_map_buffers env)) = []
  /\ match snd (request_and_map_buffers env) with
     | inr _ =>
         resource_log (fst (request_and_map_buffers env)) = [(true, R_table)]
         /\ mapped_buffers (fst (request_and_map_buffers env)) = seqZ 0 (granted env)
     | inl code =>
         code = 1
         /\ (resource_log (fst (request_and_map_buffers env))
             = [(false, R_device); (false, R_sdl)]
             \/ resource_log (fst (request_and_map_buffers env))
                = [(true, R_table); (false, R_table); (false, R_device); (false, R_sdl)])
     end.
Proof.
  unfold request_and_map_buffers.
  rewrite !bind_trace, !bind_result. cbn [call fst snd].
  destruct (r_REQBUFS env <? 0); [simpl; tauto|].
  rewrite !bind_trace, !bind_result. cbn [call fst snd].
  destruct (map_buffers_log env (seqZ 0 (granted env))
              (replicate (Z.to_nat (granted env)) Unmapped)) as (H1 & H2 & H3 & H4).
  rewrite !unmapped_buffers_app, !created_surfaces_app, !freed_surfaces_app,
    !resource_log_app, !mapped_buffers_app, H1, H2, H3.
  split; [done|]. split; [done|]. split; [done|].
  destruct (snd (map_buffers _ _ _)) as [code|p].
  - destruct H4 as [-> ->]. split; [done|]. by right.
  - destruct H4 as [-> ->]. done.
Qed.

Lemma queue_and_stream_log env p :
  mapped_buffers (fst (queue_and_stream env p)) = []
  /\ unmapped_buffers (fst (queue_and_stream env p)) = []
  /\ created_surfaces (fst (queue_and_stream env p)) = []
  /\ freed_surfaces (fst (queue_and_stream env p)) = []
  /\ match snd (queue_and_stream env p) with
     | inr _ => resource_log (fst (queue_and_stream env p)) = [(true, R_stream)]
     | inl code =>
         code = 1
         /\ (resource_log (fst (queue_and_stream env p))
             = [(false, R_table); (false, R_device); (false, R_sdl)]
             \/ resource_log (fst (queue_and_stream env p))
                = [(true, R_stream); (false, R_table); (false, R_device); (false, R_sdl)])
     end.
Proof.
  unfold queue_and_stream.
  rewrite !bind_trace, !bind_result.
  destruct (queue_buffers_log env (seqZ 0 (granted env)) p) as (H1 & H2 & H3 & H4 & H5).
  rewrite !unmapped_buffers_app, !created_surfaces_app, !freed_surfaces_app,
    !resource_log_app, !mapped_buffers_app, H1, H2, H3, H4.
  destruct (snd (queue_buffers _ _ _)) as [code|p'].
  - destruct H5 as [-> ->]. simpl. tauto.
  - rewrite H5. rewrite !bind_trace, !bind_result. cbn [call fst snd].
    destruct (r_STREAMON env <? 0); simpl; tauto.
Qed.

Lemma create_window_log c env width height :
  mapped_buffers (fst (create_window c env width height)) = []
  /\ unmapped_buffers (fst (create_window c env width height)) = []
  /\ match snd (create_window c env width height) with
     | inr sh =>
         resource_log (fst (create_window c env width height))
         = [(true, R_window); (true, R_renderer); (true, R_texture)]
         /\ created_surfaces (fst (create_window c env width height)) = [sh]
         /\ freed_surfaces (fst (create_window c env width height)) = []
         /\ sh = mkRef 0 (cfg_window_size c)
     | inl code =>
         code = 1
         /\ freed_surfaces (fst (create_window c env width height))
            = created_surfaces (fst (create_window c env width height))
         /\ (created_surfaces (fst (create_window c env width height)) = []
             \/ created_surfaces (fst (create_window c env width height))
                = [mkRef 0 (cfg_window_size c)])
         /\ (resource_log (fst (create_window c env width height))
             = [(true, R_window)] ++ release_stream
             \/ resource_log (fst (create_window c env width height))
                = [(true, R_window); (true, R_renderer); (false, R_window)]
                  ++ release_stream
             \/ resource_log (fst (create_window c env width height))
                = [(true, R_window); (true, R_renderer);
                   (false, R_renderer); (false, R_window)] ++ release_stream
             \/ resource_log (fst (create_window c env width height))
                = [(true, R_window); (true, R_renderer); (true, R_texture);
                   (false, R_renderer); (false, R_window)] ++ release_stream)
     end.
Proof.
  unfold create_window, bind, call, return_, ret, call_create_circular_shape.
  destruct (window_ok env); [|simpl; tauto].
  destruct (renderer_ok env); [|simpl; tauto].
  destruct (shape_ok env); [|simpl; tauto].
  destruct (texture_ok env); simpl; tauto.
Qed.

(** *** Masks in the loop *)

Lemma mask_step_frame g t g' :
  shape_surface g' = shape_surface g ->
  surfaces_created g' = surfaces_created g ->
  created_surfaces t = [] -> freed_surfaces t = [] ->
  mask_step g t g'.
Proof.
  intros H1 H2 H3 H4. unfold mask_step, live_mask.
  rewrite H1, H2, H3, H4, app_nil_r. simpl. split; [done|]. split; [done|lia].
Qed.

Lemma mask_step_trans g t1 g1 t2 g2 :
  mask_step g t1 g1 -> mask_step g1 t2 g2 -> mask_step g (t1 ++ t2) g2.
Proof.
  intros (A1 & A2 & A3) (B1 & B2 & B3). unfold mask_step.
  rewrite freed_surfaces_app, created_surfaces_app, length_app, fmap_app, seq_app.
  split; [by rewrite <- app_assoc, B1, !app_assoc, A1|].
  split; [by rewrite A2, B2, A3 | lia].
Qed.

Lemma replace_shape_mask g ok :
  mask_step g (snd (replace_shape g ok)) (fst (replace_shape g ok)).
Proof.
  unfold replace_shape, call_create_circular_shape, mask_step, live_mask.
  destruct ok; destruct (shape_surface g); simpl; (split; [done|split; [done|lia]]).
Qed.

Lemma resize_now_mask g ok :
  mask_step g (snd (resize_now g ok)) (fst (resize_now g ok)).
Proof.
  rewrite resize_now_spec. unfold call_create_circular_shape, mask_step, live_mask.
  destruct ok; destruct (shape_surface g); simpl; (split; [done|split; [done|lia]]).
Qed.

Lemma resize_now_mask_from g0 g ok :
  shape_surface g = shape_surface g0 ->
  surfaces_created g = surfaces_created g0 ->
  mask_step g0 (snd (resize_now g ok)) (fst (resize_now g ok)).
Proof.
  intros H1 H2. pose proof (resize_now_mask g ok) as H.
  unfold mask_step, live_mask in *. by rewrite <- H1, <- H2.
Qed.

Lemma clamp_window_size_mask g :
  shape_surface (clamp_window_size g) = shape_surface g
  /\ surfaces_created (clamp_window_size g) = surfaces_created g.
Proof. unfold clamp_window_size. by destruct (_ <? _). Qed.

Lemma handle_event_mask s ea :
  mask_step (geo s) (snd (handle_event s ea)) (geo (fst (handle_event s ea))).
Proof.
  destruct ea as [ev a].
  assert (Hr : forall g1, shape_surface g1 = shape_surface (geo s) ->
                 surfaces_created g1 = surfaces_created (geo s) ->
                 mask_step (geo s) (snd (resize_now (clamp_window_size g1) (surface_ok a)))
                   (fst (resize_now (clamp_window_size g1) (surface_ok a)))).
  { intros g1 H1 H2. destruct (clamp_window_size_mask g1) as [H3 H4].
    apply resize_now_mask_from; congruence. }
  destruct ev as [|[]|[]|[]| |y|d1 d2| |]; simpl;
    try (by apply mask_step_frame).
  - unfold key_plus. specialize (Hr (set_window_size (geo s)
      (int_add (current_window_size (geo s)) SIZE_STEP)) eq_refl eq_refl).
    by destruct (resize_now _ _).
  - unfold key_plus. specialize (Hr (set_window_size (geo s)
      (int_add (current_window_size (geo s)) SIZE_STEP)) eq_refl eq_refl).
    by destruct (resize_now _ _).
  - unfold key_minus. specialize (Hr (set_window_size (geo s)
      (int_sub (current_window_size (geo s)) SIZE_STEP)) eq_refl eq_refl).
    by destruct (resize_now _ _).
  - destruct (negb _); by apply mask_step_frame.
  - unfold mouse_wheel.
    match goal with |- context [resize_now (clamp_window_size ?g1) _] =>
      specialize (Hr g1) end.
    destruct (resize_now _ _) as [g' t]. simpl in *. apply Hr.
    + by destruct (0 <? y); [|destruct (y <? 0)].
    + by destruct (0 <? y); [|destruct (y <? 0)].
  - apply mask_step_frame; try done; unfold window_size_changed;
      by destruct (_ && _).
Qed.

Lemma poll_events_mask evs : forall s,
  mask_step (geo s) (snd (poll_events s evs)) (geo (fst (poll_events s evs))).
Proof.
  induction evs as [|ea evs IH]; intros s; [by apply mask_step_frame|].
  rewrite poll_events_cons_state, poll_events_cons_trace.
  eapply mask_step_trans; [apply handle_event_mask | apply IH].
Qed.

Lemma stabilized_resize_mask g c :
  mask_step g (snd (stabilized_resize g c)) (fst (stabilized_resize g c)).
Proof.
  unfold stabilized_resize.
  destruct (_ && _); [|by apply mask_step_frame].
  destruct (_ && _); [|by apply mask_step_frame].
  unfold replace_shape, call_create_circular_shape, mask_step, live_mask.
  destruct (check_surface_ok c); simpl; destruct (shape_surface g); simpl;
    (split; [done|split; [done|lia]]).
Qed.

Lemma capture_masks s it :
  created_surfaces (snd (capture s it)) = []
  /\ freed_surfaces (snd (capture s it)) = [].
Proof.
  unfold capture.
  destruct (select_ret it <? 0); [done|].
  destruct (select_ret it =? 0); [done|].
  destruct (dqbuf _ _ _) as [p1 r1].
  destruct (r1 <? 0); [done|].
  destruct (qbuf _ _ _) as [p2 r2]. simpl. by destruct (r2 <? 0).
Qed.

Lemma loop_body_mask s it :
  mask_step (geo s) (snd (loop_body s it)) (geo (fst (loop_body s it))).
Proof.
  rewrite loop_body_trace, loop_body_state.
  eapply mask_step_trans; [apply poll_events_mask|].
  eapply mask_step_trans; [apply stabilized_resize_mask|].
  destruct (capture_masks
    (set_geo (fst (poll_events s (events it)))
       (fst (stabilized_resize (geo (fst (poll_events s (events it)))) (check it))))
    it) as [H1 H2].
  apply mask_step_frame.
  - by rewrite (proj1 (capture_frame _ it)).
  - by rewrite (proj1 (capture_frame _ it)).
  - by rewrite created_surfaces_app, H1.
  - by rewrite freed_surfaces_app, H2.
Qed.

Lemma run_iterations_mask its : forall s,
  mask_step (geo s) (snd (run_iterations s its)) (geo (fst (run_iterations s its))).
Proof.
  induction its as [|it its IH]; intros s; [by apply mask_step_frame|].
  rewrite run_iterations_cons. cbn [fst snd].
  eapply mask_step_trans; [apply loop_body_mask | apply IH].
Qed.

Lemma cleanup_log s :
  resource_log (cleanup s) = pair false <$> reverse resources
  /\ mapped_buffers (cleanup s) = []
  /\ unmapped_buffers (cleanup s) = seqZ 0 (req_count (dev s))
  /\ created_surfaces (cleanup s) = []
  /\ freed_surfaces (cleanup s) = live_mask (geo s).
Proof.
  unfold cleanup.
  destruct (munmap_calls (seqZ 0 (req_count (dev s)))) as (H1 & H2 & H3 & H4 & H5).
  rewrite !resource_log_app, !mapped_buffers_app, !unmapped_buffers_app,
    !created_surfaces_app, !freed_surfaces_app, H1, H2, H3, H4, H5.
  unfold live_mask. destruct (shape_surface (geo s)); simpl; by rewrite ?app_nil_r.
Qed.

Lemma loop_trace_log t :
  forallb loop_effect t = true ->
  resource_log t = [] /\ mapped_buffers t = [] /\ unmapped_buffers t = [].
Proof.
  intros He.
  split; [exact (omap_none_forallb _ _ _ loop_effect_no_resource He)|].
  split; [exact (omap_none_forallb _ _ _ loop_effect_no_mmap He)|].
  exact (omap_none_forallb _ _ _ loop_effect_no_munmap He).
Qed.

(** What the loop and the cleanup add to the trace of a run. *)
Lemma main_loop_log its s :
  match snd (main_loop s its) with
  | inl code =>
      code = 0
      /\ resource_log (fst (main_loop s its)) = pair false <$> reverse resources
      /\ mapped_buffers (fst (main_loop s its)) = []
      /\ unmapped_buffers (fst (main_loop s its)) = seqZ 0 (req_count (dev s))
      /\ exists g, mask_step (geo s) (fst (main_loop s its)) g /\ live_mask g = []
  | inr s' =>
      resource_log (fst (main_loop s its)) = []
      /\ mapped_buffers (fst (main_loop s its)) = []
      /\ unmapped_buffers (fst (main_loop s its)) = []
      /\ mask_step (geo s) (fst (main_loop s its)) (geo s')
  end.
Proof.
  pose proof (main_loop_outcome its s) as H.
  destruct (snd (main_loop s its)) as [code|s'].
  - destruct H as (-> & used & rest & _ & _ & ->).
    destruct (run_iterations_effects used s) as [He Hd].
    destruct (cleanup_log (fst (run_iterations s used))) as (C1 & C2 & C3 & C4 & C5).
    rewrite resource_log_app, mapped_buffers_app, unmapped_buffers_app, C1, C2, C3, Hd.
    destruct (loop_trace_log _ He) as (L1 & L2 & L3). rewrite L1, L2, L3.
    split; [done|]. split; [done|]. split; [done|]. split; [done|].
    exists (set_shape_surface (geo (fst (run_iterations s used))) None
              (surfaces_created (geo (fst (run_iterations s used))))).
    split; [|done].
    eapply mask_step_trans; [apply run_iterations_mask|].
    unfold mask_step. rewrite C4, C5. simpl. rewrite !app_nil_r.
    split; [done|]. split; [done|lia].
  - destruct H as [-> ->].
    destruct (run_iterations_effects its s) as [He Hd].
    destruct (loop_trace_log _ He) as (L1 & L2 & L3).
    split; [done|]. split; [done|]. split; [done|].
    apply run_iterations_mask.
Qed.

Ltac split_logs :=
  rewrite ?resource_log_app, ?mapped_buffers_app, ?unmapped_buffers_app,
    ?created_surfaces_app, ?freed_surfaces_app.

Ltac unwound k f :=
  exists k, f; split; [lia|]; split; [by (left + right)|];
  split; [reflexivity|]; right; split; [reflexivity | lia].

Ltac find_unwinding :=
  first [ unwound 0%nat (@nil resource) | unwound 0%nat [R_sdl]
        | unwound 1%nat [R_device] | unwound 2%nat (@nil resource)
        | unwound 3%nat (@nil resource) | unwound 3%nat [R_stream]
        | unwound 4%nat [R_window] | unwound 5%nat [R_renderer]
        | unwound 6%nat (@nil resource) | unwound 6%nat [R_texture] ].

Ltac no_masks :=
  exists no_mask; split; [|done];
  apply mask_step_frame; [done | done | split_logs | split_logs];
  repeat match goal with H : _ = [] |- _ => rewrite H end; done.

(** Every run of [main], summarised: the resource log, the buffers mapped
    and unmapped, and the masks. *)
Lemma main_log atoi argv env its :
  match snd (main atoi argv env its) with
  | inl code =>
      (exists k failed,
         (k <= 7)%nat
         /\ (failed = [] \/ failed = take 1 (drop k resources))
         /\ resource_log (fst (main atoi argv env its)) = unwinding k failed
         /\ (code = 0 /\ k = 7%nat \/ code = 1 /\ (k < 7)%nat))
      /\ (code = 0
          /\ mapped_buffers (fst (main atoi argv env its)) = seqZ 0 (granted env)
          /\ unmapped_buffers (fst (main atoi argv env its)) = seqZ 0 (granted env)
          \/ code = 1 /\ unmapped_buffers (fst (main atoi argv env its)) = [])
      /\ (exists g, mask_step no_mask (fst (main atoi argv env its)) g
                    /\ live_mask g = [])
  | inr s =>
      resource_log (fst (main atoi argv env its)) = pair true <$> resources
      /\ mapped_buffers (fst (main atoi argv env its)) = seqZ 0 (granted env)
      /\ unmapped_buffers (fst (main atoi argv env its)) = []
      /\ mask_step no_mask (fst (main atoi argv env its)) (geo s)
  end.
Proof.
  rewrite main_phases.
  destruct (parse_command_line_stderr atoi argv) as [Hp1 Hp2].
  destruct (stderr_is_silent _ Hp1) as (P1 & P2 & P3 & P4 & P5).
  destruct (parse_command_line atoi argv) as [tp [code|cd]]; cbn [fst snd] in *.
  { rewrite (Hp2 code eq_refl), P1, P3.
    split; [find_unwinding|]. split; [by right|]. no_masks. }
  clear Hp1 Hp2.
  destruct (open_and_negotiate_log (snd cd) env) as (O2 & O3 & O4 & O5 & O1).
  destruct (open_and_negotiate (snd cd) env) as [to [code|fmt]]; cbn [fst snd] in *.
  { destruct O1 as [-> O1]. split_logs. rewrite P1, P3, O3.
    split; [|split; [by right | no_masks]].
    destruct O1 as [->|[->| ->]]; find_unwinding. }
  destruct (request_and_map_buffers_log env) as (A3 & A4 & A5 & A1).
  destruct (request_and_map_buffers env) as [ta [code|p]]; cbn [fst snd] in *.
  { destruct A1 as [-> A1]. split_logs. rewrite P1, P3, O1, O3, A3.
    split; [|split; [by right | no_masks]].
    destruct A1 as [->| ->]; find_unwinding. }
  destruct A1 as [A1 A2].
  destruct (queue_and_stream_log env p) as (Q2 & Q3 & Q4 & Q5 & Q1).
  destruct (queue_and_stream env p) as [tq [code|p']]; cbn [fst snd] in *.
  { destruct Q1 as [-> Q1]. split_logs. rewrite P1, P3, O1, O3, A1, A3, Q3.
    split; [|split; [by right | no_masks]].
    destruct Q1 as [->| ->]; find_unwinding. }
  destruct (create_window_log (fst cd) env (fst (fst fmt)) (snd (fst fmt)))
    as (W2 & W3 & W1).
  destruct (create_window (fst cd) env (fst (fst fmt)) (snd (fst fmt)))
    as [tw [code|sh]]; cbn [fst snd] in *.
  { destruct W1 as (-> & W5 & W4 & W1). split_logs.
    rewrite P1, P3, O1, O3, A1, A3, Q1, Q3, W3.
    split; [|split; [by right|]].
    - destruct W1 as [->|[->|[->| ->]]]; find_unwinding.
    - exists (set_shape_surface no_mask None (length (created_surfaces tw))).
      split; [|done]. unfold mask_step. split_logs.
      rewrite P4, P5, O4, O5, A4, A5, Q4, Q5, W5. simpl.
      split; [by rewrite app_nil_r|]. split; [|done].
      by destruct W4 as [->| ->]. }
  destruct W1 as (W1 & W4 & W5 & ->).
  set (s0 := initial_state (fst cd) fmt p' (mkRef 0 (cfg_window_size (fst cd))) env).
  assert (Hs0 : mask_step no_mask (tp ++ to ++ ta ++ tq ++ tw) (geo s0)).
  { unfold mask_step. split_logs. by rewrite P4, P5, O4, O5, A4, A5, Q4, Q5, W4, W5. }
  pose proof (main_loop_log its s0) as HL.
  replace (tp ++ to ++ ta ++ tq ++ tw ++ fst (main_loop s0 its))
    with ((tp ++ to ++ ta ++ tq ++ tw) ++ fst (main_loop s0 its))
    by (by rewrite <- !app_assoc).
  destruct (snd (main_loop s0 its)) as [code|s'].
  - destruct HL as (-> & L1 & L2 & L3 & g & L4 & L5).
    split_logs. rewrite P1, P2, P3, O1, O2, O3, A1, A2, A3, Q1, Q2, Q3, W1, W2, W3,
      L1, L2, L3.
    split; [|split].
    + exists 7%nat, []. split; [lia|]. split; [by left|]. split; [reflexivity|].
      by left.
    + left. by rewrite !app_nil_r.
    + exists g. split; [|done]. by eapply mask_step_trans.
  - destruct HL as (L1 & L2 & L3 & L4).
    split_logs. rewrite P1, P2, P3, O1, O2, O3, A1, A2, A3, Q1, Q2, Q3, W1, W2, W3,
      L1, L2, L3.
    split; [done|]. split; [by rewrite !app_nil_r|]. split; [done|].
    by eapply mask_step_trans.
Qed.

Lemma initialise_code c d env code :
  snd (initialise c d env) = inl code -> code = 1.
Proof.
  unfold initialise. rewrite bind_result.
  destruct (open_and_negotiate_log d env) as (_ & _ & _ & _ & O1).
  destruct (snd (open_and_negotiate d env)) as [c1|[[width height] src]];
    [destruct O1 as [-> _]; by intros [= <-]|].
  rewrite bind_result.
  destruct (request_and_map_buffers_log env) as (_ & _ & _ & A1).
  destruct (snd (request_and_map_buffers env)) as [c1|p];
    [destruct A1 as [-> _]; by intros [= <-]|].
  rewrite bind_result.
  destruct (queue_and_stream_log env p) as (_ & _ & _ & _ & Q1).
  destruct (snd (queue_and_stream env p)) as [c1|p'];
    [destruct Q1 as [-> _]; by intros [= <-]|].
  rewrite bind_result.
  destruct (create_window_log c env width height) as (_ & _ & W1).
  destruct (snd (create_window c env width height)) as [c1|sh];
    [destruct W1 as [-> _]; by intros [= <-]|].
  discriminate.
Qed.

Lemma main_loop_quits its : forall s,
  running s = 0 \/ existsb (λ it, existsb quit_request (events it)) its = true ->
  snd (main_loop s its) = inl 0.
Proof.
  induction its as [|it its IH]; intros s H.
  { destruct H as [H|H]; [|discriminate]. by rewrite main_loop_stopped. }
  destruct (Z.eq_dec (running s) 0) as [Hr|Hr]; [by rewrite main_loop_stopped|].
  destruct H as [H|H]; [done|].
  rewrite main_loop_cons by done. cbn [snd]. apply IH.
  simpl in H. apply orb_true_iff in H. destruct H as [H|H]; [|by right].
  left. rewrite loop_body_running. apply poll_events_stops. by right.
Qed.

(** X11. Resources are released in the reverse order of their
    acquisition, on every return. [main] acquires SDL, the device, the
    buffer table, the stream, the window, the renderer and the texture in
    this order. Whenever it returns, it has acquired the first [k] of
    them, has perhaps tried the next one and failed, and has released
    exactly those [k], last acquired first; none is released twice or
    left. It returns 0 only with all seven acquired and released, and 1
    otherwise. *)
Theorem resources_are_released_in_reverse_order (atoi : string -> Z)
    (argv : list string) (env : init_env) (its : list iteration) (code : Z) :
  snd (main atoi argv env its) = inl code ->
  exists k failed,
    (k <= 7)%nat
    /\ (failed = [] \/ failed = take 1 (drop k resources))
    /\ resource_log (fst (main atoi argv env its)) = unwinding k failed
    /\ (code = 0 /\ k = 7%nat \/ code = 1 /\ (k < 7)%nat).
Proof.
  intros H. pose proof (main_log atoi argv env its) as L.
  rewrite H in L. apply L.
Qed.

Lemma resources_are_released_in_reverse_order_witness :
  exists k failed,
    (k <= 7)%nat
    /\ (failed = [] \/ failed = take 1 (drop k resources))
    /\ resource_log (fst (Main.main Props.atoi_256 Props.argv_256
                           More.env_texture_fails []))
       = unwinding k failed
    /\ (1 = 0 /\ k = 7%nat \/ 1 = 1 /\ (k < 7)%nat).
Proof.
  apply (resources_are_released_in_reverse_order Props.atoi_256 Props.argv_256
           More.env_texture_fails [] 1).
  reflexivity.
Defined.

(** X12. The exit status. [main] returns 0 exactly when the command line
    was accepted, start-up succeeded and some iteration delivers
    [SDL_QUIT] or Escape; any other return is 1; and after a successful
    start-up [main] does not return as long as no quit request arrives. *)
Theorem exit_status (atoi : string -> Z) (argv : list string) (env : init_env)
    (its : list iteration) :
  (snd (main atoi argv env its) = inl 0
   <-> (exists cd s,
          snd (parse_command_line atoi argv) = inr cd
          /\ snd (initialise (fst cd) (snd cd) env) = inr s)
       /\ existsb (λ it, existsb quit_request (events it)) its = true)
  /\ (forall code, snd (main atoi argv env its) = inl code -> code = 0 \/ code = 1).
Proof.
  split.
  - unfold main. rewrite bind_result.
    destruct (snd (parse_command_line atoi argv)) as [c1|cd] eqn:Ep.
    { split.
      - intros [= ->].
        by pose proof (proj2 (parse_command_line_stderr atoi argv) 0 Ep).
      - by intros [(cd & s & [=] & _) _]. }
    rewrite bind_result.
    destruct (snd (initialise (fst cd) (snd cd) env)) as [c2|s] eqn:Ei.
    { split.
      - intros [= ->]. by pose proof (initialise_code _ _ _ _ Ei).
      - intros [(cd' & s' & [= <-] & H) _]. congruence. }
    destruct (initialise_spec (fst cd) (snd cd) env) as [_ Hi].
    destruct (Hi s Ei) as (_ & _ & _ & Hrun & _).
    split.
    + intros H. split; [by exists cd, s|].
      destruct (existsb _ its) eqn:Eq; [done|]. exfalso.
      destruct (main_loop_runs its s) as [Hm _]; [lia| |by rewrite Hm in H].
      apply not_true_iff_false in Eq. apply not_false_iff_true. intros Hf. apply Eq.
      clear -Hf. induction its as [|it its IH]; [done|]. simpl in *.
      apply andb_false_iff in Hf. apply orb_true_iff. destruct Hf as [Hf|Hf].
      * left. clear -Hf. induction (events it) as [|ea evs IH]; [done|]. simpl in *.
        apply andb_false_iff in Hf. apply orb_true_iff. destruct Hf as [Hf|Hf].
        -- left. by destruct (quit_request ea).
        -- right. by apply IH.
      * right. by apply IH.
    + intros [_ Hq]. apply main_loop_quits. by right.
  - intros code H. pose proof (main_log atoi argv env its) as L. rewrite H in L.
    destruct L as [(k & failed & _ & _ & _ & [[-> _]|[-> _]]) _]; [by left|by right].
Qed.

Lemma exit_status_witness :
  snd (main atoi_256 argv_256 (env_grants 4) one_frame_then_quit) = inl 0.
Proof.
  apply (proj1 (exit_status atoi_256 argv_256 (env_grants 4) one_frame_then_quit)).
  split; [|reflexivity].
  exists (mkConfig 256 (Some "/dev/video0") 0, "/dev/video0").
  eexists. split; reflexivity.
Defined.

(** X13. Masks are freed exactly once. In every run of [main], the masks
    handed to [SDL_FreeSurface] are exactly the masks
    [create_circular_shape] returned, in the order of their creation and
    each once, when [main] returns; while the loop is still running, the
    one mask not yet freed is the one [shape_surface] points to, if any.
    This holds whatever resizes happen and also when a mask cannot be
    generated. *)
Theorem masks_are_freed_exactly_once (atoi : string -> Z) (argv : list string)
    (env : init_env) (its : list iteration) :
  NoDup (created_surfaces (fst (main atoi argv env its)))
  /\ match snd (main atoi argv env its) with
     | inl _ =>
         freed_surfaces (fst (main atoi argv env its))
         = created_surfaces (fst (main atoi argv env its))
     | inr s =>
         freed_surfaces (fst (main atoi argv env its)) ++ live_mask (geo s)
         = created_surfaces (fst (main atoi argv env its))
     end.
Proof.
  pose proof (main_log atoi argv env its) as L.
  assert (Hn : forall g, mask_step no_mask (fst (main atoi argv env its)) g ->
                 NoDup (created_surfaces (fst (main atoi argv env its)))).
  { intros g (_ & H & _). apply (NoDup_fmap_1 sid). rewrite H. apply NoDup_seq. }
  destruct (snd (main atoi argv env its)) as [code|s].
  - destruct L as (_ & _ & g & Hg & Hl). split; [by eapply Hn|].
    destruct Hg as (H & _). by rewrite Hl, app_nil_r in H.
  - destruct L as (_ & _ & _ & Hg). split; [by eapply Hn|]. by destruct Hg as (H & _).
Qed.

(** X14. Buffers are unmapped only on the way out of the loop. When
    [main] returns 0 it has mapped the buffers [0 .. req.count - 1] in
    this order and has unmapped the same buffers in the same order. When
    it returns 1 it has called [munmap] for no buffer, also when the
    failure came after the buffers were mapped. *)
Theorem buffers_are_unmapped_only_on_exit_0 (atoi : string -> Z)
    (argv : list string) (env : init_env) (its : list iteration) (code : Z) :
  snd (main atoi argv env its) = inl code ->
  code = 0
  /\ mapped_buffers (fst (main atoi argv env its)) = seqZ 0 (granted env)
  /\ unmapped_buffers (fst (main atoi argv env its)) = seqZ 0 (granted env)
  \/ code = 1 /\ unmapped_buffers (fst (main atoi argv env its)) = [].
Proof.
  intros H. pose proof (main_log atoi argv env its) as L.
  rewrite H in L. apply L.
Qed.

Lemma buffers_are_unmapped_only_on_exit_0_witness :
  (1 = 0
   /\ mapped_buffers (fst (Main.main Props.atoi_256 Props.argv_256
                             More.env_streamon_fails []))
      = seqZ 0 (granted More.env_streamon_fails)
   /\ unmapped_buffers (fst (Main.main Props.atoi_256 Props.argv_256
                               More.env_streamon_fails []))
      = seqZ 0 (granted More.env_streamon_fails)
   \/ 1 = 1
      /\ unmapped_buffers (fst (Main.main Props.atoi_256 Props.argv_256
                                  More.env_streamon_fails [])) = [])
  /\ mapped_buffers (fst (Main.main Props.atoi_256 Props.argv_256
                            More.env_streamon_fails [])) = [0; 1; 2; 3].
Proof.
  split; [|reflexivity].
  apply (buffers_are_unmapped_only_on_exit_0 Props.atoi_256 Props.argv_256
           More.env_streamon_fails [] 1).
  reflexivity.
Defined.

End Resources.

(** ** Frames and buffers in the loop *)

Section Frames.
Import Geometry Driver Main Props More.

Lemma resize_now_draws_nothing g ok :
  List.filter display_call (snd (resize_now g ok)) = [].
Proof. rewrite resize_now_spec. unfold call_create_circular_shape. by destruct ok. Qed.

Lemma handle_event_draws_nothing s ea :
  List.filter display_call (snd (handle_event s ea)) = [].
Proof.
  destruct ea as [ev a].
  destruct ev as [|[]|[]|[]| |y|d1 d2| |]; simpl; try done.
  - unfold key_plus. pose proof (resize_now_draws_nothing
      (clamp_window_size (set_window_size (geo s)
         (int_add (current_window_size (geo s)) SIZE_STEP))) (surface_ok a)).
    by destruct (resize_now _ _).
  - unfold key_plus. pose proof (resize_now_draws_nothing
      (clamp_window_size (set_window_size (geo s)
         (int_add (current_window_size (geo s)) SIZE_STEP))) (surface_ok a)).
    by destruct (resize_now _ _).
  - unfold key_minus. pose proof (resize_now_draws_nothing
      (clamp_window_size (set_window_size (geo s)
         (int_sub (current_window_size (geo s)) SIZE_STEP))) (surface_ok a)).
    by destruct (resize_now _ _).
  - by destruct (negb _).
  - unfold mouse_wheel.
    match goal with |- context [resize_now ?g1 ?ok] =>
      pose proof (resize_now_draws_nothing g1 ok) end.
    by destruct (resize_now _ _).
Qed.

Lemma poll_events_draws_nothing evs : forall s,
  List.filter display_call (snd (poll_events s evs)) = [].
Proof.
  induction evs as [|ea evs IH]; intros s; [done|].
  by rewrite poll_events_cons_trace, List.filter_app, handle_event_draws_nothing, IH.
Qed.

Lemma stabilized_resize_draws_nothing g c :
  List.filter display_call (snd (stabilized_resize g c)) = [].
Proof.
  unfold stabilized_resize.
  destruct (_ && _); [|done].
  destruct (_ && _); [|done].
  unfold replace_shape, call_create_circular_shape.
  by destruct (check_surface_ok c).
Qed.

Lemma capture_draws s it :
  List.filter display_call (snd (capture s it))
  = if frame_delivered s it
    then [E_SDL_UpdateTexture (dqbuf_index it) (wrap_int (u32 (pix_width (dev s) * 2)))]
    else [].
Proof.
  unfold capture, frame_delivered.
  destruct (Z.ltb_spec (select_ret it) 0) as [H1|H1].
  { destruct (Z.ltb_spec 0 (select_ret it)); [lia|done]. }
  destruct (Z.eqb_spec (select_ret it) 0) as [H2|H2].
  { destruct (Z.ltb_spec 0 (select_ret it)); [lia|done]. }
  destruct (Z.ltb_spec 0 (select_ret it)); [|lia].
  destruct (dqbuf _ _ _) as [p1 r1]. cbn [fst snd andb].
  destruct (Z.ltb_spec r1 0) as [H3|H3].
  { destruct (Z.leb_spec 0 r1); [lia|done]. }
  destruct (Z.leb_spec 0 r1); [|lia].
  destruct (qbuf _ _ _) as [p2 r2]. simpl. by destruct (r2 <? 0).
Qed.

(** X15. One drawing per iteration, one iteration behind the camera. In
    every iteration the window is drawn exactly once: clear, copy the crop
    rectangle of the texture to the square of side [current_window_size]
    as it is after this iteration's resizes, present. The texture is
    updated after the drawing and only if [select] reported a descriptor
    and the dequeue succeeded, so an iteration shows the frame of an
    earlier one, and shows it again when no new frame arrives. *)
Theorem one_drawing_per_iteration (s : state) (it : iteration) :
  List.filter display_call (snd (loop_body s it))
  = [E_SDL_RenderClear;
     E_SDL_RenderCopy (src_rect (dev s))
       (mkRect 0 0 (current_window_size (geo (fst (loop_body s it))))
          (current_window_size (geo (fst (loop_body s it)))));
     E_SDL_RenderPresent]
    ++ (if frame_delivered s it
        then [E_SDL_UpdateTexture (dqbuf_index it)
                (wrap_int (u32 (pix_width (dev s) * 2)))]
        else []).
Proof.
  rewrite loop_body_trace, loop_body_geo, !List.filter_app.
  rewrite poll_events_draws_nothing, stabilized_resize_draws_nothing, capture_draws.
  destruct (poll_events_effects (events it) s) as (_ & Hd & Hs).
  unfold frame_delivered, render. cbn [set_geo slots dev geo].
  by rewrite Hd, Hs.
Qed.

Lemma dqbuf_other (p : pool) ret i (j : nat) :
  Z.to_nat i <> j -> fst (dqbuf p ret i) !! j = p !! j.
Proof.
  intros Hne. unfold dqbuf. destruct (_ <? 0); [done|]. destruct (_ <? 0); [done|].
  destruct (p !! Z.to_nat i) as [[]|]; try done. simpl.
  by rewrite list_lookup_insert_ne.
Qed.

Lemma qbuf_other (p : pool) i ret (j : nat) :
  Z.to_nat i <> j -> fst (qbuf p i ret) !! j = p !! j.
Proof.
  intros Hne. unfold qbuf. destruct (_ <? 0); [done|]. destruct (_ <? 0); [done|].
  destruct (p !! Z.to_nat i) as [[]|]; try done; simpl;
    by rewrite list_lookup_insert_ne.
Qed.

Lemma dqbuf_refuses (p : pool) ret i :
  p !! Z.to_nat i <> Some Queued ->
  fst (dqbuf p ret i) = p /\ snd (dqbuf p ret i) < 0.
Proof.
  intros Hq. unfold dqbuf.
  destruct (Z.ltb_spec ret 0); [done|]. destruct (Z.ltb_spec i 0); [done|].
  destruct (p !! Z.to_nat i) as [[]|]; try done.
Qed.

Lemma capture_slots s it :
  slots (fst (capture s it))
  = if frame_delivered s it
    then fst (qbuf (fst (dqbuf (slots s) (dqbuf_ret it) (dqbuf_index it)))
                (dqbuf_index it) (qbuf_ret it))
    else slots s.
Proof.
  unfold capture, frame_delivered.
  destruct (Z.ltb_spec (select_ret it) 0) as [H1|H1].
  { destruct (Z.ltb_spec 0 (select_ret it)); [lia|done]. }
  destruct (Z.eqb_spec (select_ret it) 0) as [H2|H2].
  { destruct (Z.ltb_spec 0 (select_ret it)); [lia|done]. }
  destruct (Z.ltb_spec 0 (select_ret it)); [|lia].
  pose proof (dqbuf_failure (slots s) (dqbuf_ret it) (dqbuf_index it)) as Hf.
  destruct (dqbuf _ _ _) as [p1 r1]. cbn [fst snd andb] in *.
  destruct (Z.ltb_spec r1 0) as [H3|H3].
  { destruct (Z.leb_spec 0 r1); [lia|]. simpl. by apply Hf. }
  destruct (Z.leb_spec 0 r1); [|lia].
  by destruct (qbuf _ _ _) as [p2 r2].
Qed.

Lemma capture_keeps_lost_buffers s it (j : nat) :
  slots s !! j = Some Dequeued ->
  slots (fst (capture s it)) !! j = Some Dequeued.
Proof.
  intros Hj. rewrite capture_slots. unfold frame_delivered.
  destruct (0 <? select_ret it); [|done]. cbn [andb].
  destruct (decide (Z.to_nat (dqbuf_index it) = j)) as [Heq|Hne].
  - destruct (dqbuf_refuses (slots s) (dqbuf_ret it) (dqbuf_index it)) as [_ Hr];
      [rewrite Heq; congruence|].
    by destruct (Z.leb_spec 0 (snd (dqbuf (slots s) (dqbuf_ret it) (dqbuf_index it))));
      [lia|].
  - destruct (0 <=? _); [|done]. by rewrite qbuf_other, dqbuf_other.
Qed.

Lemma loop_body_slots s it :
  slots (fst (loop_body s it))
  = slots (fst (capture (set_slots s (slots s)) it)).
Proof.
  rewrite loop_body_state, !capture_slots.
  destruct (poll_events_effects (events it) s) as (_ & _ & Hs).
  unfold frame_delivered. cbn [set_geo set_slots slots]. by rewrite Hs.
Qed.

Lemma run_iterations_keep_lost_buffers its (j : nat) : forall s,
  slots s !! j = Some Dequeued ->
  slots (fst (run_iterations s its)) !! j = Some Dequeued.
Proof.
  induction its as [|it its IH]; intros s Hj; [done|].
  rewrite run_iterations_cons. cbn [fst]. apply IH.
  rewrite loop_body_slots. apply capture_keeps_lost_buffers.
  by rewrite set_slots_same.
Qed.

(** X16. A buffer lost to a failed requeue is lost for good. A buffer the
    driver does not hold at the start of an iteration (its
    [VIDIOC_QBUF] failed after a dequeue) is never queued again, however
    many iterations follow: the loop requeues only the buffer it has just
    dequeued. A later iteration that is offered this buffer gets no
    frame. *)
Theorem lost_buffers_stay_lost (s : state) (its : list iteration) (j : nat)
    (it : iteration) :
  slots s !! j = Some Dequeued ->
  slots (fst (run_iterations s its)) !! j = Some Dequeued
  /\ (Z.to_nat (dqbuf_index it) = j ->
      frame_delivered (fst (run_iterations s its)) it = false
      /\ slots (fst (loop_body (fst (run_iterations s its)) it))
         = slots (fst (run_iterations s its))).
Proof.
  intros Hj. pose proof (run_iterations_keep_lost_buffers its j s Hj) as H.
  split; [done|]. intros Heq.
  assert (Hf : frame_delivered (fst (run_iterations s its)) it = false).
  { unfold frame_delivered. destruct (0 <? select_ret it); [|done]. cbn [andb].
    destruct (dqbuf_refuses (slots (fst (run_iterations s its))) (dqbuf_ret it)
                (dqbuf_index it)) as [_ Hr]; [rewrite Heq; congruence|].
    by destruct (Z.leb_spec 0 (snd (dqbuf (slots (fst (run_iterations s its)))
                                      (dqbuf_ret it) (dqbuf_index it)))); [lia|]. }
  split; [done|].
  rewrite loop_body_slots, capture_slots, set_slots_same. by rewrite Hf.
Qed.

Lemma lost_buffers_stay_lost_witness :
  slots (fst (run_iterations state_without_2 [frame_in 1; frame_in 3])) !! 2%nat
  = Some Dequeued
  /\ (Z.to_nat (dqbuf_index (frame_in 2)) = 2%nat ->
      frame_delivered (fst (run_iterations state_without_2 [frame_in 1; frame_in 3]))
        (frame_in 2) = false
      /\ slots (fst (loop_body
                       (fst (run_iterations state_without_2 [frame_in 1; frame_in 3]))
                       (frame_in 2)))
         = slots (fst (run_iterations state_without_2 [frame_in 1; frame_in 3]))).
Proof.
  apply (lost_buffers_stay_lost state_without_2 [frame_in 1; frame_in 3] 2
           (frame_in 2)).
  reflexivity.
Defined.

(** X17. A capture cycle that succeeds gives the buffer back. When
    [select] reports a descriptor, the driver hands back a buffer it held
    and accepts it again, the pool is after the iteration what it was
    before: every buffer the driver held is held again. When the requeue
    fails instead, exactly that buffer is missing from the queue. *)
Theorem capture_round_trip (s : state) (it : iteration) :
  0 < select_ret it -> 0 <= dqbuf_ret it -> 0 <= dqbuf_index it ->
  slots s !! Z.to_nat (dqbuf_index it) = Some Queued ->
  frame_delivered s it = true
  /\ (0 <= qbuf_ret it -> slots (fst (loop_body s it)) = slots s)
  /\ (qbuf_ret it < 0 ->
      slots (fst (loop_body s it))
      = <[Z.to_nat (dqbuf_index it) := Dequeued]> (slots s)).
Proof.
  intros Hsel Hret Hidx Hq.
  assert (Hd : dqbuf (slots s) (dqbuf_ret it) (dqbuf_index it)
               = (<[Z.to_nat (dqbuf_index it) := Dequeued]> (slots s), dqbuf_ret it)).
  { unfold dqbuf. destruct (Z.ltb_spec (dqbuf_ret it) 0); [lia|].
    destruct (Z.ltb_spec (dqbuf_index it) 0); [lia|]. by rewrite Hq. }
  assert (Hf : frame_delivered s it = true).
  { unfold frame_delivered. rewrite Hd. cbn [snd].
    destruct (Z.ltb_spec 0 (select_ret it)); [|lia].
    by destruct (Z.leb_spec 0 (dqbuf_ret it)); [|lia]. }
  split; [done|].
  rewrite loop_body_slots, capture_slots, set_slots_same, Hf, Hd. cbn [fst].
  pose proof (lookup_lt_Some _ _ _ Hq) as Hlt.
  unfold qbuf. split; intros Hr.
  - destruct (Z.ltb_spec (qbuf_ret it) 0); [lia|].
    destruct (Z.ltb_spec (dqbuf_index it) 0); [lia|].
    rewrite list_lookup_insert_eq by done. cbn [fst].
    rewrite list_insert_insert_eq. by apply list_insert_id.
  - by destruct (Z.ltb_spec (qbuf_ret it) 0); [|lia].
Qed.

Lemma capture_round_trip_witness :
  frame_delivered (state_of g480) (frame_in 1) = true
  /\ (0 <= qbuf_ret (frame_in 1) ->
      slots (fst (loop_body (state_of g480) (frame_in 1))) = slots (state_of g480))
  /\ (qbuf_ret (frame_in 1) < 0 ->
      slots (fst (loop_body (state_of g480) (frame_in 1)))
      = <[Z.to_nat (dqbuf_index (frame_in 1)) := Dequeued]> (slots (state_of g480))).
Proof.
  apply (capture_round_trip (state_of g480) (frame_in 1));
    [reflexivity | discriminate | discriminate | reflexivity].
Defined.

Lemma resize_now_without_mask g :
  shape_surface (fst (resize_now g false)) = None
  /\ current_window_size (fst (resize_now g false)) = window_size g
  /\ window_size (fst (resize_now g false)) = window_size g
  /\ List.filter is_set_shape (snd (resize_now g false)) = []
  /\ snd (resize_now g false)
     = [E_SDL_SetWindowSize (window_size g) (window_size g);
        E_SDL_FreeSurface (shape_surface g);
        E_create_circular_shape (window_size g) None;
        E_fprintf_stderr "SDL_CreateRGBSurface failed: %s\n";
        E_store_current_window_size (window_size g)].
Proof. by rewrite resize_now_spec. Qed.

(** X18. A mask that cannot be generated is fatal at start-up only. In
    the loop, a key or wheel resize whose mask cannot be generated still
    resizes the window and commits the new size; the old mask is freed,
    [shape_surface] is left [NULL], no shape is set, the diagnostic of
    [create_circular_shape] is printed and the loop goes on. At start-up
    the same failure makes [main] destroy the renderer and the window,
    stop the stream, release the table, the device and SDL, and
    return 1. *)
Theorem mask_failure_is_fatal_only_at_start_up (s : state)
    (ea : SDL_Event * answers) (c : config) (env : init_env) (width height : Z) :
  resizes_at_once ea = true ->
  surface_ok (snd ea) = false ->
  window_ok env = true -> renderer_ok env = true -> shape_ok env = false ->
  (running (fst (handle_event s ea)) = running s
   /\ shape_surface (geo (fst (handle_event s ea))) = None
   /\ current_window_size (geo (fst (handle_event s ea)))
      = window_size (geo (fst (handle_event s ea)))
   /\ List.filter is_set_shape (snd (handle_event s ea)) = []
   /\ snd (handle_event s ea)
      = [E_SDL_SetWindowSize (window_size (geo (fst (handle_event s ea))))
           (window_size (geo (fst (handle_event s ea))));
         E_SDL_FreeSurface (shape_surface (geo s));
         E_create_circular_shape (window_size (geo (fst (handle_event s ea)))) None;
         E_fprintf_stderr "SDL_CreateRGBSurface failed: %s\n";
         E_store_current_window_size (window_size (geo (fst (handle_event s ea))))])
  /\ snd (create_window c env width height) = inl 1
  /\ drop 3 (fst (create_window c env width height))
     = [E_create_circular_shape (cfg_window_size c) None;
        E_fprintf_stderr "SDL_CreateRGBSurface failed: %s\n";
        E_SDL_DestroyRenderer; E_SDL_DestroyWindow;
        E_ioctl_STREAMOFF; E_free; E_close; E_SDL_Quit].
Proof.
  intros Hev Hok Hw Hr Hs. split.
  - destruct ea as [ev a]. simpl in Hok.
    assert (H : forall g1, shape_surface g1 = shape_surface (geo s) ->
      let r := resize_now (clamp_window_size g1) (surface_ok a) in
      shape_surface (fst r) = None
      /\ current_window_size (fst r) = window_size (fst r)
      /\ List.filter is_set_shape (snd r) = []
      /\ snd r
         = [E_SDL_SetWindowSize (window_size (fst r)) (window_size (fst r));
            E_SDL_FreeSurface (shape_surface (geo s));
            E_create_circular_shape (window_size (fst r)) None;
            E_fprintf_stderr "SDL_CreateRGBSurface failed: %s\n";
            E_store_current_window_size (window_size (fst r))]).
    { intros g1 Hg1. rewrite Hok. cbn zeta.
      destruct (resize_now_without_mask (clamp_window_size g1))
        as (H1 & H2 & H3 & H4 & H5).
      rewrite H1, H2, H3, H4, H5, (proj1 (clamp_window_size_mask g1)), Hg1. done. }
    destruct ev as [|[]|[]|[]| |y|d1 d2| |]; try discriminate; cbn [handle_event].
    + unfold key_plus. specialize (H (set_window_size (geo s)
        (int_add (current_window_size (geo s)) SIZE_STEP)) eq_refl).
      by destruct (resize_now _ _).
    + unfold key_plus. specialize (H (set_window_size (geo s)
        (int_add (current_window_size (geo s)) SIZE_STEP)) eq_refl).
      by destruct (resize_now _ _).
    + unfold key_minus. specialize (H (set_window_size (geo s)
        (int_sub (current_window_size (geo s)) SIZE_STEP)) eq_refl).
      by destruct (resize_now _ _).
    + unfold mouse_wheel.
      match goal with |- context [resize_now (clamp_window_size ?g1) _] =>
        specialize (H g1) end.
      destruct (resize_now _ _) as [g' t]. cbn [fst snd set_geo running geo] in *.
      split; [done|]. apply H.
      by destruct (0 <? y); [|destruct (y <? 0)].
  - unfold create_window, bind, call, return_, ret, call_create_circular_shape.
    by rewrite Hw, Hr, Hs.
Qed.

Lemma mask_failure_is_fatal_only_at_start_up_witness :
  (running (fst (handle_event (state_of g480) plus_without_mask)) = 1
   /\ current_window_size (geo (fst (handle_event (state_of g480) plus_without_mask)))
      = 490)
  /\ snd (create_window (mkConfig 256 None 0) env_shape_fails 640 480) = inl 1.
Proof.
  destruct (mask_failure_is_fatal_only_at_start_up (state_of g480) plus_without_mask
              (mkConfig 256 None 0) env_shape_fails 640 480)
    as [(H1 & _ & H2 & _) [H3 _]]; try reflexivity.
  split; [split|]; [exact H1 | exact H2 | exact H3].
Defined.

End Frames.

(** ** When start-up succeeds *)

Section StartUpOutcome.
Import Geometry Driver Main Props More.

Lemma open_and_negotiate_ok_iff d env :
  (exists x, snd (open_and_negotiate d env) = inr x)
  <-> 0 <= r_SDL_Init env /\ 0 <= r_open env /\ 0 <= r_QUERYCAP env
      /\ Z.land (capabilities env) V4L2_CAP_VIDEO_CAPTURE <> 0
      /\ 0 <= r_S_FMT env.
Proof.
  split.
  - intros [x Hx]. by destruct (open_and_negotiate_result d env x Hx) as [_ H].
  - intros (H1 & H2 & H3 & H4 & H5).
    unfold open_and_negotiate, bind, call, return_, ret. simpl.
    destruct (Z.ltb_spec (r_SDL_Init env) 0); [lia|].
    destruct (Z.ltb_spec (r_open env) 0); [lia|].
    destruct (Z.ltb_spec (r_QUERYCAP env) 0); [lia|].
    destruct (Z.eqb_spec (Z.land (capabilities env) V4L2_CAP_VIDEO_CAPTURE) 0); [done|].
    destruct (Z.ltb_spec (r_S_FMT env) 0); [lia|].
    simpl. eauto.
Qed.

Lemma map_buffers_ok_iff env idx : forall p,
  (exists p', snd (map_buffers env idx p) = inr p')
  <-> Forall (λ j, 0 <= r_QUERYBUF env j /\ mmap_ok env j = true) idx.
Proof.
  induction idx as [|i rest IH]; intros p.
  { split; [done|]. intros _. by exists p. }
  rewrite map_buffers_cons, Forall_cons.
  destruct (Z.ltb_spec (r_QUERYBUF env i) 0).
  { split; [by intros [p' [=]] | intros [[H1 _] _]; lia]. }
  destruct (mmap_ok env i).
  - cbn [snd]. rewrite IH. intuition.
  - split; [by intros [p' [=]] | by intros [[_ [=]] _]].
Qed.

Lemma queue_buffers_ok_iff env (m : nat) : forall (k : nat),
  (exists p', snd (queue_buffers env (seqZ (Z.of_nat k) (Z.of_nat m))
                     (replicate k Queued ++ replicate m Mapped)) = inr p')
  <-> Forall (λ j, 0 <= r_QBUF env j) (seqZ (Z.of_nat k) (Z.of_nat m)).
Proof.
  induction m as [|m IH]; intros k.
  { split; [done|]. intros _. by eexists. }
  rewrite seqZ_of_nat_S, queue_buffers_cons, Forall_cons.
  assert (Hl : (replicate k Queued ++ replicate (S m) Mapped) !! k = Some Mapped).
  { rewrite lookup_app_r by (rewrite length_replicate; lia).
    by rewrite length_replicate, Nat.sub_diag. }
  unfold qbuf. rewrite Nat2Z.id.
  destruct (Z.ltb_spec (r_QBUF env (Z.of_nat k)) 0) as [Hr|Hr].
  { cbn [fst snd]. destruct (Z.ltb_spec (r_QBUF env (Z.of_nat k)) 0); [|lia].
    split; [by intros [p' [=]] | intros [H1 _]; lia]. }
  destruct (Z.ltb_spec (Z.of_nat k) 0); [lia|].
  rewrite Hl. cbn [fst snd].
  destruct (Z.ltb_spec (r_QBUF env (Z.of_nat k)) 0); [lia|].
  cbn [snd]. rewrite insert_replicate_boundary, IH. intuition.
Qed.

Lemma request_and_map_buffers_ok_iff env :
  (exists p, snd (request_and_map_buffers env) = inr p)
  <-> 0 <= r_REQBUFS env
      /\ Forall (λ j, 0 <= r_QUERYBUF env j /\ mmap_ok env j = true)
           (seqZ 0 (granted env)).
Proof.
  unfold request_and_map_buffers. rewrite bind_result. cbn [call snd].
  destruct (Z.ltb_spec (r_REQBUFS env) 0).
  { split; [by intros [p [=]] | intros [H1 _]; lia]. }
  rewrite bind_result. cbn [call snd]. rewrite map_buffers_ok_iff. intuition.
Qed.

Lemma queue_and_stream_ok_iff env :
  (exists p, snd (queue_and_stream env (replicate (Z.to_nat (granted env)) Mapped))
             = inr p)
  <-> Forall (λ j, 0 <= r_QBUF env j) (seqZ 0 (granted env)) /\ 0 <= r_STREAMON env.
Proof.
  unfold queue_and_stream. rewrite bind_result.
  pose proof (queue_buffers_ok_iff env (Z.to_nat (granted env)) 0%nat) as Hq.
  rewrite <- seqZ_to_nat in Hq. simpl in Hq. rewrite <- Hq. clear Hq.
  destruct (snd (queue_buffers _ _ _)) as [code|p].
  { split; [by intros [p [=]] | by intros [[p [=]] _]]. }
  rewrite bind_result. cbn [call snd].
  destruct (Z.ltb_spec (r_STREAMON env) 0).
  - split; [by intros [p' [=]] | intros [_ H1]; lia].
  - split; [intros _; split; [by eexists | done] | intros _; by eexists].
Qed.

Lemma create_window_ok_iff c env width height :
  (exists sh, snd (create_window c env width height) = inr sh)
  <-> window_ok env = true /\ renderer_ok env = true
      /\ shape_ok env = true /\ texture_ok env = true.
Proof.
  unfold create_window, bind, call, return_, ret, call_create_circular_shape.
  destruct (window_ok env); [|simpl; split; [by intros [sh [=]] | by intros [[=] _]]].
  destruct (renderer_ok env);
    [|simpl; split; [by intros [sh [=]] | by intros (_ & [=] & _)]].
  destruct (shape_ok env);
    [|simpl; split; [by intros [sh [=]] | by intros (_ & _ & [=] & _)]].
  destruct (texture_ok env);
    [|simpl; split; [by intros [sh [=]] | by intros (_ & _ & _ & [=])]].
  simpl. split; [done | intros _; by eexists].
Qed.

(** X19. Start-up reaches the loop exactly when every call succeeds. The
    loop is entered if and only if SDL starts, the device opens, answers
    the capability query as a capture device and accepts the format, the
    buffer request succeeds, each granted buffer can be queried, mapped
    and queued, streaming starts, and the window, the renderer, the mask
    and the texture can be made. The loop then starts with every granted
    buffer queued, the window at the size asked for with the first mask
    set, no drag and no resize pending. *)
Theorem start_up_succeeds_iff (c : config) (d : string) (env : init_env) :
  ((exists s, snd (initialise c d env) = inr s) <-> all_calls_succeed env)
  /\ (forall s, snd (initialise c d env) = inr s ->
        slots s = replicate (Z.to_nat (granted env)) Queued
        /\ geo s = mkGeometry (cfg_window_size c) (cfg_window_size c)
                     (Some (mkRef 0 (cfg_window_size c))) 1 0 0 0
        /\ drag s = mkDrag 0 0 0 0 0
        /\ running s = 1
        /\ req_count (dev s) = granted env
        /\ pix_width (dev s) = u32 (fmt_width env)
        /\ pix_height (dev s) = u32 (fmt_height env)).
Proof.
  assert (Hall : all_calls_succeed env
    <-> (0 <= r_SDL_Init env /\ 0 <= r_open env /\ 0 <= r_QUERYCAP env
         /\ Z.land (capabilities env) V4L2_CAP_VIDEO_CAPTURE <> 0 /\ 0 <= r_S_FMT env)
        /\ (0 <= r_REQBUFS env
            /\ Forall (λ j, 0 <= r_QUERYBUF env j /\ mmap_ok env j = true)
                 (seqZ 0 (granted env)))
        /\ (Forall (λ j, 0 <= r_QBUF env j) (seqZ 0 (granted env))
            /\ 0 <= r_STREAMON env)
        /\ (window_ok env = true /\ renderer_ok env = true
            /\ shape_ok env = true /\ texture_ok env = true)).
  { unfold all_calls_succeed. rewrite !Forall_forall.
    setoid_rewrite elem_of_seqZ. split.
    - intros (H1 & H2 & H3 & H4 & H5 & H6 & H7 & H8 & H9).
      repeat (split; [done|]). split; [|split; [|done]].
      + split; [done|]. intros j Hj. destruct (H7 j) as (? & ? & ?); [lia|done].
      + split; [|done]. intros j Hj. destruct (H7 j) as (? & ? & ?); [lia|done].
    - intros ((H1 & H2 & H3 & H4 & H5) & (H6 & H7) & (H8 & H9) & H10).
      repeat (split; [done|]). split; [|split; [done|done]].
      intros j Hj. destruct (H7 j) as [? ?]; [lia|].
      split; [done|]. split; [done|]. apply H8. lia. }
  rewrite Hall, <- (open_and_negotiate_ok_iff d env),
    <- request_and_map_buffers_ok_iff, <- queue_and_stream_ok_iff.
  unfold initialise. rewrite bind_result.
  pose proof (open_and_negotiate_result d env) as Ho.
  destruct (snd (open_and_negotiate d env)) as [c1|[[width height] src]].
  { split; [|discriminate].
    split; [by intros [s [=]] | by intros [[x [=]] _]]. }
  destruct (Ho _ eq_refl) as [[= -> -> ->] _]. clear Ho.
  rewrite bind_result.
  pose proof (proj2 (request_and_map_buffers_spec env)) as Hm.
  destruct (snd (request_and_map_buffers env)) as [c1|p].
  { split; [|discriminate].
    split; [by intros [s [=]] | by intros (_ & [x [=]] & _)]. }
  rewrite (Hm p eq_refl). clear Hm. rewrite bind_result.
  pose proof (proj2 (queue_and_stream_spec env)) as Hq.
  destruct (snd (queue_and_stream env _)) as [c1|p'].
  { split; [|discriminate].
    split; [by intros [s [=]] | by intros (_ & _ & [x [=]] & _)]. }
  rewrite (Hq p' eq_refl). clear Hq. rewrite bind_result.
  rewrite <- (create_window_ok_iff c env (u32 (fmt_width env)) (u32 (fmt_height env))).
  pose proof (create_window_log c env (u32 (fmt_width env)) (u32 (fmt_height env)))
    as (_ & _ & Hw).
  destruct (snd (create_window c env _ _)) as [c1|sh].
  { split; [|discriminate].
    split; [by intros [s [=]] | by intros (_ & _ & _ & [x [=]])]. }
  destruct Hw as (_ & _ & _ & ->).
  split.
  - split; [intros _; repeat (split; [by eexists|]); by eexists | intros _; by eexists].
  - by intros s [= <-].
Qed.

Lemma start_up_succeeds_iff_witness :
  exists s,
    snd (initialise (mkConfig 256 None 1) "/dev/video0" (env_grants 4)) = inr s.
Proof.
  apply (proj1 (start_up_succeeds_iff (mkConfig 256 None 1) "/dev/video0"
                  (env_grants 4))).
  unfold all_calls_succeed, env_grants. cbn.
  split; [lia|]. split; [lia|]. split; [lia|]. split; [discriminate|].
  split; [lia|]. split; [lia|]. split; [intros j _; split; [lia|split; [done|lia]]|].
  split; [lia|]. done.
Defined.

End StartUpOutcome.

(** ** Where the mask touches the edges *)

Section MaskEdges.
Import More.

Lemma opaque_at_spec size x y :
  1 <= size <= 46340 -> 0 <= x < size -> 0 <= y < size ->
  opaque_at size x y
  = ((x - size / 2) ^ 2 + (y - size / 2) ^ 2 <=? (size / 2) ^ 2).
Proof.
  intros Hs Hx Hy. unfold opaque_at, Shape.create_circular_shape.
  cbn [Shape.surf_pixels].
  rewrite shape_rows_lookup, rows_hit_disc by done.
  rewrite lookup_replicate_2 by nia. cbn [fmap option_fmap option_map].
  by destruct (_ <=? _).
Qed.

(** X20. The disc is centred on pixel [size / 2], not on the middle of
    the window. For every size from 1 to 46340 the mask is symmetric
    under exchanging [x] and [y]; its top row and its left column have
    exactly one opaque pixel, at [size / 2]. For odd sizes the same holds
    for the bottom row and the right column; for even sizes the bottom
    row has at least the two opaque pixels [size / 2 - 1] and
    [size / 2], so the disc sits half a pixel towards the bottom
    right. *)
Theorem mask_is_centred_on_a_pixel (size x y : Z) :
  1 <= size <= 46340 -> 0 <= x < size -> 0 <= y < size ->
  opaque_at size x y = opaque_at size y x
  /\ opaque_at size x 0 = (x =? size / 2)
  /\ opaque_at size 0 y = (y =? size / 2)
  /\ (Z.odd size = true ->
      opaque_at size x (size - 1) = (x =? size / 2)
      /\ opaque_at size (size - 1) y = (y =? size / 2))
  /\ (Z.even size = true ->
      opaque_at size (size / 2 - 1) (size - 1) = true
      /\ opaque_at size (size / 2) (size - 1) = true).
Proof.
  intros Hs Hx Hy.
  pose proof (Z.div_mod size 2 ltac:(lia)) as Hdm.
  pose proof (Z.mod_pos_bound size 2 ltac:(lia)) as Hmb.
  assert (Hedge : forall z, 0 <= z < size ->
            ((z - size / 2) ^ 2 + (0 - size / 2) ^ 2 <=? (size / 2) ^ 2)
            = (z =? size / 2)).
  { intros z Hz. destruct (Z.eqb_spec z (size / 2)) as [->|Hne].
    - apply Z.leb_le. nia.
    - apply Z.leb_gt. nia. }
  split; [|split; [|split; [|split]]].
  - rewrite !opaque_at_spec by lia. f_equal. ring.
  - rewrite opaque_at_spec by lia. by apply Hedge.
  - rewrite opaque_at_spec by lia.
    rewrite <- (Hedge y Hy). f_equal. ring.
  - intros Hodd. rewrite Zmod_odd, Hodd in Hdm.
    assert (Hlast : forall z, 0 <= z < size ->
              ((z - size / 2) ^ 2 + (size - 1 - size / 2) ^ 2 <=? (size / 2) ^ 2)
              = (z =? size / 2)).
    { intros z Hz. destruct (Z.eqb_spec z (size / 2)) as [->|Hne].
      - apply Z.leb_le. nia.
      - apply Z.leb_gt. nia. }
    rewrite !opaque_at_spec by lia. split; [by apply Hlast|].
    rewrite <- (Hlast y Hy). f_equal. ring.
  - intros Heven. rewrite Zmod_even, Heven in Hdm.
    rewrite !opaque_at_spec by lia. split; apply Z.leb_le; nia.
Qed.

Lemma mask_is_centred_on_a_pixel_witness :
  (opaque_at 4 1 0 = opaque_at 4 0 1
   /\ opaque_at 4 1 0 = (1 =? 4 / 2)
   /\ opaque_at 4 0 0 = (0 =? 4 / 2)
   /\ (Z.odd 4 = true ->
       opaque_at 4 1 (4 - 1) = (1 =? 4 / 2)
       /\ opaque_at 4 (4 - 1) 0 = (0 =? 4 / 2))
   /\ (Z.even 4 = true ->
       opaque_at 4 (4 / 2 - 1) (4 - 1) = true
       /\ opaque_at 4 (4 / 2) (4 - 1) = true))
  /\ opaque_at 4 1 3 = true /\ opaque_at 4 1 0 = false.
Proof.
  split; [|split; vm_compute; reflexivity].
  apply (mask_is_centred_on_a_pixel 4 1 0); lia.
Defined.

End MaskEdges.

(** ** Key resizes while a window-manager resize is pending *)

Section Interplay.
Import Geometry Driver Main Props More.

Lemma resize_now_request g ok : request (fst (resize_now g ok)) = request g.
Proof. by rewrite resize_now_spec. Qed.

Lemma clamp_window_size_request g : request (clamp_window_size g) = request g.
Proof. unfold clamp_window_size. by destruct (_ <? _). Qed.

Lemma resize_event_request s ea :
  resizes_at_once ea = true ->
  request (geo (fst (handle_event s ea))) = request (geo s).
Proof.
  destruct ea as [ev a]. intros Hev.
  assert (H : forall g1, request g1 = request (geo s) ->
            request (fst (resize_now (clamp_window_size g1) (surface_ok a)))
            = request (geo s)).
  { intros g1 Hg1. by rewrite resize_now_request, clamp_window_size_request. }
  destruct ev as [|[]|[]|[]| |y|d1 d2| |]; try discriminate; cbn [handle_event].
  - unfold key_plus. specialize (H (set_window_size (geo s)
      (int_add (current_window_size (geo s)) SIZE_STEP)) eq_refl).
    by destruct (resize_now _ _).
  - unfold key_plus. specialize (H (set_window_size (geo s)
      (int_add (current_window_size (geo s)) SIZE_STEP)) eq_refl).
    by destruct (resize_now _ _).
  - unfold key_minus. specialize (H (set_window_size (geo s)
      (int_sub (current_window_size (geo s)) SIZE_STEP)) eq_refl).
    by destruct (resize_now _ _).
  - unfold mouse_wheel.
    match goal with |- context [resize_now (clamp_window_size ?g1) _] =>
      specialize (H g1) end.
    destruct (resize_now _ _) as [g' t]. cbn [fst snd set_geo geo] in *.
    apply H. by destruct (0 <? y); [|destruct (y <? 0)].
Qed.

Lemma resize_events_request evs : forall s,
  forallb resizes_at_once evs = true ->
  request (geo (fst (poll_events s evs))) = request (geo s).
Proof.
  induction evs as [|ea evs IH]; intros s H; [done|].
  simpl in H. apply andb_true_iff in H. destruct H as [Ha Hevs].
  rewrite poll_events_cons_state, IH by done. by apply resize_event_request.
Qed.

(** X21. Key and wheel resizes do not cancel a pending window-manager
    resize. While a size reported by the window manager is pending, [+],
    [-] and wheel events resize the window at once but leave the request
    and its time stamp as they are; when the request has been quiet for
    100 ticks and the window accepts it, the stabilised resize sets the
    window to the pending size, whatever the keys had made of it. *)
Theorem pending_resize_outlives_key_resizes (s : state)
    (evs : list (SDL_Event * answers)) (c : check_answers) (k : Z) :
  forallb resizes_at_once evs = true ->
  pending (geo s) = Some k ->
  pending (geo (fst (poll_events s evs))) = Some k
  /\ last_resize_time (geo (fst (poll_events s evs))) = last_resize_time (geo s)
  /\ (RESIZE_STABILIZE_MS <= elapsed (geo s) c ->
      actual_w c = k -> actual_h c = k ->
      applied_resizes (snd (stabilized_resize (geo (fst (poll_events s evs))) c)) = [k]
      /\ current_window_size (fst (stabilized_resize (geo (fst (poll_events s evs))) c))
         = k
      /\ pending (fst (stabilized_resize (geo (fst (poll_events s evs))) c)) = None).
Proof.
  intros Hevs Hp.
  pose proof (resize_events_request evs s Hevs) as Hr.
  unfold request in Hr. injection Hr as H1 H2 H3.
  assert (Hp' : pending (geo (fst (poll_events s evs))) = Some k).
  { unfold pending in *. by rewrite H1, H2. }
  split; [done|]. split; [done|]. intros He Hw Hh.
  destruct (stabilized_resize_fires (geo (fst (poll_events s evs))) c k Hp')
    as (A1 & A2 & A3).
  { unfold elapsed in *. by rewrite H3. }
  split; [done|]. split; [by apply A3 | done].
Qed.

Lemma pending_resize_outlives_key_resizes_witness :
  current_window_size (geo (fst (poll_events (state_of g480_pending)
                                   plus_then_wheel_down))) = 480
  /\ current_window_size
       (fst (stabilized_resize
               (geo (fst (poll_events (state_of g480_pending) plus_then_wheel_down)))
               c_honoured)) = 300.
Proof.
  split; [reflexivity|].
  destruct (pending_resize_outlives_key_resizes (state_of g480_pending)
              plus_then_wheel_down c_honoured 300) as (_ & _ & H);
    [reflexivity | reflexivity |].
  destruct H as (_ & H & _); [vm_compute; discriminate | reflexivity | reflexivity |].
  exact H.
Defined.

End Interplay.
